(** * omq_visa_drivers.motors.conexcc : the CONEX-CC stage controller

    A shallow embedding of the [ConexCC] class of
    [src/omq_visa_drivers/motors/conexcc.py] and proofs about its range and
    state checks, its clamping of velocities, its unit conversions and its
    polling loops with timeout and bounded retry.

    Modelling choices.
    - Python floats are IEEE binary64 values: Rocq's primitive [float], with
      [PrimFloat.add], [PrimFloat.mul] and [PrimFloat.ltb] for [+], [*], [>].
      [MAX_RUN] is the Python int 37000; Python compares an int with a float
      exactly, and 37000 is a binary64 value, so it is the float 37000 here.
    - The vendor library behind [self.driver] is not part of the repository:
      it is a record [Driver] of functions over an abstract world [W], one per
      command the class calls.  Out-parameters that the Python binding passes
      as placeholders (the trailing [0] and [''] arguments) are dropped.
    - Every call made to the driver is appended to a [trace], so that
      "no command was sent" is a statement about that trace.
    - [time.time()] reads a clock kept in milliseconds; [sleep] advances it by
      its argument and a driver round trip leaves it unchanged.  Timeouts are
      the integer seconds of the signatures ([timeout: int = 30]).
    - A [while] loop and the recursion of the [*_sync] methods consume fuel;
      running out of fuel is the outcome [OutOfFuel], distinct from every
      Python result. *)

From Stdlib Require Import ZArith List String Ascii Bool Lia.
From Stdlib Require Import Floats.
Import ListNotations.

Set Warnings "-inexact-float".

Local Open Scope Z_scope.
Local Open Scope string_scope.
Local Open Scope list_scope.

(** ** Exceptions *)

(** An f-string whose arguments are not all strings is kept as its pieces:
    [{res}] is [FmtInt], [{resp:.2f}] is [FmtFloat2], [{err_str}] is [FmtStr]
    and a quoted argument such as [errString="{err_str}"] is [FmtQuoted]. *)
Inductive piece : Type :=
| Lit (s : string)
| FmtInt (z : Z)
| FmtFloat2 (x : float)
| FmtStr (s : string)
| FmtQuoted (s : string).

Definition fstring : Type := list piece.

Inductive exn : Type :=
| CCMotorStateError (message : string)
| CCMotorTimeoutError (timeout : Z)
| CCMotorRangeExceededError (pos max_pos : float)
| CCMotorOtherError (message : string)
| CCMotorCommunicationError (message : fstring)
| ValueError (message : string).

(** [isinstance(e, CCMotorError)]: every class of the module derives from
    [CCMotorError]; the builtin [ValueError] does not. *)
Definition is_CCMotorError (e : exn) : bool :=
  match e with
  | ValueError _ => false
  | _ => true
  end.

Definition is_CommunicationError (e : exn) : bool :=
  match e with
  | CCMotorCommunicationError _ => true
  | _ => false
  end.

Definition is_StateError (e : exn) : bool :=
  match e with
  | CCMotorStateError _ => true
  | _ => false
  end.

Definition is_RangeExceededError (e : exn) : bool :=
  match e with
  | CCMotorRangeExceededError _ _ => true
  | _ => false
  end.

(** The named tuple returned by [get_state]. *)
Record StateError : Type := mkStateError { se_state : string; se_error : string }.

(** ** The transport *)

(** The commands of [CommandInterfaceConexCC.ConexCC] that the class uses.
    Each takes the world and returns the tuple the binding returns, with the
    next world. *)
Record Driver (W : Type) : Type := mkDriver {
  OpenInstrument : string -> W -> Z * W;
  CloseInstrument : W -> Z * W;
  SL_Get : Z -> W -> (Z * float * string) * W;
  SR_Get : Z -> W -> (Z * float * string) * W;
  MM_Set : Z -> Z -> W -> (Z * string) * W;
  OH_Set : Z -> float -> W -> (Z * string) * W;
  OR : Z -> W -> (Z * string) * W;
  PR_Set : Z -> float -> W -> (Z * string) * W;
  PA_Set : Z -> float -> W -> (Z * string) * W;
  TP : Z -> W -> (Z * float * string) * W;
  VA_Get : Z -> W -> (Z * float * string) * W;
  VA_Set : Z -> float -> W -> (Z * string) * W;
  (* result code, error, state, error string *)
  TS : Z -> W -> (Z * string * string * string) * W
}.

Arguments OpenInstrument {W}.
Arguments CloseInstrument {W}.
Arguments SL_Get {W}.
Arguments SR_Get {W}.
Arguments MM_Set {W}.
Arguments OH_Set {W}.
Arguments OR {W}.
Arguments PR_Set {W}.
Arguments PA_Set {W}.
Arguments TP {W}.
Arguments VA_Get {W}.
Arguments VA_Set {W}.
Arguments TS {W}.

(** One entry of the trace per call to the driver, with its arguments. *)
Inductive call : Type :=
| Call_OpenInstrument (com_port : string)
| Call_CloseInstrument
| Call_SL_Get (dev : Z)
| Call_SR_Get (dev : Z)
| Call_MM_Set (dev state : Z)
| Call_OH_Set (dev : Z) (velocity : float)
| Call_OR (dev : Z)
| Call_PR_Set (dev : Z) (distance_mm : float)
| Call_PA_Set (dev : Z) (pos_mm : float)
| Call_TP (dev : Z)
| Call_VA_Get (dev : Z)
| Call_VA_Set (dev : Z) (speed : float)
| Call_TS (dev : Z).

(** The calls that command the controller, as opposed to the queries
    ([SL_Get], [SR_Get], [TP], [VA_Get], [TS]) that only read it. *)
Definition is_write (c : call) : bool :=
  match c with
  | Call_MM_Set _ _ | Call_OH_Set _ _ | Call_OR _
  | Call_PR_Set _ _ | Call_PA_Set _ _ | Call_VA_Set _ _ => true
  | _ => false
  end.

Definition is_move (c : call) : bool :=
  match c with
  | Call_PR_Set _ _ | Call_PA_Set _ _ => true
  | _ => false
  end.

Definition is_home (c : call) : bool :=
  match c with
  | Call_OR _ => true
  | _ => false
  end.

Definition is_enable (c : call) : bool :=
  match c with
  | Call_MM_Set _ 1 => true
  | _ => false
  end.

Definition count (p : call -> bool) (l : list call) : nat :=
  List.length (List.filter p l).

(** ** Program state and the monad of the methods *)

Record St (W : Type) : Type := mkSt {
  world : W;                   (* the controller behind [self.driver] *)
  clock : Z;                   (* [time.time()], in milliseconds *)
  trace : list call;           (* the calls made so far, oldest first *)
  min_limit : option float;    (* [self.min_limit] *)
  max_limit : option float     (* [self.max_limit] *)
}.

Arguments mkSt {W}.
Arguments world {W}.
Arguments clock {W}.
Arguments trace {W}.
Arguments min_limit {W}.
Arguments max_limit {W}.

Inductive outcome (A : Type) : Type :=
| Return (a : A)
| Raise (e : exn)
| OutOfFuel.

Arguments Return {A}.
Arguments Raise {A}.
Arguments OutOfFuel {A}.

Definition M (W A : Type) : Type := St W -> outcome A * St W.

Definition ret {W A} (a : A) : M W A := fun s => (Return a, s).

Definition raise {W A} (e : exn) : M W A := fun s => (Raise e, s).

Definition out_of_fuel {W A} : M W A := fun s => (OutOfFuel, s).

Definition bind {W A B} (m : M W A) (f : A -> M W B) : M W B :=
  fun s =>
    match m s with
    | (Return a, s') => f a s'
    | (Raise e, s') => (Raise e, s')
    | (OutOfFuel, s') => (OutOfFuel, s')
    end.

Declare Scope py_scope.
Delimit Scope py_scope with py.
Notation "x <- m ;; k" := (bind m (fun x => k))
  (at level 100, m at next level, right associativity) : py_scope.
Notation "' p <- m ;; k" := (bind m (fun x => match x with p => k end))
  (at level 100, p pattern, m at next level, right associativity) : py_scope.
Notation "m ;; k" := (bind m (fun _ => k))
  (at level 100, right associativity) : py_scope.
Local Open Scope py_scope.

(** The primitive effects: one driver call, logged; the clock; [sleep]. *)
Definition logged {W} (c : call) (w' : W) (s : St W) : St W :=
  mkSt w' (clock s) (trace s ++ [c]) (min_limit s) (max_limit s).

Definition invoke {W A} (c : call) (f : W -> A * W) : M W A :=
  fun s =>
    let (a, w') := f (world s) in
    (Return a, logged c w' s).

Definition time_time {W} : M W Z := fun s => (Return (clock s), s).

Definition slept {W} (delay : Z) (s : St W) : St W :=
  mkSt (world s) (clock s + delay) (trace s) (min_limit s) (max_limit s).

Definition sleep {W} (delay : Z) : M W unit :=
  fun s => (Return tt, slept delay s).

Definition set_min_limit {W} (v : float) : M W unit :=
  fun s => (Return tt, mkSt (world s) (clock s) (trace s) (Some v) (max_limit s)).

Definition set_max_limit {W} (v : float) : M W unit :=
  fun s => (Return tt, mkSt (world s) (clock s) (trace s) (min_limit s) (Some v)).

Definition clear_limits {W} : M W unit :=
  fun s => (Return tt, mkSt (world s) (clock s) (trace s) None None).

(** ** Class constants *)

Definition MAX_VELOCITY : float := 0.4%float.

Definition READY_STATES : list string := ["32"; "33"; "34"; "36"; "37"; "38"].

Definition POSSIBLE_STATES : list (string * string) :=
  [ ("0A", "NOT REFERENCED from RESET.");
    ("0B", "NOT REFERENCED from HOMING.");
    ("0C", "NOT REFERENCED from CONFIGURATION.");
    ("0D", "NOT REFERENCED from DISABLE.");
    ("0E", "NOT REFERENCED from READY.");
    ("0F", "NOT REFERENCED from MOVING.");
    ("10", "NOT REFERENCED - NO PARAMETERS IN MEMORY.");
    ("14", "CONFIGURATION.");
    ("1E", "HOMING.");
    ("28", "MOVING.");
    ("32", "READY from HOMING.");
    ("33", "READY from MOVING.");
    ("34", "READY from DISABLE.");
    ("36", "READY T from READY.");
    ("37", "READY T from TRACKING.");
    ("38", "READY T from DISABLE T.");
    ("3C", "DISABLE from READY.");
    ("3D", "DISABLE from MOVING.");
    ("3E", "DISABLE from TRACKING.");
    ("3F", "DISABLE from READY T.");
    ("46", "TRACKING from READY T.");
    ("47", "TRACKING from TRACKING.") ].

Definition MAX_RUN : float := 37000%float.

Definition DEV : Z := 1.

(** [MOVEMENT_SLEEP_TIME = 0.05] seconds, in the clock's milliseconds. *)
Definition MOVEMENT_SLEEP_TIME : Z := 50.

(** [x in READY_STATES] *)
Definition in_READY_STATES (x : string) : bool :=
  existsb (String.eqb x) READY_STATES.

(** [res != 0 or err_str != ''] *)
Definition faulty (res : Z) (err_str : string) : bool :=
  negb (res =? 0)%Z || negb (err_str =? "")%string.

(** ** The methods of [ConexCC] *)

Section ConexCC.

Context {W : Type}.
Variable driver : Driver W.

Definition get_limits : M W (float * float) :=
  '(res, resp, err_str) <- invoke (Call_SL_Get DEV) (SL_Get driver DEV) ;;
  if faulty res err_str then
    raise (CCMotorCommunicationError
             [Lit "Negative SW Limit: result="; FmtInt res; Lit ", response=";
              FmtFloat2 resp; Lit ", errString="; FmtQuoted err_str])
  else
    set_min_limit resp ;;
    '(res', resp', err_str') <- invoke (Call_SR_Get DEV) (SR_Get driver DEV) ;;
    if faulty res' err_str' then
      raise (CCMotorCommunicationError
               [Lit "Oops: Positive SW Limit: result="; FmtInt res'; Lit ",response=";
                FmtFloat2 resp'; Lit ",errString="; FmtQuoted err_str'])
    else
      set_max_limit resp' ;;
      ret (resp, resp').

Definition set_state (state : Z) : M W unit :=
  '(res, err_str) <- invoke (Call_MM_Set DEV state) (MM_Set driver DEV state) ;;
  if faulty res err_str then
    raise (CCMotorCommunicationError
             [Lit "Set state to "; FmtInt state; Lit ": result="; FmtInt res;
              Lit ", errString="; FmtQuoted err_str; Lit "."])
  else ret tt.

Definition set_disable : M W unit := set_state 0.

Definition set_enable : M W unit := set_state 1.

Definition set_homing_velocity (velocity : float) : M W unit :=
  let velocity := if (MAX_VELOCITY <? velocity)%float then MAX_VELOCITY else velocity in
  '(res, err_str) <- invoke (Call_OH_Set DEV velocity) (OH_Set driver DEV velocity) ;;
  if faulty res err_str then
    raise (CCMotorCommunicationError
             [Lit "Homing velocity: result="; FmtInt res;
              Lit ", errString="; FmtQuoted err_str; Lit "."])
  else ret tt.

Definition init_position_async : M W unit :=
  '(res, err_str) <- invoke (Call_OR DEV) (OR driver DEV) ;;
  if faulty res err_str then
    raise (CCMotorCommunicationError
             [Lit "Find Home: result="; FmtInt res; Lit ",errString="; FmtQuoted err_str])
  else ret tt.

Definition cur_pos_mm : M W float :=
  '(res, resp, err_str) <- invoke (Call_TP DEV) (TP driver DEV) ;;
  if faulty res err_str then
    raise (CCMotorCommunicationError
             [Lit "Current Position: result="; FmtInt res; Lit ", response=";
              FmtFloat2 resp; Lit ", errString="; FmtQuoted err_str])
  else ret resp.

Definition cur_pos : M W float :=
  mm <- cur_pos_mm ;;
  ret (mm * 1e3)%float.

Definition velocity : M W float :=
  '(res, resp, err_str) <- invoke (Call_VA_Get DEV) (VA_Get driver DEV) ;;
  if faulty res err_str then
    raise (CCMotorCommunicationError
             [Lit "Oops: Current Velocity: result="; FmtInt res; Lit ", response=";
              FmtFloat2 resp; Lit ", errString="; FmtQuoted err_str])
  else ret resp.

Definition velocity_setter (speed : float) : M W unit :=
  let speed := if (MAX_VELOCITY <? speed)%float then MAX_VELOCITY else speed in
  '(res, err_str) <- invoke (Call_VA_Set DEV speed) (VA_Set driver DEV speed) ;;
  if faulty res err_str then
    raise (CCMotorCommunicationError
             [Lit "Set velocity: result="; FmtInt res; Lit ",errString="; FmtQuoted err_str])
  else ret tt.

(** The result code of [TS] is bound to [_]; only [len(err_str)] is tested. *)
Definition get_state : M W StateError :=
  '(_, error, state, err_str) <- invoke (Call_TS DEV) (TS driver DEV) ;;
  if negb (String.length err_str =? 0)%nat then
    raise (CCMotorCommunicationError
             [Lit "Oops: Cannot get the state. Error: "; FmtStr err_str])
  else ret (mkStateError state error).

Definition state : M W string :=
  se <- get_state ;;
  ret (se_state se).

Definition is_ready : M W bool :=
  st <- state ;;
  ret (in_READY_STATES st).

Definition error : M W string :=
  se <- get_state ;;
  ret (se_error se).

Definition close : M W unit :=
  invoke Call_CloseInstrument (CloseInstrument driver) ;;
  ret tt.

Definition move_relative_async (distance_um : float) : M W unit :=
  cur <- cur_pos ;;
  if (MAX_RUN <? cur + distance_um)%float then
    raise (CCMotorRangeExceededError (cur + distance_um)%float MAX_RUN)
  else
    ready <- is_ready ;;
    if negb ready then
      st <- state ;;
      raise (CCMotorStateError ("Stage not ready: " ++ st)%string)
    else
      '(res, err_str) <- invoke (Call_PR_Set DEV (1e-3 * distance_um)%float)
                                (PR_Set driver DEV (1e-3 * distance_um)%float) ;;
      if faulty res err_str then
        raise (ValueError ("Move went wrong: " ++ err_str)%string)
      else ret tt.

Definition move_absolute_async (new_pos : float) : M W unit :=
  if (MAX_RUN <? new_pos)%float then
    raise (CCMotorRangeExceededError new_pos MAX_RUN)
  else
    ready <- is_ready ;;
    if negb ready then
      st <- state ;;
      raise (CCMotorStateError ("Stage not ready. Current state is : " ++ st)%string)
    else
      '(res, err_str) <- invoke (Call_PA_Set DEV (1e-3 * new_pos)%float)
                                (PA_Set driver DEV (1e-3 * new_pos)%float) ;;
      if faulty res err_str then
        raise (ValueError ("Move went wrong: " ++ err_str)%string)
      else ret tt.

(** The polling loop that the three [*_sync] methods share:
<<
    done = False
    while not done:
        if time.time() - time_start > timeout:
            <on_timeout>
        sleep(self.MOVEMENT_SLEEP_TIME)
        done = <check>
>>
    [on_timeout] is the body of the [if], which in every method leaves the
    function (by [return] or [raise]); [fuel] bounds the iterations. *)
Fixpoint wait_loop (on_timeout : M W unit) (check : M W bool)
    (time_start timeout : Z) (fuel : nat) (done : bool) {struct fuel} : M W unit :=
  if done then ret tt
  else
    match fuel with
    | O => out_of_fuel
    | S fuel' =>
        now <- time_time ;;
        if (1000 * timeout <? now - time_start)%Z then on_timeout
        else
          sleep MOVEMENT_SLEEP_TIME ;;
          done' <- check ;;
          wait_loop on_timeout check time_start timeout fuel' done'
    end.

Fixpoint init_position_sync (fuel : nat) (timeout n_retry : Z) {struct fuel} : M W unit :=
  match fuel with
  | O => out_of_fuel
  | S fuel' =>
      init_position_async ;;
      time_start <- time_time ;;
      wait_loop
        (if (0 <? n_retry)%Z then init_position_sync fuel' timeout (n_retry - 1)
         else raise (CCMotorTimeoutError timeout))
        is_ready time_start timeout fuel' false
  end.

Definition move_relative_sync (fuel : nat) (distance_um : float) (timeout : Z) : M W unit :=
  move_relative_async distance_um ;;
  time_start <- time_time ;;
  wait_loop (raise (CCMotorTimeoutError timeout)) is_ready time_start timeout fuel false.

Fixpoint move_absolute_sync (fuel : nat) (new_pos : float) (timeout n_retry : Z)
    {struct fuel} : M W unit :=
  match fuel with
  | O => out_of_fuel
  | S fuel' =>
      move_absolute_async new_pos ;;
      time_start <- time_time ;;
      wait_loop
        (if (0 <? n_retry)%Z then
           set_enable ;;
           init_position_sync fuel' 30 3 ;;
           move_absolute_sync fuel' new_pos timeout (n_retry - 1)
         else raise (CCMotorTimeoutError timeout))
        (st <- state ;; ret (in_READY_STATES st)) time_start timeout fuel' false
  end.

Definition init_position_and_come_back (fuel : nat) : M W unit :=
  old_pos <- cur_pos ;;
  init_position_sync fuel 30 3 ;;
  move_absolute_sync fuel old_pos 30 3.

(** [__init__]: the debug log at its end evaluates [self.cur_pos_mm]. *)
Definition init (com_port : string) (velocity : float) : M W unit :=
  r <- invoke (Call_OpenInstrument com_port) (OpenInstrument driver com_port) ;;
  if negb (r =? 0)%Z then
    raise (CCMotorCommunicationError
             [Lit "Error opening instrument at port: "; FmtStr com_port])
  else
    velocity_setter velocity ;;
    set_homing_velocity velocity ;;
    clear_limits ;;
    get_limits ;;
    cur_pos_mm ;;
    ret tt.

End ConexCC.

(** ** Vocabulary of the statements *)

(** The same state with other cached limits. *)
Definition with_limits {W} (lo hi : option float) (s : St W) : St W :=
  mkSt (world s) (clock s) (trace s) lo hi.

(** [m] neither reads nor writes [self.min_limit] and [self.max_limit]:
    run from a state with other cached limits it gives the same outcome and
    the same final state, up to those limits. *)
Definition limits_blind {W A} (m : M W A) : Prop :=
  forall (s : St W) lo hi,
    m (with_limits lo hi s) =
    (fst (m s), with_limits lo hi (snd (m s))).

(** Whatever the state [m] is run from, the calls it makes are appended to
    the trace and each of them satisfies [P]. *)
Definition only_emits {W A} (P : call -> Prop) (m : M W A) : Prop :=
  forall s : St W, exists evs, trace (snd (m s)) = trace s ++ evs /\ Forall P evs.

(** The calls made between two states of one run. *)
Definition emitted {W} (s s' : St W) : list call :=
  skipn (List.length (trace s)) (trace s').

(** [needle in hay] on Python strings. *)
Fixpoint is_prefix (p s : string) : bool :=
  match p, s with
  | EmptyString, _ => true
  | String a p', String b s' => Ascii.eqb a b && is_prefix p' s'
  | String _ _, EmptyString => false
  end.

Fixpoint mentions (needle hay : string) : bool :=
  is_prefix needle hay ||
  match hay with
  | EmptyString => false
  | String _ hay' => mentions needle hay'
  end.

(** Number of polls of a waiting loop that never sees a ready state: the
    loop gives up at the first multiple of [MOVEMENT_SLEEP_TIME] beyond
    [timeout] seconds. *)
Definition polls (timeout : Z) : nat := Z.to_nat (20 * timeout + 1).

(** The calls of one homing attempt that times out. *)
Definition home_attempt (timeout : Z) : list call :=
  Call_OR DEV :: repeat (Call_TS DEV) (polls timeout).

Fixpoint home_trace (timeout : Z) (retries : nat) : list call :=
  match retries with
  | O => home_attempt timeout
  | S n => home_attempt timeout ++ home_trace timeout n
  end.

(** The calls of one absolute move that times out: the ready check, the
    move, the polls. *)
Definition move_attempt (new_pos : float) (timeout : Z) : list call :=
  [Call_TS DEV; Call_PA_Set DEV (1e-3 * new_pos)%float]
    ++ repeat (Call_TS DEV) (polls timeout).

(** The recovery of [move_absolute_sync] when the homing succeeds at its
    first poll: enable, home, one state query. *)
Definition recovery : list call :=
  [Call_MM_Set DEV 1; Call_OR DEV; Call_TS DEV].

Fixpoint absolute_trace (new_pos : float) (timeout : Z) (retries : nat) : list call :=
  match retries with
  | O => move_attempt new_pos timeout
  | S n => move_attempt new_pos timeout ++ recovery ++ absolute_trace new_pos timeout n
  end.

(** The state query, made in world [w], succeeds, reports the state code
    [st] and leaves the world [w']. *)
Definition reports {W} (driver : Driver W) (st : string) (w w' : W) : Prop :=
  exists res err, TS driver DEV w = ((res, err, st, ""), w').

(** In world [w] the controller would report a state outside
    [READY_STATES]. *)
Definition not_ready_at {W} (driver : Driver W) (w : W) : Prop :=
  exists st w', reports driver st w w' /\ in_READY_STATES st = false.

(** [Stalled] is a set of worlds that state queries do not leave and in
    which the controller reports, without fault, a state outside
    [READY_STATES]: from such a world the controller never reports ready
    unless a command takes it out. *)
Definition stalls {W} (driver : Driver W) (Stalled : W -> Prop) : Prop :=
  forall w, Stalled w ->
    exists st w', reports driver st w w' /\ in_READY_STATES st = false /\ Stalled w'.

(** In a stalled world the homing command is accepted and leaves the
    controller stalled: the homing never completes either. *)
Definition homing_stalls {W} (driver : Driver W) (Stalled : W -> Prop) : Prop :=
  forall w, Stalled w -> exists w', OR driver DEV w = ((0, ""), w') /\ Stalled w'.

(** A transport whose absolute moves to [pos_mm] never complete.  In an
    [Idle] world the controller reports a ready state and accepts the move,
    which leaves it [Stalled]; a stalled controller stays so under state
    queries and under the enable command, and the homing command brings it
    back to [Idle]. *)
Record never_arrives {W} (driver : Driver W) (Idle Stalled : W -> Prop)
    (pos_mm : float) : Prop := mk_never_arrives {
  idle_ready : forall w, Idle w ->
    exists st w', reports driver st w w' /\ in_READY_STATES st = true /\ Idle w';
  idle_move : forall w, Idle w ->
    exists w', PA_Set driver DEV pos_mm w = ((0, ""), w') /\ Stalled w';
  stalled_stalls : stalls driver Stalled;
  stalled_enable : forall w, Stalled w ->
    exists w', MM_Set driver DEV 1 w = ((0, ""), w') /\ Stalled w';
  stalled_home : forall w, Stalled w ->
    exists w', OR driver DEV w = ((0, ""), w') /\ Idle w'
}.

(** ** Transports used as concrete inputs *)

(** A controller frozen in state [st] at position [pos_mm]: it accepts every
    command and reports [st] to every state query. *)
Definition fixed_driver (st : string) (pos_mm : float) : Driver unit :=
  mkDriver unit
    (fun _ w => (0, w))
    (fun w => (0, w))
    (fun _ w => ((0, 0%float, ""), w))
    (fun _ w => ((0, 25%float, ""), w))
    (fun _ _ w => ((0, ""), w))
    (fun _ _ w => ((0, ""), w))
    (fun _ w => ((0, ""), w))
    (fun _ _ w => ((0, ""), w))
    (fun _ _ w => ((0, ""), w))
    (fun _ w => ((0, pos_mm, ""), w))
    (fun _ w => ((0, 0.4%float, ""), w))
    (fun _ _ w => ((0, ""), w))
    (fun _ w => ((0, "", st, ""), w)).

(** A controller whose moves never complete: the world is [true] once a move
    was accepted, and it then reports MOVING ("28") until it is homed;
    otherwise it reports READY from HOMING ("32"). *)
Definition stalling_driver : Driver bool :=
  mkDriver bool
    (fun _ w => (0, w))
    (fun w => (0, w))
    (fun _ w => ((0, 0%float, ""), w))
    (fun _ w => ((0, 25%float, ""), w))
    (fun _ _ w => ((0, ""), w))
    (fun _ _ w => ((0, ""), w))
    (fun _ _ => ((0, ""), false))
    (fun _ _ _ => ((0, ""), true))
    (fun _ _ _ => ((0, ""), true))
    (fun _ w => ((0, 1%float, ""), w))
    (fun _ w => ((0, 0.4%float, ""), w))
    (fun _ _ w => ((0, ""), w))
    (fun _ w => ((0, "", if w then "28" else "32", ""), w)).

(** A controller that is ready ("32") until it accepts a move and reports
    MOVING ("28") for ever after: homing does not bring it back. *)
Definition stuck_driver : Driver bool :=
  mkDriver bool
    (fun _ w => (0, w))
    (fun w => (0, w))
    (fun _ w => ((0, 0%float, ""), w))
    (fun _ w => ((0, 25%float, ""), w))
    (fun _ _ w => ((0, ""), w))
    (fun _ _ w => ((0, ""), w))
    (fun _ w => ((0, ""), w))
    (fun _ _ _ => ((0, ""), true))
    (fun _ _ _ => ((0, ""), true))
    (fun _ w => ((0, 1%float, ""), w))
    (fun _ w => ((0, 0.4%float, ""), w))
    (fun _ _ w => ((0, ""), w))
    (fun _ w => ((0, "", if w then "28" else "32", ""), w)).

(** A ready controller whose transport rejects both move commands with
    result code 1 and error string "boom", and answers state queries with
    result code -1 and an empty error string. *)
Definition rejecting_driver : Driver unit :=
  mkDriver unit
    (fun _ w => (0, w))
    (fun w => (0, w))
    (fun _ w => ((0, 0%float, ""), w))
    (fun _ w => ((0, 25%float, ""), w))
    (fun _ _ w => ((0, ""), w))
    (fun _ _ w => ((0, ""), w))
    (fun _ w => ((0, ""), w))
    (fun _ _ w => ((1, "boom"), w))
    (fun _ _ w => ((1, "boom"), w))
    (fun _ w => ((0, 1%float, ""), w))
    (fun _ w => ((0, 0.4%float, ""), w))
    (fun _ _ w => ((0, ""), w))
    (fun _ w => ((-1, "", "32", ""), w)).

Definition start {W} (w : W) : St W := mkSt w 0 [] None None.

(** ** Vocabulary of the further properties *)

(** Every exception that [m] raises satisfies [Q]. *)
Definition raises_only {W A} (Q : exn -> Prop) (m : M W A) : Prop :=
  forall (s : St W) e s', m s = (Raise e, s') -> Q e.

(** Whatever the state [m] is run from, the calls it makes are appended to
    the trace and at most [n] of them satisfy [p]. *)
Definition emits_at_most {W A} (p : call -> bool) (n : nat) (m : M W A) : Prop :=
  forall s : St W,
    exists evs, trace (snd (m s)) = trace s ++ evs /\ (count p evs <= n)%nat.

(** [m] lets the clock advance by at most [d] milliseconds. *)
Definition sleeps_at_most {W A} (d : Z) (m : M W A) : Prop :=
  forall s : St W, clock s <= clock (snd (m s)) <= clock s + d.

(** The longest wait of one polling loop: nothing when the timeout is
    negative, else the timeout and one more sleep. *)
Definition wait_bound (timeout : Z) : Z := Z.max 0 (1000 * timeout + MOVEMENT_SLEEP_TIME).

(** [self.possible_states[st]], [None] for a missing key. *)
Fixpoint assoc (k : string) (d : list (string * string)) : option string :=
  match d with
  | [] => None
  | (k', v) :: d' => if String.eqb k k' then Some v else assoc k d'
  end.

(** [Busy k] is a set of worlds in which the controller answers [k] more
    state queries, without fault, with a state outside [READY_STATES]. *)
Definition counts_down {W} (driver : Driver W) (Busy : nat -> W -> Prop) : Prop :=
  forall k w, Busy (S k) w ->
    exists st w', reports driver st w w' /\ in_READY_STATES st = false /\ Busy k w'.

(** Once the count is over the controller reports a ready state, and goes
    on doing so. *)
Definition then_ready {W} (driver : Driver W) (Busy : nat -> W -> Prop) : Prop :=
  forall w, Busy 0%nat w ->
    exists st w', reports driver st w w' /\ in_READY_STATES st = true /\ Busy 0%nat w'.

(** Once the count is over the state query faults: its error string is not
    empty. *)
Definition then_faults {W} (driver : Driver W) (Busy : nat -> W -> Prop)
    (err_str : string) : Prop :=
  err_str <> "" /\
  forall w, Busy 0%nat w ->
    exists res err st w', TS driver DEV w = ((res, err, st, err_str), w').

(** The calls of a wait that ends after [k] busy polls and one more. *)
Definition settle_trace (k : nat) : list call := repeat (Call_TS DEV) (S k).

(** [speed] as the two velocity setters transmit it. *)
Definition clamped (speed : float) : float :=
  if (MAX_VELOCITY <? speed)%float then MAX_VELOCITY else speed.

(** The calls of a completed construction, in order. *)
Definition init_calls (com_port : string) (velocity : float) : list call :=
  [Call_OpenInstrument com_port;
   Call_VA_Set DEV (clamped velocity);
   Call_OH_Set DEV (clamped velocity);
   Call_SL_Get DEV; Call_SR_Get DEV; Call_TP DEV].

(** The exceptions of an asynchronous move: the three classes of the
    module that its checks and queries raise, and the builtin [ValueError]
    of a rejected move command. *)
Definition move_error (e : exn) : Prop :=
  is_CommunicationError e = true \/ is_StateError e = true \/
  is_RangeExceededError e = true \/
  exists err_str, e = ValueError ("Move went wrong: " ++ err_str)%string.

Definition communication_error (e : exn) : Prop := is_CommunicationError e = true.

(** 1 when the call [c] satisfies [p], else 0. *)
Definition weight (p : call -> bool) (c : call) : nat := if p c then 1%nat else 0%nat.

(** The calls of a homing: the homing command and state queries. *)
Definition homing_call (c : call) : Prop := c = Call_OR DEV \/ c = Call_TS DEV.

(** The calls of a relative move by [distance_um]: the position query,
    state queries and that move. *)
Definition relative_move_call (distance_um : float) (c : call) : Prop :=
  c = Call_TP DEV \/ c = Call_TS DEV \/ c = Call_PR_Set DEV (1e-3 * distance_um)%float.

(** ** Further transports used as concrete inputs *)

(** A controller that answers [k] state queries with MOVING ("28") after a
    homing or a move, and READY from HOMING ("32") from then on; the world
    is the number of busy answers left. *)
Definition slow_driver (k : nat) (pos_mm : float) : Driver nat :=
  mkDriver nat
    (fun _ w => (0, w))
    (fun w => (0, w))
    (fun _ w => ((0, 0%float, ""), w))
    (fun _ w => ((0, 25%float, ""), w))
    (fun _ _ w => ((0, ""), w))
    (fun _ _ w => ((0, ""), w))
    (fun _ _ => ((0, ""), k))
    (fun _ _ _ => ((0, ""), k))
    (fun _ _ _ => ((0, ""), k))
    (fun _ w => ((0, pos_mm, ""), w))
    (fun _ w => ((0, 0.4%float, ""), w))
    (fun _ _ w => ((0, ""), w))
    (fun _ w => match w with
                | O => ((0, "", "32", ""), O)
                | S n => ((0, "", "28", ""), n)
                end).

(** A controller that accepts every command and answers the opening, the
    two limit queries, the position query and the state query as given. *)
Definition scripted_driver (open_res : Z) (sl sr tp : Z * float * string)
    (ts : Z * string * string * string) : Driver unit :=
  mkDriver unit
    (fun _ w => (open_res, w))
    (fun w => (0, w))
    (fun _ w => (sl, w))
    (fun _ w => (sr, w))
    (fun _ _ w => ((0, ""), w))
    (fun _ _ w => ((0, ""), w))
    (fun _ w => ((0, ""), w))
    (fun _ _ w => ((0, ""), w))
    (fun _ _ w => ((0, ""), w))
    (fun _ w => (tp, w))
    (fun _ w => ((0, 0.4%float, ""), w))
    (fun _ _ w => ((0, ""), w))
    (fun _ w => (ts, w)).

(** ** Range errors, and a transport whose answers change *)

(** A range error, if [e] is one, is the one of the upper bound: it carries
    [target] and [MAX_RUN], and [target] exceeds [MAX_RUN]. *)
Definition range_error_of (target : float) (e : exn) : Prop :=
  forall pos max_pos,
    e = CCMotorRangeExceededError pos max_pos ->
    pos = target /\ max_pos = MAX_RUN /\ (MAX_RUN <? target)%float = true.

(** A range error, if [e] is one, carries [MAX_RUN] and a position that
    exceeds it. *)
Definition range_error_above_MAX_RUN (e : exn) : Prop :=
  forall pos max_pos,
    e = CCMotorRangeExceededError pos max_pos ->
    max_pos = MAX_RUN /\ (MAX_RUN <? pos)%float = true.

(** A controller at [pos_mm] that accepts every command and answers the
    first state query with [first] and every later one with [later]; the
    world tells whether the first query was made. *)
Definition two_answer_driver (first later : Z * string * string * string)
    (pos_mm : float) : Driver bool :=
  mkDriver bool
    (fun _ w => (0, w))
    (fun w => (0, w))
    (fun _ w => ((0, 0%float, ""), w))
    (fun _ w => ((0, 25%float, ""), w))
    (fun _ _ w => ((0, ""), w))
    (fun _ _ w => ((0, ""), w))
    (fun _ w => ((0, ""), w))
    (fun _ _ w => ((0, ""), w))
    (fun _ _ w => ((0, ""), w))
    (fun _ w => ((0, pos_mm, ""), w))
    (fun _ w => ((0, 0.4%float, ""), w))
    (fun _ _ w => ((0, ""), w))
    (fun _ w => (if w then later else first, true)).

(** * Proofs *)

(** ** The monad and the primitive effects *)

Lemma bind_Return {W A B} (m : M W A) (f : A -> M W B) s a s' :
  m s = (Return a, s') -> bind m f s = f a s'.
Proof. intros H. unfold bind. now rewrite H. Qed.

Lemma bind_Raise {W A B} (m : M W A) (f : A -> M W B) s e s' :
  m s = (Raise e, s') -> bind m f s = (Raise e, s').
Proof. intros H. unfold bind. now rewrite H. Qed.

Lemma invoke_eq {W A} (c : call) (f : W -> A * W) s a w' :
  f (world s) = (a, w') -> invoke c f s = (Return a, logged c w' s).
Proof. intros H. unfold invoke. now rewrite H. Qed.

Lemma faulty_ok : faulty 0 "" = false.
Proof. reflexivity. Qed.

Lemma emitted_app {W} (s s' : St W) evs :
  trace s' = trace s ++ evs -> emitted s s' = evs.
Proof.
  intros H. unfold emitted. rewrite H, skipn_app, skipn_all, Nat.sub_diag.
  reflexivity.
Qed.

Lemma emitted_refl {W} (s : St W) : emitted s s = [].
Proof. apply emitted_app. now rewrite app_nil_r. Qed.

(** ** Strings *)

Lemma is_prefix_refl s : is_prefix s s = true.
Proof. induction s as [|a s IH]; simpl; [reflexivity|]. now rewrite Ascii.eqb_refl. Qed.

Lemma mentions_refl s : mentions s s = true.
Proof. destruct s; simpl; [reflexivity|]. now rewrite Ascii.eqb_refl, is_prefix_refl. Qed.

Lemma mentions_append p s : mentions s (p ++ s)%string = true.
Proof.
  induction p as [|a p IH]; simpl.
  - apply mentions_refl.
  - rewrite IH. apply orb_true_r.
Qed.

(** ** Floats: [x <= y] excludes [y < x] *)

Lemma SFcompare_swap a b :
  SFcompare b a = option_map CompOpp (SFcompare a b).
Proof.
  destruct a as [sa|sa| |sa ma ea], b as [sb|sb| |sb mb eb]; simpl;
    try reflexivity; try (destruct sa; reflexivity); try (destruct sb; reflexivity);
    try (destruct sa, sb; reflexivity).
  destruct sa, sb; simpl; try reflexivity;
    rewrite (Z.compare_antisym ea eb);
    destruct (ea ?= eb)%Z; simpl; try reflexivity;
    change PosDef.Pos.compare_cont with Pos.compare_cont;
    rewrite (ZC4 ma mb), ?CompOpp_involutive; reflexivity.
Qed.

Lemma leb_not_ltb (x y : float) : (x <=? y)%float = true -> (y <? x)%float = false.
Proof.
  rewrite leb_spec, ltb_spec. unfold SFleb, SFltb.
  rewrite (SFcompare_swap (Prim2SF x) (Prim2SF y)).
  destruct (SFcompare (Prim2SF x) (Prim2SF y)) as [[ | | ]|]; simpl; congruence.
Qed.

(** ** The queries *)

Section Queries.

Context {W : Type}.
Variable driver : Driver W.

(** The equations of the loops. *)
Lemma wait_loop_done (on_timeout : M W unit) check time_start timeout fuel :
  wait_loop on_timeout check time_start timeout fuel true = ret tt.
Proof. destruct fuel; reflexivity. Qed.

Lemma wait_loop_O (on_timeout : M W unit) check time_start timeout :
  wait_loop on_timeout check time_start timeout O false = out_of_fuel.
Proof. reflexivity. Qed.

Lemma wait_loop_S (on_timeout : M W unit) check time_start timeout fuel :
  wait_loop on_timeout check time_start timeout (S fuel) false =
  (now <- time_time ;;
   if (1000 * timeout <? now - time_start)%Z then on_timeout
   else
     sleep MOVEMENT_SLEEP_TIME ;;
     done' <- check ;;
     wait_loop on_timeout check time_start timeout fuel done').
Proof. reflexivity. Qed.

Lemma init_position_sync_S fuel timeout n_retry :
  init_position_sync driver (S fuel) timeout n_retry =
  (init_position_async driver ;;
   time_start <- time_time ;;
   wait_loop
     (if (0 <? n_retry)%Z then init_position_sync driver fuel timeout (n_retry - 1)
      else raise (CCMotorTimeoutError timeout))
     (is_ready driver) time_start timeout fuel false).
Proof. reflexivity. Qed.

Lemma move_absolute_sync_S fuel new_pos timeout n_retry :
  move_absolute_sync driver (S fuel) new_pos timeout n_retry =
  (move_absolute_async driver new_pos ;;
   time_start <- time_time ;;
   wait_loop
     (if (0 <? n_retry)%Z then
        set_enable driver ;;
        init_position_sync driver fuel 30 3 ;;
        move_absolute_sync driver fuel new_pos timeout (n_retry - 1)
      else raise (CCMotorTimeoutError timeout))
     (st <- state driver ;; ret (in_READY_STATES st)) time_start timeout fuel false).
Proof. reflexivity. Qed.

Lemma get_state_ok (s : St W) st w' :
  reports driver st (world s) w' ->
  exists err, get_state driver s = (Return (mkStateError st err), logged (Call_TS DEV) w' s).
Proof.
  intros (res & err & H). exists err.
  unfold get_state. rewrite (bind_Return _ _ _ _ _ (invoke_eq _ _ _ _ _ H)).
  reflexivity.
Qed.

Lemma state_ok (s : St W) st w' :
  reports driver st (world s) w' ->
  state driver s = (Return st, logged (Call_TS DEV) w' s).
Proof.
  intros H. destruct (get_state_ok s st w' H) as (err & E).
  unfold state. now rewrite (bind_Return _ _ _ _ _ E).
Qed.

Lemma is_ready_ok (s : St W) st w' :
  reports driver st (world s) w' ->
  is_ready driver s = (Return (in_READY_STATES st), logged (Call_TS DEV) w' s).
Proof.
  intros H. unfold is_ready. now rewrite (bind_Return _ _ _ _ _ (state_ok s st w' H)).
Qed.

Lemma cur_pos_mm_ok (s : St W) resp w' :
  TP driver DEV (world s) = ((0, resp, ""), w') ->
  cur_pos_mm driver s = (Return resp, logged (Call_TP DEV) w' s).
Proof.
  intros H. unfold cur_pos_mm.
  now rewrite (bind_Return _ _ _ _ _ (invoke_eq _ _ _ _ _ H)).
Qed.

Lemma cur_pos_ok (s : St W) resp w' :
  TP driver DEV (world s) = ((0, resp, ""), w') ->
  cur_pos driver s = (Return (resp * 1e3)%float, logged (Call_TP DEV) w' s).
Proof.
  intros H. unfold cur_pos. now rewrite (bind_Return _ _ _ _ _ (cur_pos_mm_ok s resp w' H)).
Qed.

Lemma set_state_ok (s : St W) state w' :
  MM_Set driver DEV state (world s) = ((0, ""), w') ->
  set_state driver state s = (Return tt, logged (Call_MM_Set DEV state) w' s).
Proof.
  intros H. unfold set_state.
  now rewrite (bind_Return _ _ _ _ _ (invoke_eq _ _ _ _ _ H)).
Qed.

Lemma init_position_async_ok (s : St W) w' :
  OR driver DEV (world s) = ((0, ""), w') ->
  init_position_async driver s = (Return tt, logged (Call_OR DEV) w' s).
Proof.
  intros H. unfold init_position_async.
  now rewrite (bind_Return _ _ _ _ _ (invoke_eq _ _ _ _ _ H)).
Qed.

(** The absolute move, once its two checks pass. *)
Lemma move_absolute_async_issued (s : St W) new_pos st w1 res err_str w2 :
  (MAX_RUN <? new_pos)%float = false ->
  reports driver st (world s) w1 ->
  in_READY_STATES st = true ->
  PA_Set driver DEV (1e-3 * new_pos)%float w1 = ((res, err_str), w2) ->
  move_absolute_async driver new_pos s =
  ((if faulty res err_str then Raise (ValueError ("Move went wrong: " ++ err_str)%string)
    else Return tt),
   logged (Call_PA_Set DEV (1e-3 * new_pos)%float) w2 (logged (Call_TS DEV) w1 s)).
Proof.
  intros Hrange Hts Hready Hpa. unfold move_absolute_async. rewrite Hrange.
  rewrite (bind_Return _ _ _ _ _ (is_ready_ok s st w1 Hts)), Hready. cbn [negb].
  erewrite bind_Return by (apply invoke_eq; exact Hpa).
  cbv beta iota. destruct (faulty res err_str); reflexivity.
Qed.

(** The relative move, once its position query and its two checks pass. *)
Lemma move_relative_async_issued (s : St W) distance_um resp w0 st w1 res err_str w2 :
  TP driver DEV (world s) = ((0, resp, ""), w0) ->
  (MAX_RUN <? resp * 1e3 + distance_um)%float = false ->
  reports driver st w0 w1 ->
  in_READY_STATES st = true ->
  PR_Set driver DEV (1e-3 * distance_um)%float w1 = ((res, err_str), w2) ->
  move_relative_async driver distance_um s =
  ((if faulty res err_str then Raise (ValueError ("Move went wrong: " ++ err_str)%string)
    else Return tt),
   logged (Call_PR_Set DEV (1e-3 * distance_um)%float) w2
     (logged (Call_TS DEV) w1 (logged (Call_TP DEV) w0 s))).
Proof.
  intros Htp Hrange Hts Hready Hpr. unfold move_relative_async.
  rewrite (bind_Return _ _ _ _ _ (cur_pos_ok s resp w0 Htp)), Hrange.
  rewrite (bind_Return _ _ _ _ _ (is_ready_ok (logged (Call_TP DEV) w0 s) st w1 Hts)), Hready. cbn [negb].
  erewrite bind_Return by (apply invoke_eq; exact Hpr).
  cbv beta iota. destruct (faulty res err_str); reflexivity.
Qed.

(** Both moves, when the state check fails: the state is queried a second
    time for the message. *)
Lemma move_absolute_async_not_ready (s : St W) new_pos st w1 st' w2 :
  (MAX_RUN <? new_pos)%float = false ->
  reports driver st (world s) w1 ->
  in_READY_STATES st = false ->
  reports driver st' w1 w2 ->
  move_absolute_async driver new_pos s =
  (Raise (CCMotorStateError ("Stage not ready. Current state is : " ++ st')%string),
   logged (Call_TS DEV) w2 (logged (Call_TS DEV) w1 s)).
Proof.
  intros Hrange Hts Hready Hts'. unfold move_absolute_async. rewrite Hrange.
  rewrite (bind_Return _ _ _ _ _ (is_ready_ok s st w1 Hts)), Hready. cbn [negb].
  now rewrite (bind_Return _ _ _ _ _ (state_ok (logged (Call_TS DEV) w1 s) st' w2 Hts')).
Qed.

Lemma move_relative_async_not_ready (s : St W) distance_um resp w0 st w1 st' w2 :
  TP driver DEV (world s) = ((0, resp, ""), w0) ->
  (MAX_RUN <? resp * 1e3 + distance_um)%float = false ->
  reports driver st w0 w1 ->
  in_READY_STATES st = false ->
  reports driver st' w1 w2 ->
  move_relative_async driver distance_um s =
  (Raise (CCMotorStateError ("Stage not ready: " ++ st')%string),
   logged (Call_TS DEV) w2 (logged (Call_TS DEV) w1 (logged (Call_TP DEV) w0 s))).
Proof.
  intros Htp Hrange Hts Hready Hts'. unfold move_relative_async.
  rewrite (bind_Return _ _ _ _ _ (cur_pos_ok s resp w0 Htp)), Hrange.
  rewrite (bind_Return _ _ _ _ _ (is_ready_ok (logged (Call_TP DEV) w0 s) st w1 Hts)), Hready. cbn [negb].
  now rewrite (bind_Return _ _ _ _ _
                 (state_ok (logged (Call_TS DEV) w1 (logged (Call_TP DEV) w0 s)) st' w2 Hts')).
Qed.

(** Both moves, when the range check fails. *)
Lemma move_absolute_async_out_of_range (s : St W) new_pos :
  (MAX_RUN <? new_pos)%float = true ->
  move_absolute_async driver new_pos s =
  (Raise (CCMotorRangeExceededError new_pos MAX_RUN), s).
Proof. intros H. unfold move_absolute_async. now rewrite H. Qed.

Lemma move_relative_async_out_of_range (s : St W) distance_um resp w0 :
  TP driver DEV (world s) = ((0, resp, ""), w0) ->
  (MAX_RUN <? resp * 1e3 + distance_um)%float = true ->
  move_relative_async driver distance_um s =
  (Raise (CCMotorRangeExceededError (resp * 1e3 + distance_um)%float MAX_RUN),
   logged (Call_TP DEV) w0 s).
Proof.
  intros Htp H. unfold move_relative_async.
  now rewrite (bind_Return _ _ _ _ _ (cur_pos_ok s resp w0 Htp)), H.
Qed.

(** An exception of the asynchronous move leaves the synchronous one. *)
Lemma move_absolute_sync_raises (s s' : St W) new_pos e fuel timeout n_retry :
  move_absolute_async driver new_pos s = (Raise e, s') ->
  move_absolute_sync driver (S fuel) new_pos timeout n_retry s = (Raise e, s').
Proof. intros H. rewrite move_absolute_sync_S. now rewrite (bind_Raise _ _ _ _ _ H). Qed.

Lemma move_relative_sync_raises (s s' : St W) distance_um e fuel timeout :
  move_relative_async driver distance_um s = (Raise e, s') ->
  move_relative_sync driver fuel distance_um timeout s = (Raise e, s').
Proof. intros H. unfold move_relative_sync. now rewrite (bind_Raise _ _ _ _ _ H). Qed.

End Queries.

(** ** Range check *)

(** C1.  A target beyond [MAX_RUN] makes [move_absolute_async], and with it
    [move_absolute_sync], raise [CCMotorRangeExceededError] carrying the
    target and [MAX_RUN], in the state in which it was called: no call at all
    reached the transport.  A relative move whose position query answered
    [cur_mm] millimeters, with [cur_mm * 1e3 + delta] beyond [MAX_RUN],
    raises the error carrying that sum and [MAX_RUN]; the position query is
    the only call made, so no move command is issued. *)
Theorem range_exceeded_before_any_write :
  forall {W} (driver : Driver W) (s : St W),
    (forall new_pos,
        (MAX_RUN <? new_pos)%float = true ->
        move_absolute_async driver new_pos s =
          (Raise (CCMotorRangeExceededError new_pos MAX_RUN), s) /\
        (forall fuel timeout n_retry,
            move_absolute_sync driver (S fuel) new_pos timeout n_retry s =
              (Raise (CCMotorRangeExceededError new_pos MAX_RUN), s)) /\
        emitted s s = [])
    /\
    (forall cur_mm w0 delta,
        TP driver DEV (world s) = ((0, cur_mm, ""), w0) ->
        (MAX_RUN <? cur_mm * 1e3 + delta)%float = true ->
        move_relative_async driver delta s =
          (Raise (CCMotorRangeExceededError (cur_mm * 1e3 + delta)%float MAX_RUN),
           logged (Call_TP DEV) w0 s) /\
        (forall fuel timeout,
            move_relative_sync driver fuel delta timeout s =
              (Raise (CCMotorRangeExceededError (cur_mm * 1e3 + delta)%float MAX_RUN),
               logged (Call_TP DEV) w0 s)) /\
        emitted s (logged (Call_TP DEV) w0 s) = [Call_TP DEV]).
Proof.
  intros W driver s. split.
  - intros new_pos H.
    pose proof (move_absolute_async_out_of_range driver s new_pos H) as E.
    repeat split.
    + exact E.
    + intros. now apply move_absolute_sync_raises.
    + apply emitted_refl.
  - intros cur_mm w0 delta Htp H.
    pose proof (move_relative_async_out_of_range driver s delta cur_mm w0 Htp H) as E.
    repeat split.
    + exact E.
    + intros. now apply move_relative_sync_raises.
    + now apply emitted_app.
Qed.

(** The scenario of the specification: position 1 mm (1000 um), a relative
    move by 40000 um. *)
Lemma range_exceeded_witness :
  move_relative_async (fixed_driver "32" 1) 40000 (start tt) =
    (Raise (CCMotorRangeExceededError 41000 37000), logged (Call_TP DEV) tt (start tt))
  /\ move_absolute_async (fixed_driver "32" 1) 40000 (start tt) =
    (Raise (CCMotorRangeExceededError 40000 37000), start tt).
Proof.
  destruct (range_exceeded_before_any_write (fixed_driver "32" 1) (start tt)) as [Ha Hr].
  split.
  - exact (proj1 (Hr 1%float tt 40000%float eq_refl eq_refl)).
  - exact (proj1 (Ha 40000%float eq_refl)).
Defined.

(** C9.  The range check comes first: with a target beyond [MAX_RUN] and a
    controller that would report a state outside [READY_STATES], both moves
    raise [CCMotorRangeExceededError], which is not a [CCMotorStateError],
    and the state is not even queried. *)
Theorem range_check_precedes_state_check :
  forall {W} (driver : Driver W) (s : St W),
    (forall new_pos,
        not_ready_at driver (world s) ->
        (MAX_RUN <? new_pos)%float = true ->
        exists e,
          move_absolute_async driver new_pos s = (Raise e, s) /\
          e = CCMotorRangeExceededError new_pos MAX_RUN /\
          is_StateError e = false /\
          count (fun c => match c with Call_TS _ => true | _ => false end)
                (emitted s s) = 0%nat)
    /\
    (forall cur_mm w0 delta,
        TP driver DEV (world s) = ((0, cur_mm, ""), w0) ->
        not_ready_at driver w0 ->
        (MAX_RUN <? cur_mm * 1e3 + delta)%float = true ->
        exists e,
          move_relative_async driver delta s = (Raise e, logged (Call_TP DEV) w0 s) /\
          e = CCMotorRangeExceededError (cur_mm * 1e3 + delta)%float MAX_RUN /\
          is_StateError e = false /\
          count (fun c => match c with Call_TS _ => true | _ => false end)
                (emitted s (logged (Call_TP DEV) w0 s)) = 0%nat).
Proof.
  intros W driver s. split.
  - intros new_pos _ H. eexists. split; [|split; [reflexivity|split; [reflexivity|]]].
    + now apply move_absolute_async_out_of_range.
    + now rewrite emitted_refl.
  - intros cur_mm w0 delta Htp _ H.
    eexists. split; [|split; [reflexivity|split; [reflexivity|]]].
    + now apply move_relative_async_out_of_range.
    + rewrite (emitted_app s _ [Call_TP DEV]); reflexivity.
Qed.

Lemma range_check_precedes_state_check_witness :
  move_absolute_async (fixed_driver "28" 1) 40000 (start tt) =
    (Raise (CCMotorRangeExceededError 40000 37000), start tt)
  /\ move_relative_async (fixed_driver "28" 1) 40000 (start tt) =
    (Raise (CCMotorRangeExceededError 41000 37000), logged (Call_TP DEV) tt (start tt)).
Proof.
  assert (N : not_ready_at (fixed_driver "28" 1) tt).
  { exists "28", tt. split; [exists 0, ""; reflexivity | reflexivity]. }
  destruct (range_check_precedes_state_check (fixed_driver "28" 1) (start tt)) as [Ha Hr].
  split.
  - destruct (Ha 40000%float N eq_refl) as (e & E & -> & _). exact E.
  - destruct (Hr 1%float tt 40000%float eq_refl N eq_refl) as (e & E & -> & _). exact E.
Defined.

(** ** Velocity *)

Lemma MAX_VELOCITY_not_above : (MAX_VELOCITY <? MAX_VELOCITY)%float = false.
Proof. reflexivity. Qed.

(** C4.  A velocity above [MAX_VELOCITY] is clamped, never rejected: the
    setter and [set_homing_velocity] behave exactly as when called with
    [MAX_VELOCITY]; the one call they make transmits [MAX_VELOCITY]; the
    controller ends in the world that writing [MAX_VELOCITY] produces; they
    return normally whenever the transport accepts that write, and the only
    exception they can raise is the transport's [CCMotorCommunicationError]. *)
Theorem velocity_clamped_to_MAX_VELOCITY :
  forall {W} (driver : Driver W) (s : St W) (v : float),
    (MAX_VELOCITY <? v)%float = true ->
    (velocity_setter driver v s = velocity_setter driver MAX_VELOCITY s /\
     emitted s (snd (velocity_setter driver v s)) = [Call_VA_Set DEV MAX_VELOCITY] /\
     world (snd (velocity_setter driver v s)) = snd (VA_Set driver DEV MAX_VELOCITY (world s)) /\
     (fst (VA_Set driver DEV MAX_VELOCITY (world s)) = (0, "") ->
      fst (velocity_setter driver v s) = Return tt) /\
     (forall e, fst (velocity_setter driver v s) = Raise e -> is_CommunicationError e = true))
    /\
    (set_homing_velocity driver v s = set_homing_velocity driver MAX_VELOCITY s /\
     emitted s (snd (set_homing_velocity driver v s)) = [Call_OH_Set DEV MAX_VELOCITY] /\
     world (snd (set_homing_velocity driver v s)) = snd (OH_Set driver DEV MAX_VELOCITY (world s)) /\
     (fst (OH_Set driver DEV MAX_VELOCITY (world s)) = (0, "") ->
      fst (set_homing_velocity driver v s) = Return tt) /\
     (forall e, fst (set_homing_velocity driver v s) = Raise e -> is_CommunicationError e = true)).
Proof.
  intros W driver s v H. split.
  - unfold velocity_setter. rewrite H, MAX_VELOCITY_not_above.
    unfold bind, invoke.
    destruct (VA_Set driver DEV MAX_VELOCITY (world s)) as [[res err_str] w'] eqn:E.
    cbn [fst snd].
    repeat split.
    + destruct (faulty res err_str); cbn [snd]; now apply emitted_app.
    + destruct (faulty res err_str); reflexivity.
    + intros Hok. injection Hok as -> ->. reflexivity.
    + intros e. destruct (faulty res err_str); cbn; intros He; [|discriminate].
      now injection He as <-.
  - unfold set_homing_velocity. rewrite H, MAX_VELOCITY_not_above.
    unfold bind, invoke.
    destruct (OH_Set driver DEV MAX_VELOCITY (world s)) as [[res err_str] w'] eqn:E.
    cbn [fst snd].
    repeat split.
    + destruct (faulty res err_str); cbn [snd]; now apply emitted_app.
    + destruct (faulty res err_str); reflexivity.
    + intros Hok. injection Hok as -> ->. reflexivity.
    + intros e. destruct (faulty res err_str); cbn; intros He; [|discriminate].
      now injection He as <-.
Qed.

(** The scenario of the specification: 0.9 requested, 0.4 transmitted. *)
Lemma velocity_clamped_witness :
  emitted (start tt) (snd (velocity_setter (fixed_driver "32" 1) 0.9 (start tt))) =
    [Call_VA_Set DEV 0.4]
  /\ emitted (start tt) (snd (set_homing_velocity (fixed_driver "32" 1) 0.9 (start tt))) =
    [Call_OH_Set DEV 0.4].
Proof.
  destruct (velocity_clamped_to_MAX_VELOCITY (fixed_driver "32" 1) (start tt) 0.9%float eq_refl)
    as [(_ & Hv & _) (_ & Hh & _)].
  split; [exact Hv | exact Hh].
Defined.

(** ** What a method may send *)

Section Emits.

Context {W : Type}.
Variable P : call -> Prop.

Lemma only_emits_ret {A} (a : A) : only_emits P (@ret W A a).
Proof. intros s. exists []. split; [symmetry; apply app_nil_r | constructor]. Qed.

Lemma only_emits_raise {A} e : only_emits P (@raise W A e).
Proof. intros s. exists []. split; [symmetry; apply app_nil_r | constructor]. Qed.

Lemma only_emits_out_of_fuel {A} : only_emits P (@out_of_fuel W A).
Proof. intros s. exists []. split; [symmetry; apply app_nil_r | constructor]. Qed.

Lemma only_emits_time_time : only_emits P (@time_time W).
Proof. intros s. exists []. split; [symmetry; apply app_nil_r | constructor]. Qed.

Lemma only_emits_sleep d : only_emits P (@sleep W d).
Proof. intros s. exists []. split; [symmetry; apply app_nil_r | constructor]. Qed.

Lemma only_emits_invoke {A} c (f : W -> A * W) : P c -> only_emits P (invoke c f).
Proof.
  intros Hc s. exists [c]. unfold invoke. destruct (f (world s)) as [a w'].
  split; [reflexivity | now constructor].
Qed.

Lemma only_emits_bind {A B} (m : M W A) (f : A -> M W B) :
  only_emits P m -> (forall a, only_emits P (f a)) -> only_emits P (bind m f).
Proof.
  intros Hm Hf s. destruct (Hm s) as (evs & E & F). unfold bind.
  destruct (m s) as [[a|e|] s1]; cbn [snd] in *.
  - destruct (Hf a s1) as (evs' & E' & F').
    exists (evs ++ evs'). split.
    + now rewrite E', E, app_assoc.
    + apply Forall_app. now split.
  - now exists evs.
  - now exists evs.
Qed.

End Emits.

Ltac emits :=
  repeat first
    [ apply only_emits_ret
    | apply only_emits_raise
    | apply only_emits_out_of_fuel
    | apply only_emits_time_time
    | apply only_emits_sleep
    | apply only_emits_invoke; try (intros; discriminate); try reflexivity
    | apply only_emits_bind; [|intros]
    | match goal with
      | |- only_emits _ (let (_, _) := ?x in _) => destruct x
      | |- only_emits _ (if ?b then _ else _) => destruct b
      end ].

Section EmitsMethods.

Context {W : Type}.
Variable driver : Driver W.
Variable P : call -> Prop.

(** The queries and the commands that are no move satisfy any [P] that
    holds of every call but the two moves. *)
Hypothesis P_other : forall c, is_move c = false -> P c.

Lemma only_emits_get_state : only_emits P (get_state driver).
Proof. unfold get_state. emits. now apply P_other. Qed.

Lemma only_emits_state : only_emits P (state driver).
Proof. unfold state. apply only_emits_bind; [apply only_emits_get_state | intros; emits]. Qed.

Lemma only_emits_is_ready : only_emits P (is_ready driver).
Proof. unfold is_ready. apply only_emits_bind; [apply only_emits_state | intros; emits]. Qed.

Lemma only_emits_cur_pos : only_emits P (cur_pos driver).
Proof. unfold cur_pos, cur_pos_mm. emits. now apply P_other. Qed.

Lemma only_emits_set_state st : only_emits P (set_state driver st).
Proof. unfold set_state. emits. now apply P_other. Qed.

Lemma only_emits_init_position_async : only_emits P (init_position_async driver).
Proof. unfold init_position_async. emits. now apply P_other. Qed.

Lemma only_emits_wait_loop (on_timeout : M W unit) (check : M W bool)
    time_start timeout fuel :
  only_emits P on_timeout -> only_emits P check ->
  forall done, only_emits P (wait_loop on_timeout check time_start timeout fuel done).
Proof.
  intros Ht Hc. induction fuel as [|fuel IH]; intros done.
  - destruct done; [rewrite wait_loop_done | rewrite wait_loop_O]; emits.
  - destruct done; [rewrite wait_loop_done; emits | rewrite wait_loop_S].
    apply only_emits_bind; [emits|intros now].
    destruct (1000 * timeout <? now - time_start)%Z; [exact Ht|].
    apply only_emits_bind; [emits|intros _].
    apply only_emits_bind; [exact Hc|intros done']. apply IH.
Qed.

Lemma only_emits_init_position_sync fuel :
  forall timeout n_retry, only_emits P (init_position_sync driver fuel timeout n_retry).
Proof.
  induction fuel as [|fuel IH]; intros timeout n_retry;
    [simpl; emits | rewrite init_position_sync_S].
  apply only_emits_bind; [apply only_emits_init_position_async|intros _].
  apply only_emits_bind; [emits|intros time_start].
  apply only_emits_wait_loop; [|apply only_emits_is_ready].
  destruct (0 <? n_retry)%Z; [apply IH | emits].
Qed.

Lemma only_emits_move_relative_async d :
  P (Call_PR_Set DEV (1e-3 * d)%float) -> only_emits P (move_relative_async driver d).
Proof.
  intros Hp. unfold move_relative_async.
  apply only_emits_bind; [apply only_emits_cur_pos|intros cur].
  destruct (MAX_RUN <? cur + d)%float; [emits|].
  apply only_emits_bind; [apply only_emits_is_ready|intros ready].
  destruct (negb ready).
  - apply only_emits_bind; [apply only_emits_state|intros; emits].
  - emits. exact Hp.
Qed.

Lemma only_emits_move_absolute_async x :
  P (Call_PA_Set DEV (1e-3 * x)%float) -> only_emits P (move_absolute_async driver x).
Proof.
  intros Hp. unfold move_absolute_async.
  destruct (MAX_RUN <? x)%float; [emits|].
  apply only_emits_bind; [apply only_emits_is_ready|intros ready].
  destruct (negb ready).
  - apply only_emits_bind; [apply only_emits_state|intros; emits].
  - emits. exact Hp.
Qed.

Lemma only_emits_move_relative_sync fuel d timeout :
  P (Call_PR_Set DEV (1e-3 * d)%float) ->
  only_emits P (move_relative_sync driver fuel d timeout).
Proof.
  intros Hp. unfold move_relative_sync.
  apply only_emits_bind; [now apply only_emits_move_relative_async|intros _].
  apply only_emits_bind; [emits|intros time_start].
  apply only_emits_wait_loop; [emits|apply only_emits_is_ready].
Qed.

Lemma only_emits_move_absolute_sync fuel x :
  P (Call_PA_Set DEV (1e-3 * x)%float) ->
  forall timeout n_retry, only_emits P (move_absolute_sync driver fuel x timeout n_retry).
Proof.
  intros Hp. induction fuel as [|fuel IH]; intros timeout n_retry;
    [simpl; emits | rewrite move_absolute_sync_S].
  apply only_emits_bind; [now apply only_emits_move_absolute_async|intros _].
  apply only_emits_bind; [emits|intros time_start].
  apply only_emits_wait_loop.
  - destruct (0 <? n_retry)%Z; [|emits].
    apply only_emits_bind; [apply only_emits_set_state|intros _].
    apply only_emits_bind; [apply only_emits_init_position_sync|intros _].
    apply IH.
  - apply only_emits_bind; [apply only_emits_state|intros; emits].
Qed.

End EmitsMethods.

(** ** The cached limits *)

Section Blind.

Context {W : Type}.

Lemma limits_blind_ret {A} (a : A) : limits_blind (@ret W A a).
Proof. intros s lo hi. reflexivity. Qed.

Lemma limits_blind_raise {A} e : limits_blind (@raise W A e).
Proof. intros s lo hi. reflexivity. Qed.

Lemma limits_blind_out_of_fuel {A} : limits_blind (@out_of_fuel W A).
Proof. intros s lo hi. reflexivity. Qed.

Lemma limits_blind_time_time : limits_blind (@time_time W).
Proof. intros s lo hi. reflexivity. Qed.

Lemma limits_blind_sleep d : limits_blind (@sleep W d).
Proof. intros s lo hi. reflexivity. Qed.

Lemma limits_blind_invoke {A} c (f : W -> A * W) : limits_blind (invoke c f).
Proof.
  intros s lo hi. unfold invoke. cbn [world with_limits].
  destruct (f (world s)) as [a w']. reflexivity.
Qed.

Lemma limits_blind_bind {A B} (m : M W A) (f : A -> M W B) :
  limits_blind m -> (forall a, limits_blind (f a)) -> limits_blind (bind m f).
Proof.
  intros Hm Hf s lo hi. unfold bind. rewrite (Hm s lo hi).
  destruct (m s) as [[a|e|] s1]; cbn [fst snd]; [apply Hf | reflexivity | reflexivity].
Qed.

End Blind.

Ltac blind :=
  repeat first
    [ apply limits_blind_ret
    | apply limits_blind_raise
    | apply limits_blind_out_of_fuel
    | apply limits_blind_time_time
    | apply limits_blind_sleep
    | apply limits_blind_invoke
    | apply limits_blind_bind; [|intros]
    | match goal with
      | |- limits_blind (let (_, _) := ?x in _) => destruct x
      | |- limits_blind (if ?b then _ else _) => destruct b
      end ].

Section BlindMethods.

Context {W : Type}.
Variable driver : Driver W.

Lemma limits_blind_state : limits_blind (state driver).
Proof. unfold state, get_state. blind. Qed.

Lemma limits_blind_is_ready : limits_blind (is_ready driver).
Proof. unfold is_ready. apply limits_blind_bind; [apply limits_blind_state | intros; blind]. Qed.

Lemma limits_blind_set_state st : limits_blind (set_state driver st).
Proof. unfold set_state. blind. Qed.

Lemma limits_blind_init_position_async : limits_blind (init_position_async driver).
Proof. unfold init_position_async. blind. Qed.

Lemma limits_blind_wait_loop (on_timeout : M W unit) (check : M W bool)
    time_start timeout fuel :
  limits_blind on_timeout -> limits_blind check ->
  forall done, limits_blind (wait_loop on_timeout check time_start timeout fuel done).
Proof.
  intros Ht Hc. induction fuel as [|fuel IH]; intros done.
  - destruct done; [rewrite wait_loop_done | rewrite wait_loop_O]; blind.
  - destruct done; [rewrite wait_loop_done; blind | rewrite wait_loop_S].
    apply limits_blind_bind; [blind|intros now].
    destruct (1000 * timeout <? now - time_start)%Z; [exact Ht|].
    apply limits_blind_bind; [blind|intros _].
    apply limits_blind_bind; [exact Hc|intros done']. apply IH.
Qed.

Lemma limits_blind_init_position_sync fuel :
  forall timeout n_retry, limits_blind (init_position_sync driver fuel timeout n_retry).
Proof.
  induction fuel as [|fuel IH]; intros timeout n_retry;
    [simpl; blind | rewrite init_position_sync_S].
  apply limits_blind_bind; [apply limits_blind_init_position_async|intros _].
  apply limits_blind_bind; [blind|intros time_start].
  apply limits_blind_wait_loop; [|apply limits_blind_is_ready].
  destruct (0 <? n_retry)%Z; [apply IH | blind].
Qed.

Lemma limits_blind_move_relative_async d : limits_blind (move_relative_async driver d).
Proof.
  unfold move_relative_async.
  apply limits_blind_bind; [unfold cur_pos, cur_pos_mm; blind|intros cur].
  destruct (MAX_RUN <? cur + d)%float; [blind|].
  apply limits_blind_bind; [apply limits_blind_is_ready|intros ready].
  destruct (negb ready).
  - apply limits_blind_bind; [apply limits_blind_state|intros; blind].
  - blind.
Qed.

Lemma limits_blind_move_absolute_async x : limits_blind (move_absolute_async driver x).
Proof.
  unfold move_absolute_async.
  destruct (MAX_RUN <? x)%float; [blind|].
  apply limits_blind_bind; [apply limits_blind_is_ready|intros ready].
  destruct (negb ready).
  - apply limits_blind_bind; [apply limits_blind_state|intros; blind].
  - blind.
Qed.

Lemma limits_blind_move_relative_sync fuel d timeout :
  limits_blind (move_relative_sync driver fuel d timeout).
Proof.
  unfold move_relative_sync.
  apply limits_blind_bind; [apply limits_blind_move_relative_async|intros _].
  apply limits_blind_bind; [blind|intros time_start].
  apply limits_blind_wait_loop; [blind|apply limits_blind_is_ready].
Qed.

Lemma limits_blind_move_absolute_sync fuel x :
  forall timeout n_retry, limits_blind (move_absolute_sync driver fuel x timeout n_retry).
Proof.
  induction fuel as [|fuel IH]; intros timeout n_retry;
    [simpl; blind | rewrite move_absolute_sync_S].
  apply limits_blind_bind; [apply limits_blind_move_absolute_async|intros _].
  apply limits_blind_bind; [blind|intros time_start].
  apply limits_blind_wait_loop.
  - destruct (0 <? n_retry)%Z; [|blind].
    apply limits_blind_bind; [apply limits_blind_set_state|intros _].
    apply limits_blind_bind; [apply limits_blind_init_position_sync|intros _].
    apply IH.
  - apply limits_blind_bind; [apply limits_blind_state|intros; blind].
Qed.

(** [get_limits] caches what the two limit queries answer. *)
Lemma get_limits_caches (s : St W) lo hi w1 w2 :
  SL_Get driver DEV (world s) = ((0, lo, ""), w1) ->
  SR_Get driver DEV w1 = ((0, hi, ""), w2) ->
  get_limits driver s =
  (Return (lo, hi),
   mkSt w2 (clock s) (trace s ++ [Call_SL_Get DEV; Call_SR_Get DEV]) (Some lo) (Some hi)).
Proof.
  intros Hl Hr. unfold get_limits.
  rewrite (bind_Return _ _ _ _ _ (invoke_eq _ _ _ _ _ Hl)). cbv beta iota.
  rewrite faulty_ok. unfold bind at 1. cbn [set_min_limit].
  erewrite bind_Return by (apply invoke_eq; cbn [world]; exact Hr).
  cbv beta iota. rewrite faulty_ok. unfold bind, set_max_limit, ret, logged.
  cbn [world clock trace min_limit max_limit]. now rewrite <- app_assoc.
Qed.

(** The state queries raise nothing but [CCMotorCommunicationError]. *)
Lemma state_raises (s s' : St W) e :
  state driver s = (Raise e, s') -> is_CommunicationError e = true.
Proof.
  unfold state, get_state, bind, invoke.
  destruct (TS driver DEV (world s)) as [[[[res err] st] err_str] w1].
  destruct (negb (String.length err_str =? 0)%nat); cbv beta iota delta [raise ret];
    intros E; [now injection E as <- | discriminate].
Qed.

Lemma is_ready_raises (s s' : St W) e :
  is_ready driver s = (Raise e, s') -> is_CommunicationError e = true.
Proof.
  unfold is_ready, bind. destruct (state driver s) as [[st|e0|] s1] eqn:E0;
    intros E; try discriminate.
  injection E as <- _. exact (state_raises s s1 e0 E0).
Qed.

(** No exception of an absolute move within [MAX_RUN] is a range error. *)
Lemma move_absolute_async_no_range_error (s : St W) new_pos e :
  (MAX_RUN <? new_pos)%float = false ->
  fst (move_absolute_async driver new_pos s) = Raise e ->
  is_RangeExceededError e = false.
Proof.
  intros H. unfold move_absolute_async. rewrite H. unfold bind at 1.
  destruct (is_ready driver s) as [[ready|e0|] s1] eqn:E1; cbn [fst].
  - destruct ready; cbn [negb].
    + unfold bind, invoke.
      destruct (PA_Set driver DEV (1e-3 * new_pos)%float (world s1)) as [[res err_str] w2].
      destruct (faulty res err_str); cbv beta iota delta [raise ret fst];
        intros E; [now injection E as <- | discriminate].
    + unfold bind. destruct (state driver s1) as [[st|e1|] s2] eqn:E2;
        cbv beta iota delta [raise fst]; intros E; try discriminate.
      * now injection E as <-.
      * injection E as <-. pose proof (state_raises s1 s2 e1 E2). now destruct e1.
  - intros E. injection E as <-. pose proof (is_ready_raises s s1 e0 E1). now destruct e0.
  - discriminate.
Qed.

End BlindMethods.

(** ** State check *)

Lemma emitted_logged2 {W} (s : St W) c1 w1 c2 w2 :
  emitted s (logged c2 w2 (logged c1 w1 s)) = [c1; c2].
Proof. apply emitted_app. cbn [logged trace]. now rewrite <- app_assoc. Qed.

Lemma emitted_logged3 {W} (s : St W) c1 w1 c2 w2 c3 w3 :
  emitted s (logged c3 w3 (logged c2 w2 (logged c1 w1 s))) = [c1; c2; c3].
Proof. apply emitted_app. cbn [logged trace]. now rewrite <- !app_assoc. Qed.

(** C2, as stated, fails in three ways.  In state "28" (MOVING) a move to
    40000 um raises [CCMotorRangeExceededError], not [CCMotorStateError]: the
    range check comes first.  In state "28" a move to 500 um whose second
    state query, the one made for the message, faults with the error string
    "lost" raises [CCMotorCommunicationError], not [CCMotorStateError].  And
    when the controller has left "28" for "32" between the ready check and
    that second query, the message of the [CCMotorStateError] names "32" and
    does not mention the offending state "28". *)
Lemma state_error_counterexample :
  in_READY_STATES "28" = false
  /\ move_absolute_async (fixed_driver "28" 1) 40000 (start tt) =
       (Raise (CCMotorRangeExceededError 40000 37000), start tt)
  /\ is_StateError (CCMotorRangeExceededError 40000 37000) = false
  /\ move_absolute_async
       (two_answer_driver (0, "", "28", "") (0, "", "", "lost") 1) 500 (start false) =
       (Raise (CCMotorCommunicationError
                 [Lit "Oops: Cannot get the state. Error: "; FmtStr "lost"]),
        logged (Call_TS DEV) true (logged (Call_TS DEV) true (start false)))
  /\ move_absolute_async
       (two_answer_driver (0, "", "28", "") (0, "", "32", "") 1) 500 (start false) =
       (Raise (CCMotorStateError "Stage not ready. Current state is : 32"),
        logged (Call_TS DEV) true (logged (Call_TS DEV) true (start false)))
  /\ mentions "28" "Stage not ready. Current state is : 32" = false.
Proof. repeat split. Qed.

(** A state query that comes back with an error string raises. *)
Lemma state_faults {W} (driver : Driver W) (s : St W) res err st err_str w' :
  TS driver DEV (world s) = ((res, err, st, err_str), w') ->
  err_str <> "" ->
  state driver s =
  (Raise (CCMotorCommunicationError
            [Lit "Oops: Cannot get the state. Error: "; FmtStr err_str]),
   logged (Call_TS DEV) w' s).
Proof.
  intros H Hne. unfold state, get_state. unfold bind at 1.
  rewrite (bind_Return _ _ _ _ _ (invoke_eq _ _ _ _ _ H)). cbv beta iota.
  destruct err_str as [|a err_str]; [congruence | reflexivity].
Qed.

(** Both moves, when the state check fails and the second state query, the
    one made for the message, faults. *)
Lemma move_absolute_async_message_faults {W} (driver : Driver W) (s : St W)
    new_pos st w1 res err st' err_str w2 :
  (MAX_RUN <? new_pos)%float = false ->
  reports driver st (world s) w1 ->
  in_READY_STATES st = false ->
  TS driver DEV w1 = ((res, err, st', err_str), w2) ->
  err_str <> "" ->
  move_absolute_async driver new_pos s =
  (Raise (CCMotorCommunicationError
            [Lit "Oops: Cannot get the state. Error: "; FmtStr err_str]),
   logged (Call_TS DEV) w2 (logged (Call_TS DEV) w1 s)).
Proof.
  intros Hrange Hts Hready Hts' Hne. unfold move_absolute_async. rewrite Hrange.
  rewrite (bind_Return _ _ _ _ _ (is_ready_ok driver s st w1 Hts)), Hready. cbn [negb].
  now rewrite (bind_Raise _ _ _ _ _
                 (state_faults driver (logged (Call_TS DEV) w1 s) res err st' err_str w2
                    Hts' Hne)).
Qed.

Lemma move_relative_async_message_faults {W} (driver : Driver W) (s : St W)
    distance_um resp w0 st w1 res err st' err_str w2 :
  TP driver DEV (world s) = ((0, resp, ""), w0) ->
  (MAX_RUN <? resp * 1e3 + distance_um)%float = false ->
  reports driver st w0 w1 ->
  in_READY_STATES st = false ->
  TS driver DEV w1 = ((res, err, st', err_str), w2) ->
  err_str <> "" ->
  move_relative_async driver distance_um s =
  (Raise (CCMotorCommunicationError
            [Lit "Oops: Cannot get the state. Error: "; FmtStr err_str]),
   logged (Call_TS DEV) w2 (logged (Call_TS DEV) w1 (logged (Call_TP DEV) w0 s))).
Proof.
  intros Htp Hrange Hts Hready Hts' Hne. unfold move_relative_async.
  rewrite (bind_Return _ _ _ _ _ (cur_pos_ok driver s resp w0 Htp)), Hrange.
  rewrite (bind_Return _ _ _ _ _
             (is_ready_ok driver (logged (Call_TP DEV) w0 s) st w1 Hts)), Hready.
  cbn [negb].
  now rewrite (bind_Raise _ _ _ _ _
                 (state_faults driver (logged (Call_TS DEV) w1 (logged (Call_TP DEV) w0 s))
                    res err st' err_str w2 Hts' Hne)).
Qed.

(** C2, amended.  Let the controller report, without fault, a state [st]
    outside [READY_STATES] to the ready check of a move whose target does not
    exceed [MAX_RUN] (for the relative move: whose position query succeeded
    with such a sum).  The move then queries the state a second time, for the
    message.  When that second query succeeds and reports [st'] ([st' = st]
    when the controller has not changed state in between), the move raises
    [CCMotorStateError] with a message that ends with [st']; when it comes
    back with an error string, the move raises the
    [CCMotorCommunicationError] of that query instead.  The synchronous
    wrappers raise the same exception in the same state, and in every case
    the calls made are queries only: no command is written. *)
Theorem not_ready_move_raises_StateError :
  forall {W} (driver : Driver W) (s : St W) (st st' : string),
    in_READY_STATES st = false ->
    (forall new_pos w1 w2,
        (MAX_RUN <? new_pos)%float = false ->
        reports driver st (world s) w1 ->
        reports driver st' w1 w2 ->
        let msg := ("Stage not ready. Current state is : " ++ st')%string in
        let s' := logged (Call_TS DEV) w2 (logged (Call_TS DEV) w1 s) in
        move_absolute_async driver new_pos s = (Raise (CCMotorStateError msg), s') /\
        (forall fuel timeout n_retry,
            move_absolute_sync driver (S fuel) new_pos timeout n_retry s =
              (Raise (CCMotorStateError msg), s')) /\
        mentions st' msg = true /\
        emitted s s' = [Call_TS DEV; Call_TS DEV] /\
        count is_write (emitted s s') = 0%nat)
    /\
    (forall delta cur_mm w0 w1 w2,
        TP driver DEV (world s) = ((0, cur_mm, ""), w0) ->
        (MAX_RUN <? cur_mm * 1e3 + delta)%float = false ->
        reports driver st w0 w1 ->
        reports driver st' w1 w2 ->
        let msg := ("Stage not ready: " ++ st')%string in
        let s' := logged (Call_TS DEV) w2 (logged (Call_TS DEV) w1 (logged (Call_TP DEV) w0 s)) in
        move_relative_async driver delta s = (Raise (CCMotorStateError msg), s') /\
        (forall fuel timeout,
            move_relative_sync driver fuel delta timeout s =
              (Raise (CCMotorStateError msg), s')) /\
        mentions st' msg = true /\
        emitted s s' = [Call_TP DEV; Call_TS DEV; Call_TS DEV] /\
        count is_write (emitted s s') = 0%nat)
    /\
    (forall new_pos w1 res err err_str w2,
        (MAX_RUN <? new_pos)%float = false ->
        reports driver st (world s) w1 ->
        TS driver DEV w1 = ((res, err, st', err_str), w2) ->
        err_str <> "" ->
        let e := CCMotorCommunicationError
                   [Lit "Oops: Cannot get the state. Error: "; FmtStr err_str] in
        let s' := logged (Call_TS DEV) w2 (logged (Call_TS DEV) w1 s) in
        move_absolute_async driver new_pos s = (Raise e, s') /\
        (forall fuel timeout n_retry,
            move_absolute_sync driver (S fuel) new_pos timeout n_retry s = (Raise e, s')) /\
        emitted s s' = [Call_TS DEV; Call_TS DEV] /\
        count is_write (emitted s s') = 0%nat)
    /\
    (forall delta cur_mm w0 w1 res err err_str w2,
        TP driver DEV (world s) = ((0, cur_mm, ""), w0) ->
        (MAX_RUN <? cur_mm * 1e3 + delta)%float = false ->
        reports driver st w0 w1 ->
        TS driver DEV w1 = ((res, err, st', err_str), w2) ->
        err_str <> "" ->
        let e := CCMotorCommunicationError
                   [Lit "Oops: Cannot get the state. Error: "; FmtStr err_str] in
        let s' := logged (Call_TS DEV) w2 (logged (Call_TS DEV) w1 (logged (Call_TP DEV) w0 s)) in
        move_relative_async driver delta s = (Raise e, s') /\
        (forall fuel timeout,
            move_relative_sync driver fuel delta timeout s = (Raise e, s')) /\
        emitted s s' = [Call_TP DEV; Call_TS DEV; Call_TS DEV] /\
        count is_write (emitted s s') = 0%nat).
Proof.
  intros W driver s st st' Hst. split; [|split; [|split]].
  - intros new_pos w1 w2 Hr H1 H2 msg s'.
    pose proof (move_absolute_async_not_ready driver s new_pos st w1 st' w2 Hr H1 Hst H2) as E.
    assert (Em : emitted s s' = [Call_TS DEV; Call_TS DEV]) by apply emitted_logged2.
    split; [exact E|]. split; [intros; now apply move_absolute_sync_raises|].
    split; [apply mentions_append|]. split; [exact Em|]. now rewrite Em.
  - intros delta cur_mm w0 w1 w2 Htp Hr H1 H2 msg s'.
    pose proof (move_relative_async_not_ready driver s delta cur_mm w0 st w1 st' w2
                  Htp Hr H1 Hst H2) as E.
    assert (Em : emitted s s' = [Call_TP DEV; Call_TS DEV; Call_TS DEV])
      by apply emitted_logged3.
    split; [exact E|]. split; [intros; now apply move_relative_sync_raises|].
    split; [apply mentions_append|]. split; [exact Em|]. now rewrite Em.
  - intros new_pos w1 res err err_str w2 Hr H1 H2 Hne e s'.
    pose proof (move_absolute_async_message_faults driver s new_pos st w1 res err st'
                  err_str w2 Hr H1 Hst H2 Hne) as E.
    assert (Em : emitted s s' = [Call_TS DEV; Call_TS DEV]) by apply emitted_logged2.
    split; [exact E|]. split; [intros; now apply move_absolute_sync_raises|].
    split; [exact Em|]. now rewrite Em.
  - intros delta cur_mm w0 w1 res err err_str w2 Htp Hr H1 H2 Hne e s'.
    pose proof (move_relative_async_message_faults driver s delta cur_mm w0 st w1 res err
                  st' err_str w2 Htp Hr H1 Hst H2 Hne) as E.
    assert (Em : emitted s s' = [Call_TP DEV; Call_TS DEV; Call_TS DEV])
      by apply emitted_logged3.
    split; [exact E|]. split; [intros; now apply move_relative_sync_raises|].
    split; [exact Em|]. now rewrite Em.
Qed.

(** The scenario of the specification: state "28", an absolute move to 500
    um, and the relative move by 500 um from 1 mm. *)
Lemma not_ready_move_witness :
  move_absolute_async (fixed_driver "28" 1) 500 (start tt) =
    (Raise (CCMotorStateError "Stage not ready. Current state is : 28"),
     logged (Call_TS DEV) tt (logged (Call_TS DEV) tt (start tt)))
  /\ mentions "28" "Stage not ready. Current state is : 28" = true
  /\ move_relative_async (fixed_driver "28" 1) 500 (start tt) =
    (Raise (CCMotorStateError "Stage not ready: 28"),
     logged (Call_TS DEV) tt (logged (Call_TS DEV) tt (logged (Call_TP DEV) tt (start tt)))).
Proof.
  assert (R : reports (fixed_driver "28" 1) "28" tt tt) by (exists 0, ""; reflexivity).
  destruct (not_ready_move_raises_StateError (fixed_driver "28" 1) (start tt) "28" "28"
              eq_refl) as (Ha & Hr & _).
  destruct (Ha 500%float tt tt eq_refl R R) as (Ea & _ & Ma & _).
  destruct (Hr 500%float 1%float tt tt tt eq_refl eq_refl R R) as (Er & _).
  split; [exact Ea | split; [exact Ma | exact Er]].
Defined.

(** ** Transport faults *)

(** C6.  On a ready controller whose transport rejects the move commands
    with result code 1 and error string "boom", both asynchronous moves raise
    the builtin [ValueError], which is neither a [CCMotorCommunicationError]
    nor any [CCMotorError]; and [get_state] returns normally from a state
    query whose result code is -1. *)
Theorem transport_fault_not_CommunicationError :
  move_absolute_async rejecting_driver 500 (start tt) =
    (Raise (ValueError "Move went wrong: boom"),
     logged (Call_PA_Set DEV 0.5) tt (logged (Call_TS DEV) tt (start tt)))
  /\ move_relative_async rejecting_driver 500 (start tt) =
    (Raise (ValueError "Move went wrong: boom"),
     logged (Call_PR_Set DEV 0.5) tt
       (logged (Call_TS DEV) tt (logged (Call_TP DEV) tt (start tt))))
  /\ is_CommunicationError (ValueError "Move went wrong: boom") = false
  /\ is_CCMotorError (ValueError "Move went wrong: boom") = false
  /\ fst (TS rejecting_driver DEV tt) = (-1, "", "32", "")
  /\ get_state rejecting_driver (start tt) =
    (Return (mkStateError "32" ""), logged (Call_TS DEV) tt (start tt)).
Proof. repeat split. Qed.

(** ** Counting calls *)

Lemma count_app p (l1 l2 : list call) : count p (l1 ++ l2) = (count p l1 + count p l2)%nat.
Proof. unfold count. now rewrite filter_app, length_app. Qed.

Lemma count_repeat_false p c n : p c = false -> count p (repeat c n) = 0%nat.
Proof.
  intros H. unfold count. induction n as [|n IH]; simpl; [reflexivity|].
  now rewrite H.
Qed.

Lemma count_home_attempt timeout :
  count is_home (home_attempt timeout) = 1%nat.
Proof.
  change (home_attempt timeout)
    with ([Call_OR DEV] ++ repeat (Call_TS DEV) (polls timeout)).
  now rewrite count_app, count_repeat_false.
Qed.

Lemma count_home_trace timeout retries :
  count is_home (home_trace timeout retries) = S retries.
Proof.
  induction retries as [|n IH]; cbn [home_trace].
  - apply count_home_attempt.
  - now rewrite count_app, count_home_attempt, IH.
Qed.

Lemma count_move_attempt p new_pos timeout :
  p (Call_TS DEV) = false ->
  count p (move_attempt new_pos timeout) =
  count p [Call_PA_Set DEV (1e-3 * new_pos)%float].
Proof.
  intros H.
  change (move_attempt new_pos timeout)
    with ([Call_TS DEV] ++ [Call_PA_Set DEV (1e-3 * new_pos)%float]
            ++ repeat (Call_TS DEV) (polls timeout)).
  rewrite !count_app, count_repeat_false by exact H.
  unfold count at 1. cbn [filter]. rewrite H. cbn [Datatypes.length]. lia.
Qed.

Lemma count_absolute_trace new_pos timeout retries :
  count is_move (absolute_trace new_pos timeout retries) = S retries
  /\ count is_enable (absolute_trace new_pos timeout retries) = retries
  /\ count is_home (absolute_trace new_pos timeout retries) = retries.
Proof.
  induction retries as [|n (IHm & IHe & IHh)]; cbn [absolute_trace].
  - rewrite !count_move_attempt by reflexivity. repeat split.
  - rewrite !count_app, !count_move_attempt, IHm, IHe, IHh by reflexivity.
    repeat split.
Qed.

(** ** Waiting for a controller that does not become ready *)

Section Waiting.

Context {W : Type}.
Variable driver : Driver W.
Variable Stalled : W -> Prop.
Hypothesis Hstalls : stalls driver Stalled.

(** With [j] polls left before the deadline, the loop makes them and then
    runs its timeout branch. *)
Lemma wait_loop_stalled (on_timeout : M W unit) time_start timeout :
  forall (j fuel : nat) (s : St W),
    Stalled (world s) ->
    (j < fuel)%nat ->
    clock s - time_start = 1000 * timeout + 50 - 50 * Z.of_nat j ->
    exists s',
      wait_loop on_timeout (is_ready driver) time_start timeout fuel false s = on_timeout s' /\
      Stalled (world s') /\
      clock s' = clock s + 50 * Z.of_nat j /\
      trace s' = trace s ++ repeat (Call_TS DEV) j /\
      min_limit s' = min_limit s /\ max_limit s' = max_limit s.
Proof.
  induction j as [|j IH]; intros fuel s Hs Hfuel Hclock;
    (destruct fuel as [|fuel]; [lia|]); rewrite wait_loop_S;
    unfold bind at 1, time_time.
  - assert (E : (1000 * timeout <? clock s - time_start)%Z = true)
      by (apply Z.ltb_lt; lia).
    rewrite E. exists s. split; [reflexivity|]. split; [exact Hs|].
    split; [cbn; lia|]. split; [cbn [repeat]; now rewrite app_nil_r|]. now split.
  - assert (E : (1000 * timeout <? clock s - time_start)%Z = false)
      by (apply Z.ltb_ge; lia).
    rewrite E. unfold bind at 1, sleep.
    destruct (Hstalls (world s) Hs) as (st & w' & Hrep & Hnot & Hs').
    rewrite (bind_Return _ _ _ _ _
               (is_ready_ok driver (slept MOVEMENT_SLEEP_TIME s) st w' Hrep)), Hnot.
    destruct (IH fuel (logged (Call_TS DEV) w' (slept MOVEMENT_SLEEP_TIME s)))
      as (s' & Erun & Hst & Hclk & Htr & Hlo & Hhi).
    + exact Hs'.
    + lia.
    + cbn [logged slept clock]. unfold MOVEMENT_SLEEP_TIME. lia.
    + exists s'. split; [exact Erun|]. split; [exact Hst|].
      cbn [logged slept clock trace min_limit max_limit] in Hclk, Htr, Hlo, Hhi.
      unfold MOVEMENT_SLEEP_TIME in Hclk.
      repeat split; [lia | | exact Hlo | exact Hhi].
      rewrite Htr, <- app_assoc. reflexivity.
Qed.

(** Entered at its start time, the loop makes [polls timeout] polls. *)
Lemma wait_loop_times_out (on_timeout : M W unit) timeout fuel (s : St W) :
  Stalled (world s) ->
  (polls timeout < fuel)%nat ->
  exists s',
    wait_loop on_timeout (is_ready driver) (clock s) timeout fuel false s = on_timeout s' /\
    Stalled (world s') /\
    clock s' = clock s + 50 * Z.of_nat (polls timeout) /\
    trace s' = trace s ++ repeat (Call_TS DEV) (polls timeout) /\
    min_limit s' = min_limit s /\ max_limit s' = max_limit s.
Proof.
  intros Hs Hfuel. destruct (Z.lt_ge_cases timeout 0) as [Hneg|Hpos].
  - assert (P0 : polls timeout = 0%nat) by (unfold polls; lia).
    rewrite P0 in *. destruct fuel as [|fuel]; [lia|]. rewrite wait_loop_S.
    unfold bind at 1, time_time.
    assert (E : (1000 * timeout <? clock s - clock s)%Z = true)
      by (apply Z.ltb_lt; lia).
    rewrite E. exists s. split; [reflexivity|]. split; [exact Hs|].
    split; [cbn; lia|]. split; [cbn [repeat]; now rewrite app_nil_r|]. now split.
  - apply wait_loop_stalled; [exact Hs | exact Hfuel |]. unfold polls. lia.
Qed.

(** Each attempt lasts longer than the timeout. *)
Lemma polls_exceed_timeout timeout : 1000 * timeout < 50 * Z.of_nat (polls timeout).
Proof. unfold polls. lia. Qed.

Lemma polls_nonneg timeout : 0 <= timeout -> 50 * Z.of_nat (polls timeout) = 1000 * timeout + 50.
Proof. intros H. unfold polls. lia. Qed.

End Waiting.

(** ** Homing that never completes *)

Section HomingGivesUp.

Context {W : Type}.
Variable driver : Driver W.
Variable Stalled : W -> Prop.
Hypothesis Hstalls : stalls driver Stalled.
Hypothesis Hhome : homing_stalls driver Stalled.

Lemma init_position_sync_gives_up timeout :
  forall (retries fuel : nat) (s : St W),
    Stalled (world s) ->
    (polls timeout + 2 + retries <= fuel)%nat ->
    exists s',
      init_position_sync driver fuel timeout (Z.of_nat retries) s =
        (Raise (CCMotorTimeoutError timeout), s') /\
      Stalled (world s') /\
      clock s' = clock s + (Z.of_nat retries + 1) * (50 * Z.of_nat (polls timeout)) /\
      trace s' = trace s ++ home_trace timeout retries.
Proof.
  induction retries as [|n IH]; intros fuel s Hs Hfuel;
    (destruct fuel as [|fuel]; [lia|]); rewrite init_position_sync_S;
    destruct (Hhome (world s) Hs) as (w' & Hor & Hs');
    rewrite (bind_Return _ _ _ _ _ (init_position_async_ok driver s w' Hor));
    unfold bind at 1, time_time.
  - change (0 <? Z.of_nat 0)%Z with false. cbv iota.
    destruct (wait_loop_times_out driver Stalled Hstalls
                (raise (CCMotorTimeoutError timeout)) timeout fuel
                (logged (Call_OR DEV) w' s) Hs') as (s1 & E & Hs1 & Hc & Ht & _);
      [lia | rewrite E].
    exists s1. split; [reflexivity|]. split; [exact Hs1|].
    cbn [logged clock trace] in Hc, Ht. split; [lia|].
    rewrite Ht, <- app_assoc. reflexivity.
  - assert (E0 : (0 <? Z.of_nat (S n))%Z = true) by (apply Z.ltb_lt; lia).
    rewrite E0. replace (Z.of_nat (S n) - 1) with (Z.of_nat n) by lia.
    destruct (wait_loop_times_out driver Stalled Hstalls
                (init_position_sync driver fuel timeout (Z.of_nat n)) timeout fuel
                (logged (Call_OR DEV) w' s) Hs') as (s1 & E & Hs1 & Hc & Ht & _);
      [lia | rewrite E].
    destruct (IH fuel s1 Hs1) as (s2 & E2 & Hs2 & Hc2 & Ht2); [lia|].
    exists s2. split; [exact E2|]. split; [exact Hs2|].
    cbn [logged clock trace] in Hc, Ht. split; [lia|].
    rewrite Ht2, Ht, <- !app_assoc. reflexivity.
Qed.

End HomingGivesUp.

(** C7, as stated, fails on its bound: with the default parameters
    ([timeout = 30], [n_retry = 3]) and a controller that stays in HOMING
    ("1E"), the call gives up after 120.2 s of waiting, more than
    3 x 30 s. *)
Lemma init_position_sync_bound_counterexample :
  fst (init_position_sync (fixed_driver "1E" 0) 700 30 3 (start tt)) =
    Raise (CCMotorTimeoutError 30)
  /\ clock (snd (init_position_sync (fixed_driver "1E" 0) 700 30 3 (start tt)))
       - clock (start tt) = 120200
  /\ 1000 * (3 * 30) < 120200
  /\ count is_home (trace (snd (init_position_sync (fixed_driver "1E" 0) 700 30 3 (start tt))))
       = 4%nat.
Proof. vm_compute. repeat split. Qed.

(** C7, amended.  Against a controller that never becomes ready and whose
    transport accepts the homing command, [init_position_sync timeout retries]
    makes [retries + 1] attempts; each sends the homing command and polls
    [polls timeout] times, its elapsed time counted from its own start, so a
    retry runs with [retries - 1] and the same timeout; it then raises
    [CCMotorTimeoutError] carrying [timeout].  The wait is
    [retries + 1] times the wait of one attempt, which exceeds [timeout]:
    the call blocks for more than [(retries + 1) * timeout], for
    [(retries + 1) * (timeout + 0.05)] seconds when [0 <= timeout]. *)
Theorem init_position_sync_retries_then_times_out :
  forall {W} (driver : Driver W) (Stalled : W -> Prop) (s : St W)
         (timeout : Z) (retries : nat),
    stalls driver Stalled ->
    homing_stalls driver Stalled ->
    Stalled (world s) ->
    exists fuel0, forall fuel, (fuel0 <= fuel)%nat ->
      exists s',
        init_position_sync driver fuel timeout (Z.of_nat retries) s =
          (Raise (CCMotorTimeoutError timeout), s') /\
        emitted s s' = home_trace timeout retries /\
        count is_home (emitted s s') = S retries /\
        clock s' - clock s = (Z.of_nat retries + 1) * (50 * Z.of_nat (polls timeout)) /\
        (Z.of_nat retries + 1) * (1000 * timeout) < clock s' - clock s /\
        (0 <= timeout ->
         clock s' - clock s = (Z.of_nat retries + 1) * (1000 * timeout + 50)).
Proof.
  intros W driver Stalled s timeout retries Hstalls Hhome Hs.
  exists (polls timeout + 2 + retries)%nat. intros fuel Hfuel.
  destruct (init_position_sync_gives_up driver Stalled Hstalls Hhome timeout
              retries fuel s Hs Hfuel) as (s' & E & _ & Hc & Ht).
  exists s'. split; [exact E|].
  assert (Em : emitted s s' = home_trace timeout retries) by now apply emitted_app.
  split; [exact Em|]. split; [rewrite Em; apply count_home_trace|].
  pose proof (polls_exceed_timeout timeout) as Hp.
  split; [lia|]. split.
  - rewrite Hc. nia.
  - intros H0. rewrite Hc, <- (polls_nonneg timeout H0). lia.
Qed.

Lemma init_position_sync_witness :
  exists fuel0, forall fuel, (fuel0 <= fuel)%nat ->
    exists s',
      init_position_sync (fixed_driver "1E" 0) fuel 30 (Z.of_nat 3) (start tt) =
        (Raise (CCMotorTimeoutError 30), s') /\
      emitted (start tt) s' = home_trace 30 3 /\
      count is_home (emitted (start tt) s') = 4%nat /\
      clock s' - clock (start tt) = (Z.of_nat 3 + 1) * (50 * Z.of_nat (polls 30)) /\
      (Z.of_nat 3 + 1) * (1000 * 30) < clock s' - clock (start tt) /\
      (0 <= 30 -> clock s' - clock (start tt) = (Z.of_nat 3 + 1) * (1000 * 30 + 50)).
Proof.
  apply (init_position_sync_retries_then_times_out
           (fixed_driver "1E" 0) (fun _ => True) (start tt) 30 3).
  - intros [] _. exists "1E", tt. split; [exists 0, ""; reflexivity | split; [reflexivity | exact I]].
  - intros [] _. exists tt. split; [reflexivity | exact I].
  - exact I.
Defined.

(** ** A relative move that never completes *)




(** ** An absolute move that never completes *)

Section NeverArrives.

Context {W : Type}.
Variable driver : Driver W.
Variables Idle Stalled : W -> Prop.
Variable new_pos : float.
Hypothesis Htransport : never_arrives driver Idle Stalled (1e-3 * new_pos)%float.
Hypothesis Hrange : (MAX_RUN <? new_pos)%float = false.

(** The recovery's homing succeeds at its first poll. *)
Lemma init_position_sync_homes fuel timeout n_retry (s : St W) :
  Stalled (world s) ->
  (2 <= fuel)%nat ->
  0 <= timeout ->
  exists s',
    init_position_sync driver fuel timeout n_retry s = (Return tt, s') /\
    Idle (world s') /\
    trace s' = trace s ++ [Call_OR DEV; Call_TS DEV].
Proof.
  intros Hs Hfuel Htime. destruct fuel as [|[|fuel]]; try lia.
  rewrite init_position_sync_S.
  destruct (stalled_home _ _ _ _ Htransport (world s) Hs) as (w1 & Hor & Hi1).
  rewrite (bind_Return _ _ _ _ _ (init_position_async_ok driver s w1 Hor)).
  unfold bind at 1, time_time. rewrite wait_loop_S. unfold bind at 1, time_time.
  assert (E : (1000 * timeout <? clock (logged (Call_OR DEV) w1 s)
                                 - clock (logged (Call_OR DEV) w1 s))%Z = false)
    by (apply Z.ltb_ge; lia).
  rewrite E. unfold bind at 1, sleep.
  destruct (idle_ready _ _ _ _ Htransport w1 Hi1) as (st & w2 & Hrep & Hready & Hi2).
  rewrite (bind_Return _ _ _ _ _
             (is_ready_ok driver (slept MOVEMENT_SLEEP_TIME (logged (Call_OR DEV) w1 s))
                st w2 Hrep)), Hready, wait_loop_done.
  eexists. split; [reflexivity|]. split; [exact Hi2|].
  cbn [logged slept trace]. now rewrite <- app_assoc.
Qed.

Lemma move_absolute_sync_gives_up timeout :
  forall (retries fuel : nat) (s : St W),
    Idle (world s) ->
    (polls timeout + 2 + retries <= fuel)%nat ->
    exists s',
      move_absolute_sync driver fuel new_pos timeout (Z.of_nat retries) s =
        (Raise (CCMotorTimeoutError timeout), s') /\
      Stalled (world s') /\
      trace s' = trace s ++ absolute_trace new_pos timeout retries.
Proof.
  induction retries as [|n IH]; intros fuel s Hs Hfuel;
    (destruct fuel as [|fuel]; [lia|]); rewrite move_absolute_sync_S;
    destruct (idle_ready _ _ _ _ Htransport (world s) Hs) as (st & w1 & Hrep & Hready & Hi1);
    destruct (idle_move _ _ _ _ Htransport w1 Hi1) as (w2 & Hpa & Hs2);
    rewrite (bind_Return _ _ _ _ _
               (move_absolute_async_issued driver s new_pos st w1 0 "" w2
                  Hrange Hrep Hready Hpa));
    unfold bind at 1, time_time;
    set (s1 := logged (Call_PA_Set DEV (1e-3 * new_pos)%float) w2 (logged (Call_TS DEV) w1 s)).
  - change (0 <? Z.of_nat 0)%Z with false. cbv iota.
    destruct (wait_loop_times_out driver Stalled (stalled_stalls _ _ _ _ Htransport)
                (raise (CCMotorTimeoutError timeout)) timeout fuel s1 Hs2)
      as (s2 & E & Hst2 & _ & Ht & _); [lia|].
    exists s2. split; [exact E|]. split; [exact Hst2|].
    rewrite Ht. unfold s1. cbn [logged trace absolute_trace]. unfold move_attempt.
    now rewrite <- !app_assoc.
  - assert (E0 : (0 <? Z.of_nat (S n))%Z = true) by (apply Z.ltb_lt; lia).
    rewrite E0. replace (Z.of_nat (S n) - 1) with (Z.of_nat n) by lia.
    destruct (wait_loop_times_out driver Stalled (stalled_stalls _ _ _ _ Htransport)
                (set_enable driver ;;
                 init_position_sync driver fuel 30 3 ;;
                 move_absolute_sync driver fuel new_pos timeout (Z.of_nat n))
                timeout fuel s1 Hs2)
      as (s2 & E & Hst2 & _ & Ht & _); [lia|].
    destruct (stalled_enable _ _ _ _ Htransport (world s2) Hst2) as (w3 & Hmm & Hs3).
    destruct (init_position_sync_homes fuel 30 3 (logged (Call_MM_Set DEV 1) w3 s2))
      as (s4 & E4 & Hi4 & Ht4); [exact Hs3 | lia | lia |].
    destruct (IH fuel s4 Hi4) as (s5 & E5 & Hs5 & Ht5); [lia|].
    exists s5. split; [|split; [exact Hs5|]].
    + etransitivity; [exact E|].
      unfold set_enable.
      rewrite (bind_Return _ _ _ _ _ (set_state_ok driver s2 1 w3 Hmm)).
      rewrite (bind_Return _ _ _ _ _ E4). exact E5.
    + rewrite Ht5, Ht4. cbn [logged trace]. rewrite Ht. unfold s1.
      cbn [logged trace absolute_trace]. unfold move_attempt, recovery.
      now rewrite <- !app_assoc.
Qed.

End NeverArrives.



Lemma stalling_driver_never_arrives pos_mm :
  never_arrives stalling_driver (fun w => w = false) (fun w => w = true) pos_mm.
Proof.
  constructor.
  - intros w ->. exists "32", false. split; [exists 0, ""; reflexivity | split; reflexivity].
  - intros w ->. exists true. split; reflexivity.
  - intros w ->. exists "28", true. split; [exists 0, ""; reflexivity | split; reflexivity].
  - intros w ->. exists true. split; reflexivity.
  - intros w ->. exists false. split; reflexivity.
Defined.


(** * Further properties of the class *)

(** ** The limits *)

(** X1.  How [get_limits] fails.  When the query of the negative limit
    faults, the positive limit is not queried and the cached limits are
    unchanged.  When it succeeds and the query of the positive limit faults,
    the call raises but [min_limit] already holds the new negative limit,
    next to the old [max_limit]. *)
Theorem get_limits_faults :
  forall {W} (driver : Driver W) (s : St W),
    (forall res resp err_str w1,
        SL_Get driver DEV (world s) = ((res, resp, err_str), w1) ->
        faulty res err_str = true ->
        exists msg,
          get_limits driver s =
            (Raise (CCMotorCommunicationError msg), logged (Call_SL_Get DEV) w1 s) /\
          emitted s (logged (Call_SL_Get DEV) w1 s) = [Call_SL_Get DEV] /\
          min_limit (logged (Call_SL_Get DEV) w1 s) = min_limit s /\
          max_limit (logged (Call_SL_Get DEV) w1 s) = max_limit s)
    /\
    (forall lo w1 res resp err_str w2,
        SL_Get driver DEV (world s) = ((0, lo, ""), w1) ->
        SR_Get driver DEV w1 = ((res, resp, err_str), w2) ->
        faulty res err_str = true ->
        exists msg s',
          get_limits driver s = (Raise (CCMotorCommunicationError msg), s') /\
          emitted s s' = [Call_SL_Get DEV; Call_SR_Get DEV] /\
          min_limit s' = Some lo /\
          max_limit s' = max_limit s).
Proof.
  intros W driver s. split.
  - intros res resp err_str w1 Hl Hf. eexists. split; [|split; [|split]].
    + unfold get_limits.
      rewrite (bind_Return _ _ _ _ _ (invoke_eq _ _ _ _ _ Hl)). cbv beta iota.
      rewrite Hf. reflexivity.
    + now apply emitted_app.
    + reflexivity.
    + reflexivity.
  - intros lo w1 res resp err_str w2 Hl Hr Hf. eexists. eexists. split; [|split; [|split]].
    + unfold get_limits.
      rewrite (bind_Return _ _ _ _ _ (invoke_eq _ _ _ _ _ Hl)). cbv beta iota.
      rewrite faulty_ok. unfold bind at 1. cbn [set_min_limit].
      erewrite bind_Return by (apply invoke_eq; cbn [world]; exact Hr).
      cbv beta iota. rewrite Hf. reflexivity.
    + apply emitted_app. cbn [logged trace]. now rewrite <- app_assoc.
    + reflexivity.
    + reflexivity.
Qed.

Lemma get_limits_faults_witness :
  exists msg s',
    get_limits (scripted_driver 0 (0, (-1.5)%float, "") (1, 0%float, "no answer")
                  (0, 1%float, "") (0, "", "32", ""))
      (with_limits (Some 0%float) (Some 25%float) (start tt)) =
      (Raise (CCMotorCommunicationError msg), s') /\
    emitted (with_limits (Some 0%float) (Some 25%float) (start tt)) s' =
      [Call_SL_Get DEV; Call_SR_Get DEV] /\
    min_limit s' = Some (-1.5)%float /\
    max_limit s' = Some 25%float.
Proof.
  exact (proj2 (get_limits_faults
                  (scripted_driver 0 (0, (-1.5)%float, "") (1, 0%float, "no answer")
                     (0, 1%float, "") (0, "", "32", ""))
                  (with_limits (Some 0%float) (Some 25%float) (start tt)))
           (-1.5)%float tt 1 0%float "no answer" tt eq_refl eq_refl eq_refl).
Defined.

(** ** The two tables of states *)

(** X2.  [READY_STATES] and [POSSIBLE_STATES] agree: a state code is in
    [READY_STATES] exactly when [POSSIBLE_STATES] has it as a key with a
    label that starts with "READY". *)
Theorem ready_states_are_the_READY_labels :
  forall st : string,
    in_READY_STATES st = true <->
    exists label, assoc st POSSIBLE_STATES = Some label /\ is_prefix "READY" label = true.
Proof.
  intros st. split.
  - unfold in_READY_STATES, READY_STATES. cbn [existsb].
    rewrite !orb_true_iff, !String.eqb_eq.
    intros [->|[->|[->|[->|[->|[->|H]]]]]];
      try (eexists; split; reflexivity). discriminate.
  - intros (label & H & P). unfold POSSIBLE_STATES in H. cbn [assoc] in H.
    repeat match type of H with
           | context [if (?a =? ?b)%string then _ else _] =>
               destruct (String.eqb_spec a b);
               [subst; injection H as <-; first [reflexivity | discriminate P] | ]
           end.
    discriminate.
Qed.

(** ** Waiting for a controller that becomes ready *)

Lemma get_state_faults {W} (driver : Driver W) (s : St W) res err st err_str w' :
  TS driver DEV (world s) = ((res, err, st, err_str), w') ->
  err_str <> "" ->
  get_state driver s =
  (Raise (CCMotorCommunicationError
            [Lit "Oops: Cannot get the state. Error: "; FmtStr err_str]),
   logged (Call_TS DEV) w' s).
Proof.
  intros H Hne. unfold get_state.
  rewrite (bind_Return _ _ _ _ _ (invoke_eq _ _ _ _ _ H)). cbv beta iota.
  destruct err_str as [|a err_str]; [congruence | reflexivity].
Qed.

Lemma is_ready_faults {W} (driver : Driver W) (s : St W) res err st err_str w' :
  TS driver DEV (world s) = ((res, err, st, err_str), w') ->
  err_str <> "" ->
  is_ready driver s =
  (Raise (CCMotorCommunicationError
            [Lit "Oops: Cannot get the state. Error: "; FmtStr err_str]),
   logged (Call_TS DEV) w' s).
Proof.
  intros H Hne. unfold is_ready, state.
  unfold bind at 1. unfold bind at 1.
  now rewrite (get_state_faults driver s res err st err_str w' H Hne).
Qed.

Section Settling.

Context {W : Type}.
Variable driver : Driver W.
Variable Busy : nat -> W -> Prop.
Hypothesis Hcount : counts_down driver Busy.

(** [k] busy polls that fit before the deadline are made, one sleep each. *)
Lemma wait_loop_counts_down (on_timeout : M W unit) time_start timeout :
  forall (k : nat) (s : St W),
    Busy k (world s) ->
    clock s - time_start + 50 * Z.of_nat k <= 1000 * timeout + 50 ->
    exists sk,
      (forall fuel,
          wait_loop on_timeout (is_ready driver) time_start timeout (k + fuel) false s =
          wait_loop on_timeout (is_ready driver) time_start timeout fuel false sk) /\
      Busy 0%nat (world sk) /\
      clock sk = clock s + 50 * Z.of_nat k /\
      trace sk = trace s ++ repeat (Call_TS DEV) k /\
      min_limit sk = min_limit s /\ max_limit sk = max_limit s.
Proof.
  induction k as [|k IH]; intros s Hs Hclock.
  - exists s. split; [reflexivity|]. split; [exact Hs|].
    split; [cbn; lia|]. split; [cbn [repeat]; now rewrite app_nil_r|]. now split.
  - destruct (Hcount k (world s) Hs) as (st & w' & Hrep & Hnot & Hs').
    destruct (IH (logged (Call_TS DEV) w' (slept MOVEMENT_SLEEP_TIME s)))
      as (sk & Erun & Hsk & Hclk & Htr & Hlo & Hhi).
    + exact Hs'.
    + cbn [logged slept clock]. unfold MOVEMENT_SLEEP_TIME. lia.
    + exists sk. split; [|split; [exact Hsk|]].
      * intros fuel. change (S k + fuel)%nat with (S (k + fuel)).
        rewrite wait_loop_S. unfold bind at 1, time_time.
        assert (E : (1000 * timeout <? clock s - time_start)%Z = false)
          by (apply Z.ltb_ge; lia).
        rewrite E. unfold bind at 1, sleep.
        rewrite (bind_Return _ _ _ _ _
                   (is_ready_ok driver (slept MOVEMENT_SLEEP_TIME s) st w' Hrep)), Hnot.
        apply Erun.
      * cbn [logged slept clock trace min_limit max_limit] in Hclk, Htr, Hlo, Hhi.
        unfold MOVEMENT_SLEEP_TIME in Hclk.
        split; [lia|]. split; [|split; [exact Hlo | exact Hhi]].
        rewrite Htr, <- app_assoc. reflexivity.
Qed.

(** The poll that finds the controller ready ends the loop. *)
Lemma wait_loop_settles (on_timeout : M W unit) timeout (k fuel : nat) (s : St W) :
  then_ready driver Busy ->
  Busy k (world s) ->
  Z.of_nat k <= 20 * timeout ->
  (k < fuel)%nat ->
  exists s',
    wait_loop on_timeout (is_ready driver) (clock s) timeout fuel false s = (Return tt, s') /\
    Busy 0%nat (world s') /\
    clock s' = clock s + 50 * Z.of_nat (S k) /\
    trace s' = trace s ++ settle_trace k /\
    min_limit s' = min_limit s /\ max_limit s' = max_limit s.
Proof.
  intros Hready Hs Hk Hfuel.
  destruct (wait_loop_counts_down on_timeout (clock s) timeout k s Hs)
    as (sk & Erun & Hsk & Hclk & Htr & Hlo & Hhi); [lia|].
  replace fuel with (k + S (fuel - S k))%nat by lia. rewrite Erun, wait_loop_S.
  unfold bind at 1, time_time.
  assert (E : (1000 * timeout <? clock sk - clock s)%Z = false)
    by (apply Z.ltb_ge; lia).
  rewrite E. unfold bind at 1, sleep.
  destruct (Hready (world sk) Hsk) as (st & w' & Hrep & Hst & Hs').
  rewrite (bind_Return _ _ _ _ _
             (is_ready_ok driver (slept MOVEMENT_SLEEP_TIME sk) st w' Hrep)), Hst,
    wait_loop_done.
  eexists. split; [reflexivity|]. split; [exact Hs'|].
  cbn [logged slept clock trace min_limit max_limit]. unfold MOVEMENT_SLEEP_TIME.
  split; [lia|]. split; [|split; [exact Hlo | exact Hhi]].
  rewrite Htr, <- app_assoc. unfold settle_trace.
  cbn [repeat]. now rewrite repeat_cons.
Qed.

(** The poll that faults leaves the loop with its exception. *)
Lemma wait_loop_poll_faults (on_timeout : M W unit) timeout (k fuel : nat) (s : St W) err_str :
  then_faults driver Busy err_str ->
  Busy k (world s) ->
  Z.of_nat k <= 20 * timeout ->
  (k < fuel)%nat ->
  exists s',
    wait_loop on_timeout (is_ready driver) (clock s) timeout fuel false s =
      (Raise (CCMotorCommunicationError
                [Lit "Oops: Cannot get the state. Error: "; FmtStr err_str]), s') /\
    trace s' = trace s ++ settle_trace k.
Proof.
  intros [Hne Hfault] Hs Hk Hfuel.
  destruct (wait_loop_counts_down on_timeout (clock s) timeout k s Hs)
    as (sk & Erun & Hsk & Hclk & Htr & _); [lia|].
  replace fuel with (k + S (fuel - S k))%nat by lia. rewrite Erun, wait_loop_S.
  unfold bind at 1, time_time.
  assert (E : (1000 * timeout <? clock sk - clock s)%Z = false)
    by (apply Z.ltb_ge; lia).
  rewrite E. unfold bind at 1, sleep.
  destruct (Hfault (world sk) Hsk) as (res & err & st & w' & Hts).
  rewrite (bind_Raise _ _ _ _ _
             (is_ready_faults driver (slept MOVEMENT_SLEEP_TIME sk) res err st err_str w'
                Hts Hne)).
  eexists. split; [reflexivity|].
  cbn [logged slept trace]. rewrite Htr, <- app_assoc. unfold settle_trace.
  cbn [repeat]. now rewrite repeat_cons.
Qed.

(** Homing that completes in time. *)
Lemma init_position_sync_completes timeout n_retry (k fuel : nat) (s : St W) w1 :
  then_ready driver Busy ->
  OR driver DEV (world s) = ((0, ""), w1) ->
  Busy k w1 ->
  Z.of_nat k <= 20 * timeout ->
  (k + 2 <= fuel)%nat ->
  exists s',
    init_position_sync driver fuel timeout n_retry s = (Return tt, s') /\
    Busy 0%nat (world s') /\
    clock s' = clock s + 50 * Z.of_nat (S k) /\
    trace s' = trace s ++ Call_OR DEV :: settle_trace k /\
    min_limit s' = min_limit s /\ max_limit s' = max_limit s.
Proof.
  intros Hready Hor Hs Hk Hfuel. destruct fuel as [|fuel]; [lia|].
  rewrite init_position_sync_S.
  rewrite (bind_Return _ _ _ _ _ (init_position_async_ok driver s w1 Hor)).
  unfold bind at 1, time_time.
  destruct (wait_loop_settles
              (if (0 <? n_retry)%Z then init_position_sync driver fuel timeout (n_retry - 1)
               else raise (CCMotorTimeoutError timeout))
              timeout k fuel (logged (Call_OR DEV) w1 s) Hready Hs Hk)
    as (s' & E & Hs' & Hclk & Htr & Hlo & Hhi); [lia|].
  exists s'. split; [exact E|]. split; [exact Hs'|].
  cbn [logged clock trace min_limit max_limit] in Hclk, Htr, Hlo, Hhi.
  split; [exact Hclk|]. split; [|split; [exact Hlo | exact Hhi]].
  rewrite Htr, <- app_assoc. reflexivity.
Qed.

(** An absolute move that arrives in time. *)
Lemma move_absolute_sync_completes new_pos timeout n_retry (k fuel : nat) (s : St W) :
  then_ready driver Busy ->
  (MAX_RUN <? new_pos)%float = false ->
  Busy 0%nat (world s) ->
  (forall w, Busy 0%nat w ->
     exists w', PA_Set driver DEV (1e-3 * new_pos)%float w = ((0, ""), w') /\ Busy k w') ->
  Z.of_nat k <= 20 * timeout ->
  (k + 2 <= fuel)%nat ->
  exists s',
    move_absolute_sync driver fuel new_pos timeout n_retry s = (Return tt, s') /\
    Busy 0%nat (world s') /\
    clock s' = clock s + 50 * Z.of_nat (S k) /\
    trace s' = trace s ++ [Call_TS DEV; Call_PA_Set DEV (1e-3 * new_pos)%float]
                       ++ settle_trace k.
Proof.
  intros Hready Hrange Hs Hmove Hk Hfuel. destruct fuel as [|fuel]; [lia|].
  rewrite move_absolute_sync_S.
  destruct (Hready (world s) Hs) as (st & w1 & Hrep & Hst & Hs1).
  destruct (Hmove w1 Hs1) as (w2 & Hpa & Hs2).
  rewrite (bind_Return _ _ _ _ _
             (move_absolute_async_issued driver s new_pos st w1 0 "" w2
                Hrange Hrep Hst Hpa)).
  unfold bind at 1, time_time.
  set (s1 := logged (Call_PA_Set DEV (1e-3 * new_pos)%float) w2 (logged (Call_TS DEV) w1 s)).
  destruct (wait_loop_settles
              (if (0 <? n_retry)%Z then
                 set_enable driver ;;
                 init_position_sync driver fuel 30 3 ;;
                 move_absolute_sync driver fuel new_pos timeout (n_retry - 1)
               else raise (CCMotorTimeoutError timeout))
              timeout k fuel s1 Hready Hs2 Hk)
    as (s' & E & Hs' & Hclk & Htr & _); [lia|].
  exists s'. split; [exact E|]. split; [exact Hs'|].
  unfold s1 in Hclk, Htr. cbn [logged clock trace] in Hclk, Htr.
  split; [exact Hclk|]. rewrite Htr, <- !app_assoc. reflexivity.
Qed.

End Settling.

Lemma count_settle_trace p k :
  p (Call_TS DEV) = false -> count p (settle_trace k) = 0%nat.
Proof. intros H. now apply count_repeat_false. Qed.

Lemma slow_driver_counts_down k pos_mm :
  counts_down (slow_driver k pos_mm) (fun n w => w = n).
Proof.
  intros n w ->. exists "28", n.
  split; [exists 0, ""; reflexivity | split; reflexivity].
Defined.

Lemma slow_driver_then_ready k pos_mm :
  then_ready (slow_driver k pos_mm) (fun n w => w = n).
Proof.
  intros w ->. exists "32", 0%nat.
  split; [exists 0, ""; reflexivity | split; reflexivity].
Defined.







(** ** A transport fault while polling *)

(** X6.  Only timeouts are retried.  If a state query made by the polling
    loop faults before the deadline, [init_position_sync] raises the
    [CCMotorCommunicationError] of that query at once and sends no second
    homing command, and [move_absolute_sync] raises it at once and runs no
    recovery, whatever [n_retry] is. *)
Theorem polling_fault_is_not_retried :
  forall {W} (driver : Driver W) (Busy : nat -> W -> Prop) (err_str : string)
         (timeout n_retry : Z) (k : nat),
    counts_down driver Busy ->
    then_faults driver Busy err_str ->
    Z.of_nat k <= 20 * timeout ->
    let e := CCMotorCommunicationError
               [Lit "Oops: Cannot get the state. Error: "; FmtStr err_str] in
    (forall (s : St W) w1,
        OR driver DEV (world s) = ((0, ""), w1) ->
        Busy k w1 ->
        exists fuel0, forall fuel, (fuel0 <= fuel)%nat ->
          exists s',
            init_position_sync driver fuel timeout n_retry s = (Raise e, s') /\
            emitted s s' = Call_OR DEV :: settle_trace k /\
            count is_home (emitted s s') = 1%nat)
    /\
    (forall (s : St W) new_pos st w1 w2,
        (MAX_RUN <? new_pos)%float = false ->
        reports driver st (world s) w1 ->
        in_READY_STATES st = true ->
        PA_Set driver DEV (1e-3 * new_pos)%float w1 = ((0, ""), w2) ->
        Busy k w2 ->
        exists fuel0, forall fuel, (fuel0 <= fuel)%nat ->
          exists s',
            move_absolute_sync driver fuel new_pos timeout n_retry s = (Raise e, s') /\
            emitted s s' =
              [Call_TS DEV; Call_PA_Set DEV (1e-3 * new_pos)%float] ++ settle_trace k /\
            count is_move (emitted s s') = 1%nat /\
            count is_enable (emitted s s') = 0%nat /\
            count is_home (emitted s s') = 0%nat).
Proof.
  intros W driver Busy err_str timeout n_retry k Hcount Hfault Hk e. split.
  - intros s w1 Hor Hs. exists (k + 2)%nat. intros fuel Hfuel.
    destruct fuel as [|fuel]; [lia|]. rewrite init_position_sync_S.
    rewrite (bind_Return _ _ _ _ _ (init_position_async_ok driver s w1 Hor)).
    unfold bind at 1, time_time.
    destruct (wait_loop_poll_faults driver Busy Hcount
                (if (0 <? n_retry)%Z then init_position_sync driver fuel timeout (n_retry - 1)
                 else raise (CCMotorTimeoutError timeout))
                timeout k fuel (logged (Call_OR DEV) w1 s) err_str Hfault Hs Hk)
      as (s' & E & Htr); [lia|].
    exists s'. split; [exact E|].
    assert (Em : emitted s s' = Call_OR DEV :: settle_trace k).
    { apply emitted_app. rewrite Htr. cbn [logged trace]. now rewrite <- app_assoc. }
    split; [exact Em|]. rewrite Em.
    change (Call_OR DEV :: settle_trace k) with ([Call_OR DEV] ++ settle_trace k).
    now rewrite count_app, count_settle_trace.
  - intros s new_pos st w1 w2 Hrange Hrep Hst Hpa Hs2.
    exists (k + 2)%nat. intros fuel Hfuel.
    destruct fuel as [|fuel]; [lia|]. rewrite move_absolute_sync_S.
    rewrite (bind_Return _ _ _ _ _
               (move_absolute_async_issued driver s new_pos st w1 0 "" w2
                  Hrange Hrep Hst Hpa)).
    unfold bind at 1, time_time.
    set (s1 := logged (Call_PA_Set DEV (1e-3 * new_pos)%float) w2
                 (logged (Call_TS DEV) w1 s)).
    destruct (wait_loop_poll_faults driver Busy Hcount
                (if (0 <? n_retry)%Z then
                   set_enable driver ;;
                   init_position_sync driver fuel 30 3 ;;
                   move_absolute_sync driver fuel new_pos timeout (n_retry - 1)
                 else raise (CCMotorTimeoutError timeout))
                timeout k fuel s1 err_str Hfault Hs2 Hk)
      as (s' & E & Htr); [lia|].
    exists s'. split; [exact E|].
    assert (Em : emitted s s' =
                 [Call_TS DEV; Call_PA_Set DEV (1e-3 * new_pos)%float] ++ settle_trace k).
    { apply emitted_app. rewrite Htr. unfold s1. cbn [logged trace].
      now rewrite <- !app_assoc. }
    split; [exact Em|]. rewrite Em, !count_app, !count_settle_trace by reflexivity.
    repeat split.
Qed.

(** The first poll after a homing answers with the error string "timeout". *)
Lemma polling_fault_witness :
  exists fuel0, forall fuel, (fuel0 <= fuel)%nat ->
    exists s',
      init_position_sync
        (scripted_driver 0 (0, 0%float, "") (0, 25%float, "") (0, 1%float, "")
           (0, "", "", "timeout"))
        fuel 30 3 (start tt) =
        (Raise (CCMotorCommunicationError
                  [Lit "Oops: Cannot get the state. Error: "; FmtStr "timeout"]), s') /\
      emitted (start tt) s' = Call_OR DEV :: settle_trace 0 /\
      count is_home (emitted (start tt) s') = 1%nat.
Proof.
  refine (proj1 (polling_fault_is_not_retried
                   (scripted_driver 0 (0, 0%float, "") (0, 25%float, "") (0, 1%float, "")
                      (0, "", "", "timeout"))
                   (fun n _ => n = 0%nat) "timeout" 30 3 0 _ _ _) (start tt) tt eq_refl eq_refl).
  - intros n w H. discriminate H.
  - split; [discriminate|]. intros [] _. exists 0, "", "", tt. reflexivity.
  - vm_compute. discriminate.
Defined.

(** ** Homing and coming back *)

(** X7.  [init_position_and_come_back] homes before it checks the range.
    When the position read at its start, in micrometers, exceeds [MAX_RUN]
    and the homing completes, the call raises [CCMotorRangeExceededError]
    after the axis was homed: the homing command was sent, no move command
    was, and the axis is left at its home. *)
Theorem come_back_out_of_range_leaves_axis_homed :
  forall {W} (driver : Driver W) (Busy : nat -> W -> Prop) (s : St W)
         (k : nat) cur_mm w0 w1,
    counts_down driver Busy ->
    then_ready driver Busy ->
    TP driver DEV (world s) = ((0, cur_mm, ""), w0) ->
    (MAX_RUN <? cur_mm * 1e3)%float = true ->
    OR driver DEV w0 = ((0, ""), w1) ->
    Busy k w1 ->
    Z.of_nat k <= 600 ->
    exists fuel0, forall fuel, (fuel0 <= fuel)%nat ->
      exists s',
        init_position_and_come_back driver fuel s =
          (Raise (CCMotorRangeExceededError (cur_mm * 1e3)%float MAX_RUN), s') /\
        emitted s s' = [Call_TP DEV; Call_OR DEV] ++ settle_trace k /\
        count is_home (emitted s s') = 1%nat /\
        count is_move (emitted s s') = 0%nat.
Proof.
  intros W driver Busy s k cur_mm w0 w1 Hcount Hready Htp Hrange Hor Hs Hk.
  exists (k + 2)%nat. intros fuel Hfuel. unfold init_position_and_come_back.
  rewrite (bind_Return _ _ _ _ _ (cur_pos_ok driver s cur_mm w0 Htp)).
  destruct (init_position_sync_completes driver Busy Hcount 30 3 k fuel
              (logged (Call_TP DEV) w0 s) w1 Hready Hor Hs)
    as (s2 & E2 & _ & _ & Htr & _); [lia | exact Hfuel |].
  rewrite (bind_Return _ _ _ _ _ E2).
  destruct fuel as [|fuel]; [lia|].
  rewrite (move_absolute_sync_raises driver s2 s2 (cur_mm * 1e3)%float
             (CCMotorRangeExceededError (cur_mm * 1e3)%float MAX_RUN) fuel 30 3
             (move_absolute_async_out_of_range driver s2 _ Hrange)).
  exists s2. split; [reflexivity|].
  assert (Em : emitted s s2 = [Call_TP DEV; Call_OR DEV] ++ settle_trace k).
  { apply emitted_app. rewrite Htr. cbn [logged trace]. now rewrite <- !app_assoc. }
  split; [exact Em|]. rewrite Em, !count_app, !count_settle_trace by reflexivity.
  split; reflexivity.
Qed.

(** An axis at 40 mm. *)
Lemma come_back_out_of_range_witness :
  exists fuel0, forall fuel, (fuel0 <= fuel)%nat ->
    exists s',
      init_position_and_come_back (slow_driver 5 40) fuel (start 0%nat) =
        (Raise (CCMotorRangeExceededError (40 * 1e3)%float MAX_RUN), s') /\
      emitted (start 0%nat) s' = [Call_TP DEV; Call_OR DEV] ++ settle_trace 5 /\
      count is_home (emitted (start 0%nat) s') = 1%nat /\
      count is_move (emitted (start 0%nat) s') = 0%nat.
Proof.
  apply (come_back_out_of_range_leaves_axis_homed (slow_driver 5 40) (fun n w => w = n)
           (start 0%nat) 5 40%float 0%nat 5%nat).
  - apply slow_driver_counts_down.
  - apply slow_driver_then_ready.
  - reflexivity.
  - reflexivity.
  - reflexivity.
  - reflexivity.
  - vm_compute. discriminate.
Defined.

(** X8.  [init_position_and_come_back], when all goes well: it reads the
    position [cur_mm], homes the axis once, and then sends one absolute move
    to [1e-3 * (cur_mm * 1e3)] millimeters, the binary64 round trip of the
    position read, and waits for it. *)
Theorem come_back_returns_to_position_read :
  forall {W} (driver : Driver W) (Busy : nat -> W -> Prop) (s : St W)
         (k j : nat) cur_mm w0 w1,
    counts_down driver Busy ->
    then_ready driver Busy ->
    TP driver DEV (world s) = ((0, cur_mm, ""), w0) ->
    (MAX_RUN <? cur_mm * 1e3)%float = false ->
    OR driver DEV w0 = ((0, ""), w1) ->
    Busy k w1 ->
    Z.of_nat k <= 600 ->
    (forall w, Busy 0%nat w ->
       exists w', PA_Set driver DEV (1e-3 * (cur_mm * 1e3))%float w = ((0, ""), w') /\
                  Busy j w') ->
    Z.of_nat j <= 600 ->
    exists fuel0, forall fuel, (fuel0 <= fuel)%nat ->
      exists s',
        init_position_and_come_back driver fuel s = (Return tt, s') /\
        emitted s s' =
          [Call_TP DEV; Call_OR DEV] ++ settle_trace k
            ++ [Call_TS DEV; Call_PA_Set DEV (1e-3 * (cur_mm * 1e3))%float]
            ++ settle_trace j /\
        count is_home (emitted s s') = 1%nat /\
        count is_move (emitted s s') = 1%nat.
Proof.
  intros W driver Busy s k j cur_mm w0 w1 Hcount Hready Htp Hrange Hor Hs Hk Hmove Hj.
  exists (k + j + 2)%nat. intros fuel Hfuel. unfold init_position_and_come_back.
  rewrite (bind_Return _ _ _ _ _ (cur_pos_ok driver s cur_mm w0 Htp)).
  destruct (init_position_sync_completes driver Busy Hcount 30 3 k fuel
              (logged (Call_TP DEV) w0 s) w1 Hready Hor Hs)
    as (s2 & E2 & Hs2 & _ & Htr2 & _); [lia | lia |].
  rewrite (bind_Return _ _ _ _ _ E2).
  destruct (move_absolute_sync_completes driver Busy Hcount (cur_mm * 1e3)%float 30 3 j fuel s2
              Hready Hrange Hs2 Hmove)
    as (s3 & E3 & _ & _ & Htr3); [lia | lia |].
  exists s3. split; [exact E3|].
  assert (Em : emitted s s3 =
               [Call_TP DEV; Call_OR DEV] ++ settle_trace k
                 ++ [Call_TS DEV; Call_PA_Set DEV (1e-3 * (cur_mm * 1e3))%float]
                 ++ settle_trace j).
  { apply emitted_app. rewrite Htr3, Htr2. cbn [logged trace].
    now rewrite <- !app_assoc. }
  split; [exact Em|]. rewrite Em, !count_app, !count_settle_trace by reflexivity.
  split; reflexivity.
Qed.

(** An axis at 2.3 mm: the move that brings it back is sent to
    [1e-3 * (2.3 * 1e3)], which is not the binary64 value 2.3. *)
Lemma come_back_witness :
  (exists fuel0, forall fuel, (fuel0 <= fuel)%nat ->
     exists s',
       init_position_and_come_back (slow_driver 5 2.3) fuel (start 0%nat) = (Return tt, s') /\
       emitted (start 0%nat) s' =
         [Call_TP DEV; Call_OR DEV] ++ settle_trace 5
           ++ [Call_TS DEV; Call_PA_Set DEV (1e-3 * (2.3 * 1e3))%float]
           ++ settle_trace 5 /\
       count is_home (emitted (start 0%nat) s') = 1%nat /\
       count is_move (emitted (start 0%nat) s') = 1%nat)
  /\ (1e-3 * (2.3 * 1e3) =? 2.3)%float = false.
Proof.
  split; [|reflexivity].
  apply (come_back_returns_to_position_read (slow_driver 5 2.3) (fun n w => w = n)
           (start 0%nat) 5 5 2.3%float 0%nat 5%nat).
  - apply slow_driver_counts_down.
  - apply slow_driver_then_ready.
  - reflexivity.
  - reflexivity.
  - reflexivity.
  - reflexivity.
  - vm_compute. discriminate.
  - intros w ->. exists 5%nat. split; reflexivity.
  - vm_compute. discriminate.
Defined.

(** ** Construction *)

Lemma velocity_setter_ok {W} (driver : Driver W) (s : St W) speed w' :
  VA_Set driver DEV (clamped speed) (world s) = ((0, ""), w') ->
  velocity_setter driver speed s = (Return tt, logged (Call_VA_Set DEV (clamped speed)) w' s).
Proof.
  intros H. unfold velocity_setter. fold (clamped speed).
  now rewrite (bind_Return _ _ _ _ _ (invoke_eq _ _ _ _ _ H)).
Qed.

Lemma set_homing_velocity_ok {W} (driver : Driver W) (s : St W) velocity w' :
  OH_Set driver DEV (clamped velocity) (world s) = ((0, ""), w') ->
  set_homing_velocity driver velocity s =
  (Return tt, logged (Call_OH_Set DEV (clamped velocity)) w' s).
Proof.
  intros H. unfold set_homing_velocity. fold (clamped velocity).
  now rewrite (bind_Return _ _ _ _ _ (invoke_eq _ _ _ _ _ H)).
Qed.

(** X9.  What the constructor does when every call is accepted: it opens
    the port, sets the velocity and the homing velocity, both clamped to
    [MAX_VELOCITY], reads the two limits into [min_limit] and [max_limit],
    and queries the position once, in this order. *)
Theorem init_sequence :
  forall {W} (driver : Driver W) (s : St W) (com_port : string) (velocity : float)
         w1 w2 w3 w4 w5 w6 lo hi cur_mm,
    OpenInstrument driver com_port (world s) = (0, w1) ->
    VA_Set driver DEV (clamped velocity) w1 = ((0, ""), w2) ->
    OH_Set driver DEV (clamped velocity) w2 = ((0, ""), w3) ->
    SL_Get driver DEV w3 = ((0, lo, ""), w4) ->
    SR_Get driver DEV w4 = ((0, hi, ""), w5) ->
    TP driver DEV w5 = ((0, cur_mm, ""), w6) ->
    init driver com_port velocity s =
      (Return tt,
       mkSt w6 (clock s)
         (trace s ++ [Call_OpenInstrument com_port;
                      Call_VA_Set DEV (clamped velocity);
                      Call_OH_Set DEV (clamped velocity);
                      Call_SL_Get DEV; Call_SR_Get DEV; Call_TP DEV])
         (Some lo) (Some hi)).
Proof.
  intros W driver s com_port velocity w1 w2 w3 w4 w5 w6 lo hi cur_mm
         Hopen Hva Hoh Hsl Hsr Htp.
  unfold init.
  rewrite (bind_Return _ _ _ _ _ (invoke_eq _ _ _ _ _ Hopen)).
  change (negb (0 =? 0)%Z) with false. cbv iota.
  rewrite (bind_Return _ _ _ _ _
             (velocity_setter_ok driver (logged (Call_OpenInstrument com_port) w1 s)
                velocity w2 Hva)).
  rewrite (bind_Return _ _ _ _ _
             (set_homing_velocity_ok driver
                (logged (Call_VA_Set DEV (clamped velocity)) w2
                   (logged (Call_OpenInstrument com_port) w1 s))
                velocity w3 Hoh)).
  unfold bind at 1, clear_limits.
  erewrite bind_Return by (apply (get_limits_caches driver _ lo hi w4 w5);
                           cbn [world logged]; assumption).
  erewrite bind_Return by (apply (cur_pos_mm_ok driver _ cur_mm w6);
                           cbn [world]; exact Htp).
  unfold ret, logged. cbn [world clock trace min_limit max_limit].
  now rewrite <- !app_assoc.
Qed.

(** A velocity of 0.9 is sent as 0.4, twice. *)
Lemma init_sequence_witness :
  init (fixed_driver "0A" 1) "COM3" 0.9 (start tt) =
    (Return tt,
     mkSt tt 0
       [Call_OpenInstrument "COM3"; Call_VA_Set DEV 0.4; Call_OH_Set DEV 0.4;
        Call_SL_Get DEV; Call_SR_Get DEV; Call_TP DEV]
       (Some 0%float) (Some 25%float)).
Proof.
  exact (init_sequence (fixed_driver "0A" 1) (start tt) "COM3" 0.9%float
           tt tt tt tt tt tt 0%float 25%float 1%float
           eq_refl eq_refl eq_refl eq_refl eq_refl eq_refl).
Defined.


(** ** Which exceptions a method raises *)

Section Raises.

Context {W : Type}.
Variable Q : exn -> Prop.

Lemma raises_only_ret {A} (a : A) : raises_only Q (@ret W A a).
Proof. intros s e s' H. discriminate H. Qed.

Lemma raises_only_raise {A} e : Q e -> raises_only Q (@raise W A e).
Proof. intros Hq s e' s' H. injection H as <- _. exact Hq. Qed.

Lemma raises_only_out_of_fuel {A} : raises_only Q (@out_of_fuel W A).
Proof. intros s e s' H. discriminate H. Qed.

Lemma raises_only_time_time : raises_only Q (@time_time W).
Proof. intros s e s' H. discriminate H. Qed.

Lemma raises_only_sleep d : raises_only Q (@sleep W d).
Proof. intros s e s' H. discriminate H. Qed.

Lemma raises_only_invoke {A} c (f : W -> A * W) : raises_only Q (invoke c f).
Proof.
  intros s e s'. unfold invoke. destruct (f (world s)) as [a w']. discriminate.
Qed.

Lemma raises_only_bind {A B} (m : M W A) (f : A -> M W B) :
  raises_only Q m -> (forall a, raises_only Q (f a)) -> raises_only Q (bind m f).
Proof.
  intros Hm Hf s e s'. unfold bind.
  destruct (m s) as [[a|e0|] s1] eqn:E; intros H.
  - exact (Hf a s1 e s' H).
  - injection H as <- _. exact (Hm s e0 s1 E).
  - discriminate H.
Qed.

Lemma raises_only_wait_loop (on_timeout : M W unit) (check : M W bool)
    time_start timeout fuel :
  raises_only Q on_timeout -> raises_only Q check ->
  forall done, raises_only Q (wait_loop on_timeout check time_start timeout fuel done).
Proof.
  intros Ht Hc. induction fuel as [|fuel IH]; intros done.
  - destruct done; [rewrite wait_loop_done; apply raises_only_ret
                   | rewrite wait_loop_O; apply raises_only_out_of_fuel].
  - destruct done; [rewrite wait_loop_done; apply raises_only_ret | rewrite wait_loop_S].
    apply raises_only_bind; [apply raises_only_time_time|intros now].
    destruct (1000 * timeout <? now - time_start)%Z; [exact Ht|].
    apply raises_only_bind; [apply raises_only_sleep|intros _].
    apply raises_only_bind; [exact Hc|intros done']. apply IH.
Qed.

End Raises.

Lemma raises_only_weaken {W A} (Q Q' : exn -> Prop) (m : M W A) :
  (forall e, Q e -> Q' e) -> raises_only Q m -> raises_only Q' m.
Proof. intros H Hm s e s' E. exact (H e (Hm s e s' E)). Qed.

Ltac only_raises :=
  repeat first
    [ apply raises_only_ret
    | apply raises_only_out_of_fuel
    | apply raises_only_time_time
    | apply raises_only_sleep
    | apply raises_only_invoke
    | apply raises_only_bind; [|intros]
    | match goal with
      | |- raises_only _ (let (_, _) := ?x in _) => destruct x
      | |- raises_only _ (if ?b then _ else _) => destruct b
      end
    | solve [let H := fresh in intros ? ? ? H; discriminate H]
    | apply raises_only_raise ].

Section RaisesMethods.

Context {W : Type}.
Variable driver : Driver W.

Lemma raises_get_limits : raises_only communication_error (get_limits driver).
Proof. unfold get_limits, set_min_limit, set_max_limit. only_raises; reflexivity. Qed.

Lemma raises_set_state st : raises_only communication_error (set_state driver st).
Proof. unfold set_state. only_raises; reflexivity. Qed.

Lemma raises_set_homing_velocity v :
  raises_only communication_error (set_homing_velocity driver v).
Proof. unfold set_homing_velocity. only_raises; reflexivity. Qed.

Lemma raises_velocity_setter v : raises_only communication_error (velocity_setter driver v).
Proof. unfold velocity_setter. only_raises; reflexivity. Qed.

Lemma raises_velocity : raises_only communication_error (velocity driver).
Proof. unfold velocity. only_raises; reflexivity. Qed.

Lemma raises_init_position_async :
  raises_only communication_error (init_position_async driver).
Proof. unfold init_position_async. only_raises; reflexivity. Qed.

Lemma raises_cur_pos_mm : raises_only communication_error (cur_pos_mm driver).
Proof. unfold cur_pos_mm. only_raises; reflexivity. Qed.

Lemma raises_cur_pos : raises_only communication_error (cur_pos driver).
Proof.
  unfold cur_pos. apply raises_only_bind; [apply raises_cur_pos_mm|intros; only_raises].
Qed.

Lemma raises_get_state : raises_only communication_error (get_state driver).
Proof. unfold get_state. only_raises; reflexivity. Qed.

Lemma raises_state : raises_only communication_error (state driver).
Proof.
  unfold state. apply raises_only_bind; [apply raises_get_state|intros; only_raises].
Qed.

Lemma raises_error : raises_only communication_error (error driver).
Proof.
  unfold error. apply raises_only_bind; [apply raises_get_state|intros; only_raises].
Qed.

Lemma raises_is_ready : raises_only communication_error (is_ready driver).
Proof.
  unfold is_ready. apply raises_only_bind; [apply raises_state|intros; only_raises].
Qed.

Lemma raises_close : raises_only communication_error (close driver).
Proof. unfold close. only_raises. Qed.

Lemma raises_init com_port v : raises_only communication_error (init driver com_port v).
Proof.
  unfold init.
  apply raises_only_bind; [apply raises_only_invoke|intros r].
  destruct (negb (r =? 0)%Z); [apply raises_only_raise; reflexivity|].
  apply raises_only_bind; [apply raises_velocity_setter|intros _].
  apply raises_only_bind; [apply raises_set_homing_velocity|intros _].
  apply raises_only_bind; [intros s e s' H; discriminate H|intros _].
  apply raises_only_bind; [apply raises_get_limits|intros _].
  apply raises_only_bind; [apply raises_cur_pos_mm|intros _].
  apply raises_only_ret.
Qed.

Lemma raises_init_position_sync fuel :
  forall timeout n_retry,
    raises_only (fun e => communication_error e \/ e = CCMotorTimeoutError timeout)
      (init_position_sync driver fuel timeout n_retry).
Proof.
  induction fuel as [|fuel IH]; intros timeout n_retry;
    [apply raises_only_out_of_fuel | rewrite init_position_sync_S].
  apply raises_only_bind;
    [eapply raises_only_weaken; [|apply raises_init_position_async]; now left|intros _].
  apply raises_only_bind; [apply raises_only_time_time|intros time_start].
  apply raises_only_wait_loop.
  - destruct (0 <? n_retry)%Z; [apply IH | apply raises_only_raise; now right].
  - eapply raises_only_weaken; [|apply raises_is_ready]. now left.
Qed.

Lemma raises_move_relative_async d : raises_only move_error (move_relative_async driver d).
Proof.
  unfold move_relative_async.
  apply raises_only_bind;
    [eapply raises_only_weaken; [|apply raises_cur_pos]; now left|intros cur].
  destruct (MAX_RUN <? cur + d)%float;
    [apply raises_only_raise; right; right; now left|].
  apply raises_only_bind;
    [eapply raises_only_weaken; [|apply raises_is_ready]; now left|intros ready].
  destruct (negb ready).
  - apply raises_only_bind;
      [eapply raises_only_weaken; [|apply raises_state]; now left|intros st].
    apply raises_only_raise. right. now left.
  - apply raises_only_bind; [apply raises_only_invoke|intros [res err_str]].
    destruct (faulty res err_str); [|apply raises_only_ret].
    apply raises_only_raise. right. right. right. now exists err_str.
Qed.

Lemma raises_move_absolute_async x : raises_only move_error (move_absolute_async driver x).
Proof.
  unfold move_absolute_async.
  destruct (MAX_RUN <? x)%float;
    [apply raises_only_raise; right; right; now left|].
  apply raises_only_bind;
    [eapply raises_only_weaken; [|apply raises_is_ready]; now left|intros ready].
  destruct (negb ready).
  - apply raises_only_bind;
      [eapply raises_only_weaken; [|apply raises_state]; now left|intros st].
    apply raises_only_raise. right. now left.
  - apply raises_only_bind; [apply raises_only_invoke|intros [res err_str]].
    destruct (faulty res err_str); [|apply raises_only_ret].
    apply raises_only_raise. right. right. right. now exists err_str.
Qed.

Lemma raises_move_relative_sync fuel d timeout :
  raises_only (fun e => move_error e \/ e = CCMotorTimeoutError timeout)
    (move_relative_sync driver fuel d timeout).
Proof.
  unfold move_relative_sync.
  apply raises_only_bind;
    [eapply raises_only_weaken; [|apply raises_move_relative_async]; now left|intros _].
  apply raises_only_bind; [apply raises_only_time_time|intros time_start].
  apply raises_only_wait_loop.
  - apply raises_only_raise. now right.
  - eapply raises_only_weaken; [|apply raises_is_ready]. intros e He. left. now left.
Qed.

Lemma raises_move_absolute_sync fuel x :
  forall timeout n_retry,
    raises_only (fun e => move_error e \/ e = CCMotorTimeoutError timeout
                          \/ e = CCMotorTimeoutError 30)
      (move_absolute_sync driver fuel x timeout n_retry).
Proof.
  induction fuel as [|fuel IH]; intros timeout n_retry;
    [apply raises_only_out_of_fuel | rewrite move_absolute_sync_S].
  apply raises_only_bind;
    [eapply raises_only_weaken; [|apply raises_move_absolute_async]; now left|intros _].
  apply raises_only_bind; [apply raises_only_time_time|intros time_start].
  apply raises_only_wait_loop.
  - destruct (0 <? n_retry)%Z; [|apply raises_only_raise; right; now left].
    apply raises_only_bind;
      [eapply raises_only_weaken; [|apply raises_set_state];
       intros e He; left; now left|intros _].
    apply raises_only_bind; [|intros _; apply IH].
    eapply raises_only_weaken; [|apply raises_init_position_sync].
    intros e [He| ->]; [left; now left | right; now right].
  - apply raises_only_bind;
      [eapply raises_only_weaken; [|apply raises_state];
       intros e He; left; now left|intros st; apply raises_only_ret].
Qed.

End RaisesMethods.

(** X11.  The exceptions of the class, whatever the transport does.  The
    queries, the setters, [get_limits], [init_position_async], [close] and
    the constructor raise nothing but [CCMotorCommunicationError].
    [init_position_sync] raises that or [CCMotorTimeoutError] carrying its
    own [timeout].  The asynchronous moves raise a communication, state or
    range error of the module, or the builtin [ValueError] whose message
    starts with "Move went wrong: "; the synchronous moves raise these or
    [CCMotorTimeoutError], which carries the [timeout] argument or, from
    [move_absolute_sync], the 30 of the recovery's homing. *)
Theorem exceptions_of_the_class :
  forall {W} (driver : Driver W),
    (raises_only communication_error (get_limits driver) /\
     (forall st, raises_only communication_error (set_state driver st)) /\
     (forall v, raises_only communication_error (set_homing_velocity driver v)) /\
     (forall v, raises_only communication_error (velocity_setter driver v)) /\
     raises_only communication_error (velocity driver) /\
     raises_only communication_error (init_position_async driver) /\
     raises_only communication_error (cur_pos_mm driver) /\
     raises_only communication_error (cur_pos driver) /\
     raises_only communication_error (get_state driver) /\
     raises_only communication_error (state driver) /\
     raises_only communication_error (error driver) /\
     raises_only communication_error (is_ready driver) /\
     raises_only communication_error (close driver) /\
     (forall com_port v, raises_only communication_error (init driver com_port v)))
    /\
    (forall fuel timeout n_retry,
        raises_only (fun e => communication_error e \/ e = CCMotorTimeoutError timeout)
          (init_position_sync driver fuel timeout n_retry))
    /\
    (forall d, raises_only move_error (move_relative_async driver d)) /\
    (forall x, raises_only move_error (move_absolute_async driver x)) /\
    (forall fuel d timeout,
        raises_only (fun e => move_error e \/ e = CCMotorTimeoutError timeout)
          (move_relative_sync driver fuel d timeout)) /\
    (forall fuel x timeout n_retry,
        raises_only (fun e => move_error e \/ e = CCMotorTimeoutError timeout
                              \/ e = CCMotorTimeoutError 30)
          (move_absolute_sync driver fuel x timeout n_retry)).
Proof.
  intros W driver. split; [|split; [|split; [|split; [|split]]]].
  - repeat split; intros.
    + apply raises_get_limits.
    + apply raises_set_state.
    + apply raises_set_homing_velocity.
    + apply raises_velocity_setter.
    + apply raises_velocity.
    + apply raises_init_position_async.
    + apply raises_cur_pos_mm.
    + apply raises_cur_pos.
    + apply raises_get_state.
    + apply raises_state.
    + apply raises_error.
    + apply raises_is_ready.
    + apply raises_close.
    + apply raises_init.
  - intros. apply raises_init_position_sync.
  - intros. apply raises_move_relative_async.
  - intros. apply raises_move_absolute_async.
  - intros. apply raises_move_relative_sync.
  - intros. apply raises_move_absolute_sync.
Qed.

(** ** How many commands a method sends *)

Section AtMost.

Context {W : Type}.
Variable p : call -> bool.

Lemma emits_at_most_silent {A} (m : M W A) n :
  (forall s, trace (snd (m s)) = trace s) -> emits_at_most p n m.
Proof.
  intros H s. exists []. split; [now rewrite H, app_nil_r | cbn; lia].
Qed.

Lemma emits_at_most_ret {A} (a : A) n : emits_at_most p n (@ret W A a).
Proof. now apply emits_at_most_silent. Qed.

Lemma emits_at_most_raise {A} e n : emits_at_most p n (@raise W A e).
Proof. now apply emits_at_most_silent. Qed.

Lemma emits_at_most_out_of_fuel {A} n : emits_at_most p n (@out_of_fuel W A).
Proof. now apply emits_at_most_silent. Qed.

Lemma emits_at_most_time_time n : emits_at_most p n (@time_time W).
Proof. now apply emits_at_most_silent. Qed.

Lemma emits_at_most_sleep d n : emits_at_most p n (@sleep W d).
Proof. now apply emits_at_most_silent. Qed.

Lemma emits_at_most_invoke {A} c (f : W -> A * W) n :
  (weight p c <= n)%nat -> emits_at_most p n (invoke c f).
Proof.
  intros H s. exists [c]. unfold invoke. destruct (f (world s)) as [a w'].
  split; [reflexivity|]. unfold weight in H. unfold count. cbn [filter].
  destruct (p c); cbn; lia.
Qed.

Lemma emits_at_most_bind {A B} n1 n2 (m : M W A) (f : A -> M W B) n :
  emits_at_most p n1 m -> (forall a, emits_at_most p n2 (f a)) ->
  (n1 + n2 <= n)%nat ->
  emits_at_most p n (bind m f).
Proof.
  intros Hm Hf Hn s. destruct (Hm s) as (evs & E & C). unfold bind.
  destruct (m s) as [[a|e|] s1]; cbn [snd] in *.
  - destruct (Hf a s1) as (evs' & E' & C').
    exists (evs ++ evs'). split; [now rewrite E', E, app_assoc|].
    rewrite count_app. lia.
  - exists evs. split; [exact E | lia].
  - exists evs. split; [exact E | lia].
Qed.

Lemma emits_at_most_weaken {A} n n' (m : M W A) :
  (n <= n')%nat -> emits_at_most p n m -> emits_at_most p n' m.
Proof.
  intros Hn Hm s. destruct (Hm s) as (evs & E & C). exists evs. split; [exact E | lia].
Qed.

Lemma emits_at_most_wait_loop (on_timeout : M W unit) (check : M W bool)
    time_start timeout fuel n :
  emits_at_most p n on_timeout -> emits_at_most p 0 check ->
  forall done, emits_at_most p n (wait_loop on_timeout check time_start timeout fuel done).
Proof.
  intros Ht Hc. induction fuel as [|fuel IH]; intros done.
  - destruct done; [rewrite wait_loop_done; apply emits_at_most_ret
                   | rewrite wait_loop_O; apply emits_at_most_out_of_fuel].
  - destruct done; [rewrite wait_loop_done; apply emits_at_most_ret | rewrite wait_loop_S].
    apply (emits_at_most_bind 0 n); [apply emits_at_most_time_time | intros now | lia].
    destruct (1000 * timeout <? now - time_start)%Z; [exact Ht|].
    apply (emits_at_most_bind 0 n); [apply emits_at_most_sleep | intros _ | lia].
    apply (emits_at_most_bind 0 n); [exact Hc | intros done'; apply IH | lia].
Qed.

End AtMost.

Section AtMostMethods.

Context {W : Type}.
Variable driver : Driver W.
Variable p : call -> bool.
Hypothesis p_TS : p (Call_TS DEV) = false.

Lemma emits_at_most_state n : emits_at_most p n (state driver).
Proof.
  unfold state, get_state.
  apply (emits_at_most_bind p 0 0); [|intros se; apply emits_at_most_ret|lia].
  apply (emits_at_most_bind p 0 0); [|intros [[[res err] st] err_str]|lia].
  - apply emits_at_most_invoke. unfold weight. rewrite p_TS. lia.
  - destruct (negb (String.length err_str =? 0)%nat);
      [apply emits_at_most_raise | apply emits_at_most_ret].
Qed.

Lemma emits_at_most_is_ready n : emits_at_most p n (is_ready driver).
Proof.
  unfold is_ready.
  apply (emits_at_most_bind p 0 0);
    [apply emits_at_most_state | intros; apply emits_at_most_ret | lia].
Qed.

Lemma emits_at_most_set_state st : emits_at_most p (weight p (Call_MM_Set DEV st)) (set_state driver st).
Proof.
  unfold set_state.
  apply (emits_at_most_bind p (weight p (Call_MM_Set DEV st)) 0);
    [now apply emits_at_most_invoke | intros [res err_str] | lia].
  destruct (faulty res err_str); [apply emits_at_most_raise | apply emits_at_most_ret].
Qed.

Lemma emits_at_most_init_position_async :
  emits_at_most p (weight p (Call_OR DEV)) (init_position_async driver).
Proof.
  unfold init_position_async.
  apply (emits_at_most_bind p (weight p (Call_OR DEV)) 0);
    [now apply emits_at_most_invoke | intros [res err_str] | lia].
  destruct (faulty res err_str); [apply emits_at_most_raise | apply emits_at_most_ret].
Qed.

(** One homing command per attempt, and at most [n_retry + 1] attempts. *)
Lemma emits_at_most_init_position_sync fuel :
  forall timeout n_retry,
    emits_at_most p (weight p (Call_OR DEV) * (Z.to_nat n_retry + 1))
      (init_position_sync driver fuel timeout n_retry).
Proof.
  induction fuel as [|fuel IH]; intros timeout n_retry;
    [apply emits_at_most_out_of_fuel | rewrite init_position_sync_S].
  apply (emits_at_most_bind p (weight p (Call_OR DEV))
           (weight p (Call_OR DEV) * Z.to_nat n_retry));
    [apply emits_at_most_init_position_async | intros _ | lia].
  apply (emits_at_most_bind p 0 (weight p (Call_OR DEV) * Z.to_nat n_retry));
    [apply emits_at_most_time_time | intros time_start | lia].
  apply emits_at_most_wait_loop; [|apply emits_at_most_is_ready].
  destruct (0 <? n_retry)%Z eqn:E; [|apply emits_at_most_raise].
  apply Z.ltb_lt in E.
  eapply emits_at_most_weaken; [|apply IH].
  replace (Z.to_nat (n_retry - 1) + 1)%nat with (Z.to_nat n_retry) by lia. lia.
Qed.

Hypothesis p_TP : p (Call_TP DEV) = false.

Lemma emits_at_most_cur_pos n : emits_at_most p n (cur_pos driver).
Proof.
  unfold cur_pos, cur_pos_mm.
  apply (emits_at_most_bind p 0 0); [|intros mm; apply emits_at_most_ret|lia].
  apply (emits_at_most_bind p 0 0); [|intros [[res resp] err_str]|lia].
  - apply emits_at_most_invoke. unfold weight. rewrite p_TP. lia.
  - destruct (faulty res err_str); [apply emits_at_most_raise | apply emits_at_most_ret].
Qed.

Lemma emits_at_most_move_relative_async d :
  emits_at_most p (weight p (Call_PR_Set DEV (1e-3 * d)%float)) (move_relative_async driver d).
Proof.
  unfold move_relative_async.
  apply (emits_at_most_bind p 0 (weight p (Call_PR_Set DEV (1e-3 * d)%float)));
    [apply emits_at_most_cur_pos | intros cur | lia].
  destruct (MAX_RUN <? cur + d)%float; [apply emits_at_most_raise|].
  apply (emits_at_most_bind p 0 (weight p (Call_PR_Set DEV (1e-3 * d)%float)));
    [apply emits_at_most_is_ready | intros ready | lia].
  destruct (negb ready).
  - apply (emits_at_most_bind p 0 0);
      [apply emits_at_most_state | intros; apply emits_at_most_raise | lia].
  - apply (emits_at_most_bind p (weight p (Call_PR_Set DEV (1e-3 * d)%float)) 0);
      [now apply emits_at_most_invoke | intros [res err_str] | lia].
    destruct (faulty res err_str); [apply emits_at_most_raise | apply emits_at_most_ret].
Qed.

Lemma emits_at_most_move_relative_sync fuel d timeout :
  emits_at_most p (weight p (Call_PR_Set DEV (1e-3 * d)%float))
    (move_relative_sync driver fuel d timeout).
Proof.
  unfold move_relative_sync.
  apply (emits_at_most_bind p (weight p (Call_PR_Set DEV (1e-3 * d)%float)) 0);
    [apply emits_at_most_move_relative_async | intros _ | lia].
  apply (emits_at_most_bind p 0 0); [apply emits_at_most_time_time | intros ts | lia].
  apply emits_at_most_wait_loop; [apply emits_at_most_raise | apply emits_at_most_is_ready].
Qed.

Lemma emits_at_most_move_absolute_async x :
  emits_at_most p (weight p (Call_PA_Set DEV (1e-3 * x)%float)) (move_absolute_async driver x).
Proof.
  unfold move_absolute_async.
  destruct (MAX_RUN <? x)%float; [apply emits_at_most_raise|].
  apply (emits_at_most_bind p 0 (weight p (Call_PA_Set DEV (1e-3 * x)%float)));
    [apply emits_at_most_is_ready | intros ready | lia].
  destruct (negb ready).
  - apply (emits_at_most_bind p 0 0);
      [apply emits_at_most_state | intros; apply emits_at_most_raise | lia].
  - apply (emits_at_most_bind p (weight p (Call_PA_Set DEV (1e-3 * x)%float)) 0);
      [now apply emits_at_most_invoke | intros [res err_str] | lia].
    destruct (faulty res err_str); [apply emits_at_most_raise | apply emits_at_most_ret].
Qed.

(** One move per attempt, at most [n_retry + 1] attempts, and between two
    attempts one enable command and a homing of at most four attempts. *)
Lemma emits_at_most_move_absolute_sync fuel x :
  forall timeout n_retry,
    emits_at_most p
      (weight p (Call_PA_Set DEV (1e-3 * x)%float) * (Z.to_nat n_retry + 1)
       + (weight p (Call_MM_Set DEV 1) + weight p (Call_OR DEV) * 4) * Z.to_nat n_retry)
      (move_absolute_sync driver fuel x timeout n_retry).
Proof.
  induction fuel as [|fuel IH]; intros timeout n_retry;
    [apply emits_at_most_out_of_fuel | rewrite move_absolute_sync_S].
  set (b := weight p (Call_PA_Set DEV (1e-3 * x)%float)).
  set (r := (weight p (Call_MM_Set DEV 1) + weight p (Call_OR DEV) * 4)%nat).
  apply (emits_at_most_bind p b (b * Z.to_nat n_retry + r * Z.to_nat n_retry));
    [apply emits_at_most_move_absolute_async | intros _ | lia].
  apply (emits_at_most_bind p 0 (b * Z.to_nat n_retry + r * Z.to_nat n_retry));
    [apply emits_at_most_time_time | intros time_start | lia].
  apply emits_at_most_wait_loop;
    [| apply (emits_at_most_bind p 0 0);
       [apply emits_at_most_state | intros; apply emits_at_most_ret | lia]].
  destruct (0 <? n_retry)%Z eqn:E; [|apply emits_at_most_raise].
  apply Z.ltb_lt in E.
  apply (emits_at_most_bind p (weight p (Call_MM_Set DEV 1))
           (weight p (Call_OR DEV) * 4
            + (b * (Z.to_nat (n_retry - 1) + 1) + r * Z.to_nat (n_retry - 1))));
    [apply emits_at_most_set_state | intros _ |].
  - apply (emits_at_most_bind p (weight p (Call_OR DEV) * 4)
             (b * (Z.to_nat (n_retry - 1) + 1) + r * Z.to_nat (n_retry - 1)));
      [apply (emits_at_most_init_position_sync fuel 30 3) | intros _; apply IH | lia].
  - replace (Z.to_nat n_retry) with (S (Z.to_nat (n_retry - 1))) by lia.
    unfold r. lia.
Qed.

End AtMostMethods.

Section EmitsOnly.

Context {W : Type}.
Variable driver : Driver W.
Variable P : call -> Prop.
Hypothesis P_TS : P (Call_TS DEV).

Lemma only_emits_state_query : only_emits P (state driver).
Proof. unfold state, get_state. emits. exact P_TS. Qed.

Lemma only_emits_ready_query : only_emits P (is_ready driver).
Proof.
  unfold is_ready. apply only_emits_bind; [apply only_emits_state_query | intros; emits].
Qed.

Lemma only_emits_homing fuel :
  P (Call_OR DEV) ->
  forall timeout n_retry, only_emits P (init_position_sync driver fuel timeout n_retry).
Proof.
  intros P_OR. induction fuel as [|fuel IH]; intros timeout n_retry;
    [simpl; emits | rewrite init_position_sync_S].
  apply only_emits_bind; [unfold init_position_async; emits; exact P_OR | intros _].
  apply only_emits_bind; [emits|intros time_start].
  apply only_emits_wait_loop; [|apply only_emits_ready_query].
  destruct (0 <? n_retry)%Z; [apply IH | emits].
Qed.

Lemma only_emits_relative_move fuel d timeout :
  P (Call_TP DEV) -> P (Call_PR_Set DEV (1e-3 * d)%float) ->
  only_emits P (move_relative_sync driver fuel d timeout).
Proof.
  intros P_TP P_PR. unfold move_relative_sync.
  apply only_emits_bind; [|intros _].
  - unfold move_relative_async.
    apply only_emits_bind; [unfold cur_pos, cur_pos_mm; emits; exact P_TP | intros cur].
    destruct (MAX_RUN <? cur + d)%float; [emits|].
    apply only_emits_bind; [apply only_emits_ready_query | intros ready].
    destruct (negb ready).
    + apply only_emits_bind; [apply only_emits_state_query | intros; emits].
    + emits. exact P_PR.
  - apply only_emits_bind; [emits|intros time_start].
    apply only_emits_wait_loop; [emits | apply only_emits_ready_query].
Qed.

End EmitsOnly.

(** X12.  Bounded retry of the homing, whatever the transport does:
    [init_position_sync] sends the homing command at most [n_retry + 1]
    times (once when [n_retry] is zero or negative), and every call it makes
    is that command or a state query: it never moves or enables the axis. *)
Theorem init_position_sync_bounded :
  forall {W} (driver : Driver W) (fuel : nat) (timeout n_retry : Z),
    emits_at_most is_home (Z.to_nat n_retry + 1) (init_position_sync driver fuel timeout n_retry)
    /\ only_emits homing_call (init_position_sync driver fuel timeout n_retry).
Proof.
  intros W driver fuel timeout n_retry. split.
  - eapply emits_at_most_weaken;
      [|apply (emits_at_most_init_position_sync driver is_home eq_refl)].
    cbn [weight is_home]. lia.
  - apply only_emits_homing; [now right | now left].
Qed.

(** X13.  Bounded retry of the absolute move, whatever the transport does:
    [move_absolute_sync] sends at most [n_retry + 1] move commands, at most
    [n_retry] enable commands and at most [4 * n_retry] homing commands
    (one move and nothing else when [n_retry] is zero or negative). *)
Theorem move_absolute_sync_bounded :
  forall {W} (driver : Driver W) (fuel : nat) (new_pos : float) (timeout n_retry : Z),
    emits_at_most is_move (Z.to_nat n_retry + 1)
      (move_absolute_sync driver fuel new_pos timeout n_retry)
    /\ emits_at_most is_enable (Z.to_nat n_retry)
      (move_absolute_sync driver fuel new_pos timeout n_retry)
    /\ emits_at_most is_home (4 * Z.to_nat n_retry)
      (move_absolute_sync driver fuel new_pos timeout n_retry).
Proof.
  intros W driver fuel new_pos timeout n_retry. split; [|split].
  - eapply emits_at_most_weaken;
      [|apply (emits_at_most_move_absolute_sync driver is_move eq_refl)].
    cbn [weight is_move is_home]. lia.
  - eapply emits_at_most_weaken;
      [|apply (emits_at_most_move_absolute_sync driver is_enable eq_refl)].
    cbn [weight is_enable]. change (is_enable (Call_MM_Set DEV 1)) with true.
    cbv iota. lia.
  - eapply emits_at_most_weaken;
      [|apply (emits_at_most_move_absolute_sync driver is_home eq_refl)].
    cbn [weight is_home]. lia.
Qed.

(** X14.  [move_relative_sync] never retries and never recovers, whatever
    the transport does: it sends at most one move command, and every call it
    makes is the position query, a state query or the relative move by
    [1e-3 * distance_um]; it sends no homing and no enable command. *)
Theorem move_relative_sync_bounded :
  forall {W} (driver : Driver W) (fuel : nat) (distance_um : float) (timeout : Z),
    emits_at_most is_move 1 (move_relative_sync driver fuel distance_um timeout)
    /\ only_emits (relative_move_call distance_um)
         (move_relative_sync driver fuel distance_um timeout).
Proof.
  intros W driver fuel distance_um timeout. split.
  - exact (emits_at_most_move_relative_sync driver is_move eq_refl eq_refl
             fuel distance_um timeout).
  - apply only_emits_relative_move; unfold relative_move_call; auto.
Qed.

(** ** How long a method sleeps *)

Section Sleeps.

Context {W : Type}.

Lemma bind_unfold {A B} (m : M W A) (f : A -> M W B) s :
  bind m f s =
  match m s with
  | (Return a, s') => f a s'
  | (Raise e, s') => (Raise e, s')
  | (OutOfFuel, s') => (OutOfFuel, s')
  end.
Proof. reflexivity. Qed.

Lemma sleeps_at_most_still {A} (m : M W A) d :
  0 <= d -> (forall s, clock (snd (m s)) = clock s) -> sleeps_at_most d m.
Proof. intros Hd H s. rewrite H. lia. Qed.

Lemma sleeps_at_most_ret {A} (a : A) : sleeps_at_most 0 (@ret W A a).
Proof. now apply sleeps_at_most_still. Qed.

Lemma sleeps_at_most_raise {A} e : sleeps_at_most 0 (@raise W A e).
Proof. now apply sleeps_at_most_still. Qed.

Lemma sleeps_at_most_out_of_fuel {A} : sleeps_at_most 0 (@out_of_fuel W A).
Proof. now apply sleeps_at_most_still. Qed.

Lemma sleeps_at_most_time_time : sleeps_at_most 0 (@time_time W).
Proof. now apply sleeps_at_most_still. Qed.

Lemma sleeps_at_most_invoke {A} c (f : W -> A * W) : sleeps_at_most 0 (invoke c f).
Proof.
  apply sleeps_at_most_still; [lia|]. intros s. unfold invoke.
  now destruct (f (world s)).
Qed.

Lemma sleeps_at_most_bind {A B} d1 d2 (m : M W A) (f : A -> M W B) d :
  sleeps_at_most d1 m -> (forall a, sleeps_at_most d2 (f a)) ->
  0 <= d2 -> d1 + d2 <= d ->
  sleeps_at_most d (bind m f).
Proof.
  intros Hm Hf H2 Hd s. pose proof (Hm s) as Hs. rewrite bind_unfold.
  destruct (m s) as [[a|e|] s1]; cbn [snd] in *.
  - pose proof (Hf a s1). lia.
  - lia.
  - lia.
Qed.

Lemma sleeps_at_most_weaken {A} d d' (m : M W A) :
  d <= d' -> sleeps_at_most d m -> sleeps_at_most d' m.
Proof. intros Hd Hm s. pose proof (Hm s). lia. Qed.

Lemma wait_loop_expired (on_timeout : M W unit) check time_start timeout fuel (s : St W) :
  (1000 * timeout <? clock s - time_start)%Z = true ->
  wait_loop on_timeout check time_start timeout (S fuel) false s = on_timeout s.
Proof. intros E. rewrite wait_loop_S. unfold bind at 1, time_time. now rewrite E. Qed.

Lemma wait_loop_polls (on_timeout : M W unit) check time_start timeout fuel (s : St W) :
  (1000 * timeout <? clock s - time_start)%Z = false ->
  wait_loop on_timeout check time_start timeout (S fuel) false s =
  bind check (wait_loop on_timeout check time_start timeout fuel)
    (slept MOVEMENT_SLEEP_TIME s).
Proof. intros E. rewrite wait_loop_S. unfold bind at 1, time_time. now rewrite E. Qed.

(** The loop sleeps only while the deadline has not passed. *)
Lemma wait_loop_bound (on_timeout : M W unit) (check : M W bool) time_start timeout D :
  sleeps_at_most 0 check -> sleeps_at_most D on_timeout -> 0 <= D ->
  forall fuel done (s : St W),
    clock s <= clock (snd (wait_loop on_timeout check time_start timeout fuel done s))
    <= Z.max (clock s) (time_start + 1000 * timeout + MOVEMENT_SLEEP_TIME) + D.
Proof.
  intros Hc Ht HD. induction fuel as [|fuel IH]; intros done s.
  - destruct done; [rewrite wait_loop_done | rewrite wait_loop_O]; cbn; lia.
  - destruct done; [rewrite wait_loop_done; cbn; lia|].
    destruct (1000 * timeout <? clock s - time_start)%Z eqn:E.
    + rewrite (wait_loop_expired on_timeout check time_start timeout fuel s E).
      pose proof (Ht s). lia.
    + rewrite (wait_loop_polls on_timeout check time_start timeout fuel s E).
      apply Z.ltb_ge in E. rewrite bind_unfold.
      pose proof (Hc (slept MOVEMENT_SLEEP_TIME s)) as Hk.
      destruct (check (slept MOVEMENT_SLEEP_TIME s)) as [[done'|e|] s1];
        cbn [snd slept clock] in *; unfold MOVEMENT_SLEEP_TIME in *.
      * pose proof (IH done' s1). lia.
      * lia.
      * lia.
Qed.

End Sleeps.

Ltac still :=
  repeat first
    [ apply sleeps_at_most_ret
    | apply sleeps_at_most_raise
    | apply sleeps_at_most_out_of_fuel
    | apply sleeps_at_most_time_time
    | apply sleeps_at_most_invoke
    | apply (sleeps_at_most_bind 0 0); [|intros|lia|lia]
    | match goal with
      | |- sleeps_at_most _ (let (_, _) := ?x in _) => destruct x
      | |- sleeps_at_most _ (if ?b then _ else _) => destruct b
      end ].

Lemma wait_bound_nonneg timeout : 0 <= wait_bound timeout.
Proof. unfold wait_bound. lia. Qed.

Section SleepsMethods.

Context {W : Type}.
Variable driver : Driver W.

Lemma still_state : sleeps_at_most 0 (state driver).
Proof. unfold state, get_state. still. Qed.

Lemma still_is_ready : sleeps_at_most 0 (is_ready driver).
Proof. unfold is_ready, state, get_state. still. Qed.

Lemma still_set_state st : sleeps_at_most 0 (set_state driver st).
Proof. unfold set_state. still. Qed.

Lemma still_init_position_async : sleeps_at_most 0 (init_position_async driver).
Proof. unfold init_position_async. still. Qed.

Lemma still_move_relative_async d : sleeps_at_most 0 (move_relative_async driver d).
Proof.
  unfold move_relative_async, cur_pos, cur_pos_mm, is_ready, state, get_state. still.
Qed.

Lemma still_move_absolute_async x : sleeps_at_most 0 (move_absolute_async driver x).
Proof. unfold move_absolute_async, is_ready, state, get_state. still. Qed.

(** A method that does not sleep, followed by a polling loop entered at its
    start time. *)
Lemma sleeps_then_waits (m : M W unit) (on_timeout : M W unit) (check : M W bool)
    timeout fuel D :
  sleeps_at_most 0 m -> sleeps_at_most 0 check -> sleeps_at_most D on_timeout -> 0 <= D ->
  sleeps_at_most (wait_bound timeout + D)
    (m ;; time_start <- time_time ;;
     wait_loop on_timeout check time_start timeout fuel false).
Proof.
  intros Hm Hc Ht HD s. pose proof (Hm s) as Hs. pose proof (wait_bound_nonneg timeout).
  rewrite bind_unfold. destruct (m s) as [[[]|e|] s1]; cbn [snd] in *; try lia.
  rewrite bind_unfold. cbv beta iota delta [time_time].
  pose proof (wait_loop_bound on_timeout check (clock s1) timeout D Hc Ht HD fuel false s1).
  unfold wait_bound in *. lia.
Qed.

Lemma sleeps_init_position_sync fuel :
  forall timeout n_retry,
    sleeps_at_most ((Z.max 0 n_retry + 1) * wait_bound timeout)
      (init_position_sync driver fuel timeout n_retry).
Proof.
  induction fuel as [|fuel IH]; intros timeout n_retry.
  - apply (sleeps_at_most_weaken 0); [|apply sleeps_at_most_out_of_fuel].
    pose proof (wait_bound_nonneg timeout). nia.
  - rewrite init_position_sync_S.
    apply (sleeps_at_most_weaken (wait_bound timeout + Z.max 0 n_retry * wait_bound timeout));
      [lia|].
    pose proof (wait_bound_nonneg timeout).
    apply sleeps_then_waits;
      [apply still_init_position_async | apply still_is_ready | | nia].
    destruct (0 <? n_retry)%Z eqn:E.
    + apply Z.ltb_lt in E. eapply sleeps_at_most_weaken; [|apply IH].
      replace (Z.max 0 (n_retry - 1) + 1) with (Z.max 0 n_retry) by lia. lia.
    + apply (sleeps_at_most_weaken 0); [nia | apply sleeps_at_most_raise].
Qed.

Lemma sleeps_move_relative_sync fuel d timeout :
  sleeps_at_most (wait_bound timeout) (move_relative_sync driver fuel d timeout).
Proof.
  unfold move_relative_sync.
  apply (sleeps_at_most_weaken (wait_bound timeout + 0)); [lia|].
  apply sleeps_then_waits;
    [apply still_move_relative_async | apply still_is_ready
     | apply sleeps_at_most_raise | lia].
Qed.

Lemma sleeps_move_absolute_sync fuel x :
  forall timeout n_retry,
    sleeps_at_most ((Z.max 0 n_retry + 1) * wait_bound timeout
                    + Z.max 0 n_retry * (4 * wait_bound 30))
      (move_absolute_sync driver fuel x timeout n_retry).
Proof.
  induction fuel as [|fuel IH]; intros timeout n_retry;
    pose proof (wait_bound_nonneg timeout) as HB; pose proof (wait_bound_nonneg 30) as H30.
  - apply (sleeps_at_most_weaken 0); [nia | apply sleeps_at_most_out_of_fuel].
  - rewrite move_absolute_sync_S.
    apply (sleeps_at_most_weaken
             (wait_bound timeout
              + (Z.max 0 n_retry * wait_bound timeout
                 + Z.max 0 n_retry * (4 * wait_bound 30)))); [lia|].
    apply sleeps_then_waits;
      [apply still_move_absolute_async | apply still_is_ready | | nia].
    destruct (0 <? n_retry)%Z eqn:E.
    + apply Z.ltb_lt in E.
      apply (sleeps_at_most_bind 0
               (4 * wait_bound 30
                + ((Z.max 0 (n_retry - 1) + 1) * wait_bound timeout
                   + Z.max 0 (n_retry - 1) * (4 * wait_bound 30))));
        [apply still_set_state | intros _ | nia |].
      * apply (sleeps_at_most_bind (4 * wait_bound 30)
                 ((Z.max 0 (n_retry - 1) + 1) * wait_bound timeout
                  + Z.max 0 (n_retry - 1) * (4 * wait_bound 30)));
          [apply (sleeps_init_position_sync fuel 30 3) | intros _; apply IH | nia | lia].
      * replace (Z.max 0 (n_retry - 1)) with (Z.max 0 n_retry - 1) by lia. lia.
    + apply (sleeps_at_most_weaken 0); [nia | apply sleeps_at_most_raise].
Qed.

End SleepsMethods.

(** X15.  How long the methods sleep, whatever the transport does and
    whatever the outcome is.  [sleep] is the only thing that advances the
    clock of the model.  A polling loop sleeps for at most
    [wait_bound timeout]: nothing for a negative timeout, else the timeout
    and one more sleep of 0.05 s.  [move_relative_sync] sleeps for at most
    one such wait, [init_position_sync] for at most [n_retry + 1] of them,
    [move_absolute_sync] for at most [n_retry + 1] of them and [n_retry]
    homings of four waits of 30 s each ([n_retry] counted as 0 when
    negative); the asynchronous methods and the state query do not sleep. *)
Theorem sleep_is_bounded :
  forall {W} (driver : Driver W),
    (forall fuel d timeout,
        sleeps_at_most (wait_bound timeout) (move_relative_sync driver fuel d timeout)) /\
    (forall fuel timeout n_retry,
        sleeps_at_most ((Z.max 0 n_retry + 1) * wait_bound timeout)
          (init_position_sync driver fuel timeout n_retry)) /\
    (forall fuel x timeout n_retry,
        sleeps_at_most ((Z.max 0 n_retry + 1) * wait_bound timeout
                        + Z.max 0 n_retry * (4 * wait_bound 30))
          (move_absolute_sync driver fuel x timeout n_retry)) /\
    sleeps_at_most 0 (init_position_async driver) /\
    (forall d, sleeps_at_most 0 (move_relative_async driver d)) /\
    (forall x, sleeps_at_most 0 (move_absolute_async driver x)) /\
    sleeps_at_most 0 (is_ready driver).
Proof.
  intros W driver.
  split; [intros; apply sleeps_move_relative_sync|].
  split; [intros; apply sleeps_init_position_sync|].
  split; [intros; apply sleeps_move_absolute_sync|].
  split; [apply still_init_position_async|].
  split; [intros; apply still_move_relative_async|].
  split; [intros; apply still_move_absolute_async|].
  apply still_is_ready.
Qed.

(** ** A negative timeout *)

(** X16.  With a negative timeout the polling loop gives up before its
    first sleep and never queries the state.  Once their command is sent,
    [move_relative_sync], and with no retry left [init_position_sync] and
    [move_absolute_sync], raise [CCMotorTimeoutError] at once, in the state
    that the command left, even when the controller is ready. *)
Theorem negative_timeout_never_polls :
  forall {W} (driver : Driver W) (s s1 : St W) (timeout n_retry : Z) (fuel : nat),
    timeout < 0 ->
    (forall d,
        move_relative_async driver d s = (Return tt, s1) ->
        move_relative_sync driver (S fuel) d timeout s =
          (Raise (CCMotorTimeoutError timeout), s1))
    /\
    (n_retry <= 0 ->
     init_position_async driver s = (Return tt, s1) ->
     init_position_sync driver (S (S fuel)) timeout n_retry s =
       (Raise (CCMotorTimeoutError timeout), s1))
    /\
    (forall x,
        n_retry <= 0 ->
        move_absolute_async driver x s = (Return tt, s1) ->
        move_absolute_sync driver (S (S fuel)) x timeout n_retry s =
          (Raise (CCMotorTimeoutError timeout), s1)).
Proof.
  intros W driver s s1 timeout n_retry fuel Hneg.
  assert (E : (1000 * timeout <? clock s1 - clock s1)%Z = true)
    by (apply Z.ltb_lt; lia).
  split; [|split].
  - intros d Ha. unfold move_relative_sync.
    rewrite (bind_Return _ _ _ _ _ Ha). unfold bind at 1, time_time.
    now rewrite wait_loop_expired.
  - intros Hn Ha. rewrite init_position_sync_S.
    rewrite (bind_Return _ _ _ _ _ Ha). unfold bind at 1, time_time.
    rewrite wait_loop_expired by exact E.
    assert (E0 : (0 <? n_retry)%Z = false) by (apply Z.ltb_ge; lia).
    now rewrite E0.
  - intros x Hn Ha. rewrite move_absolute_sync_S.
    rewrite (bind_Return _ _ _ _ _ Ha). unfold bind at 1, time_time.
    rewrite wait_loop_expired by exact E.
    assert (E0 : (0 <? n_retry)%Z = false) by (apply Z.ltb_ge; lia).
    now rewrite E0.
Qed.

(** A ready controller at 1 mm, a relative move of 500 um with timeout -1. *)
Lemma negative_timeout_witness :
  move_relative_sync (fixed_driver "32" 1) 1 500 (-1) (start tt) =
    (Raise (CCMotorTimeoutError (-1)),
     logged (Call_PR_Set DEV (1e-3 * 500)%float) tt
       (logged (Call_TS DEV) tt (logged (Call_TP DEV) tt (start tt)))).
Proof.
  exact (proj1 (negative_timeout_never_polls (fixed_driver "32" 1) (start tt)
                  (logged (Call_PR_Set DEV (1e-3 * 500)%float) tt
                     (logged (Call_TS DEV) tt (logged (Call_TP DEV) tt (start tt))))
                  (-1) 0 0 eq_refl) 500%float eq_refl).
Defined.

(** ** What the synchronous moves send *)

Section Transmits.

Context {W : Type}.
Variable driver : Driver W.

(** After [m] has returned, having sent [sent], the calls of [m] followed by
    [k] start with [sent]. *)
Lemma emitted_then {A B} (P : call -> Prop) (m : M W A) (k : A -> M W B)
    (s s1 : St W) a sent :
  m s = (Return a, s1) ->
  trace s1 = trace s ++ sent ->
  only_emits P (k a) ->
  exists evs, emitted s (snd (bind m k s)) = sent ++ evs /\ Forall P evs.
Proof.
  intros Hm Htr Hk. rewrite (bind_Return _ _ _ _ _ Hm).
  destruct (Hk s1) as (evs & E & F). exists evs. split; [|exact F].
  apply emitted_app. now rewrite E, Htr, <- app_assoc.
Qed.

(** The synchronous relative move sends the command of the asynchronous one
    and then only queries the state. *)
Lemma move_relative_sync_transmits (s : St W) d mm w0 st w1 w2 fuel timeout :
  TP driver DEV (world s) = ((0, mm, ""), w0) ->
  (MAX_RUN <? mm * 1e3 + d)%float = false ->
  reports driver st w0 w1 ->
  in_READY_STATES st = true ->
  PR_Set driver DEV (1e-3 * d)%float w1 = ((0, ""), w2) ->
  exists evs,
    emitted s (snd (move_relative_sync driver fuel d timeout s)) =
      [Call_TP DEV; Call_TS DEV; Call_PR_Set DEV (1e-3 * d)%float] ++ evs /\
    Forall (fun c => c = Call_TS DEV) evs.
Proof.
  intros Htp Hr Hts Hready Hpr. unfold move_relative_sync.
  eapply emitted_then.
  - rewrite (move_relative_async_issued driver s d mm w0 st w1 0 "" w2) by assumption.
    reflexivity.
  - cbn [logged trace]. now rewrite <- !app_assoc.
  - apply only_emits_bind; [emits|intros time_start].
    apply only_emits_wait_loop; [emits | now apply only_emits_ready_query].
Qed.

(** The synchronous absolute move sends the command of the asynchronous one;
    every move command that follows, in a recovery, is the same one. *)
Lemma move_absolute_sync_transmits (s : St W) x st w1 w2 fuel timeout n_retry :
  (MAX_RUN <? x)%float = false ->
  reports driver st (world s) w1 ->
  in_READY_STATES st = true ->
  PA_Set driver DEV (1e-3 * x)%float w1 = ((0, ""), w2) ->
  exists evs,
    emitted s (snd (move_absolute_sync driver (S fuel) x timeout n_retry s)) =
      [Call_TS DEV; Call_PA_Set DEV (1e-3 * x)%float] ++ evs /\
    Forall (fun c => is_move c = true -> c = Call_PA_Set DEV (1e-3 * x)%float) evs.
Proof.
  intros Hr Hts Hready Hpa. rewrite move_absolute_sync_S.
  assert (Hother : forall c, is_move c = false ->
                     is_move c = true -> c = Call_PA_Set DEV (1e-3 * x)%float)
    by (intros c Hc Hm; congruence).
  eapply emitted_then.
  - rewrite (move_absolute_async_issued driver s x st w1 0 "" w2) by assumption.
    reflexivity.
  - cbn [logged trace]. now rewrite <- !app_assoc.
  - apply only_emits_bind; [emits|intros time_start].
    apply only_emits_wait_loop.
    + destruct (0 <? n_retry)%Z; [|emits].
      apply only_emits_bind; [now apply only_emits_set_state|intros _].
      apply only_emits_bind; [now apply only_emits_init_position_sync|intros _].
      apply only_emits_move_absolute_sync; [exact Hother | intros _; reflexivity].
    + apply only_emits_bind; [now apply only_emits_state|intros; emits].
Qed.

End Transmits.

(** ** Which range errors the moves raise *)

Lemma raises_only_fst {W A} (Q : exn -> Prop) (m : M W A) :
  raises_only Q m -> forall s e, fst (m s) = Raise e -> Q e.
Proof.
  intros H s e E. destruct (m s) as [o s'] eqn:Em. cbn [fst] in E. subst o.
  exact (H s e s' Em).
Qed.

Lemma no_range_error_of x e : is_RangeExceededError e = false -> range_error_of x e.
Proof. intros H pos max_pos ->. discriminate H. Qed.

Lemma no_range_error_above e :
  is_RangeExceededError e = false -> range_error_above_MAX_RUN e.
Proof. intros H pos max_pos ->. discriminate H. Qed.

Lemma communication_error_no_range e :
  communication_error e -> is_RangeExceededError e = false.
Proof. unfold communication_error. now destruct e. Qed.

Lemma range_error_of_within x e :
  (x <=? MAX_RUN)%float = true -> range_error_of x e -> is_RangeExceededError e = false.
Proof.
  intros Hle H. destruct e as [| |pos max_pos| | |]; try reflexivity.
  destruct (H pos max_pos eq_refl) as (_ & _ & Hgt).
  rewrite (leb_not_ltb _ _ Hle) in Hgt. discriminate Hgt.
Qed.

Section RangeErrors.

Context {W : Type}.
Variable driver : Driver W.

(** What follows the range check of a move raises no range error. *)
Lemma raises_no_range_is_ready :
  raises_only (fun e => is_RangeExceededError e = false) (is_ready driver).
Proof.
  eapply raises_only_weaken; [|apply raises_is_ready]. apply communication_error_no_range.
Qed.

Lemma raises_no_range_state :
  raises_only (fun e => is_RangeExceededError e = false) (state driver).
Proof.
  eapply raises_only_weaken; [|apply raises_state]. apply communication_error_no_range.
Qed.

Lemma raises_no_range_init_position_sync fuel timeout n_retry :
  raises_only (fun e => is_RangeExceededError e = false)
    (init_position_sync driver fuel timeout n_retry).
Proof.
  eapply raises_only_weaken; [|apply raises_init_position_sync].
  intros e [He| ->]; [now apply communication_error_no_range | reflexivity].
Qed.

Lemma raises_range_move_absolute_async x :
  raises_only (range_error_of x) (move_absolute_async driver x).
Proof.
  unfold move_absolute_async. destruct (MAX_RUN <? x)%float eqn:Hx.
  - apply raises_only_raise. intros pos max_pos E. injection E as <- <-. now repeat split.
  - eapply raises_only_weaken; [apply no_range_error_of|].
    apply raises_only_bind; [apply raises_no_range_is_ready|intros ready].
    destruct (negb ready).
    + apply raises_only_bind; [apply raises_no_range_state|intros st].
      now apply raises_only_raise.
    + apply raises_only_bind; [apply raises_only_invoke|intros [res err_str]].
      destruct (faulty res err_str); [now apply raises_only_raise | apply raises_only_ret].
Qed.

Lemma raises_range_move_absolute_sync fuel x :
  forall timeout n_retry,
    raises_only (range_error_of x) (move_absolute_sync driver fuel x timeout n_retry).
Proof.
  induction fuel as [|fuel IH]; intros timeout n_retry;
    [apply raises_only_out_of_fuel | rewrite move_absolute_sync_S].
  apply raises_only_bind; [apply raises_range_move_absolute_async|intros _].
  apply raises_only_bind; [apply raises_only_time_time|intros time_start].
  apply raises_only_wait_loop.
  - destruct (0 <? n_retry)%Z;
      [|apply raises_only_raise; now apply no_range_error_of].
    apply raises_only_bind;
      [eapply raises_only_weaken; [|apply raises_set_state];
       intros e He; now apply no_range_error_of, communication_error_no_range|intros _].
    apply raises_only_bind; [|intros _; apply IH].
    eapply raises_only_weaken; [apply no_range_error_of|].
    apply raises_no_range_init_position_sync.
  - eapply raises_only_weaken; [apply no_range_error_of|].
    apply raises_only_bind; [apply raises_no_range_state|intros st; apply raises_only_ret].
Qed.

(** The relative move, after its range check. *)
Lemma raises_no_range_polling timeout fuel :
  raises_only (fun e => is_RangeExceededError e = false)
    (time_start <- time_time ;;
     wait_loop (raise (CCMotorTimeoutError timeout)) (is_ready driver)
       time_start timeout fuel false).
Proof.
  apply raises_only_bind; [apply raises_only_time_time|intros time_start].
  apply raises_only_wait_loop; [now apply raises_only_raise | apply raises_no_range_is_ready].
Qed.

Lemma raises_range_move_relative_async d :
  raises_only range_error_above_MAX_RUN (move_relative_async driver d).
Proof.
  unfold move_relative_async.
  apply raises_only_bind;
    [eapply raises_only_weaken; [|apply raises_cur_pos];
     intros e He; now apply no_range_error_above, communication_error_no_range|intros cur].
  destruct (MAX_RUN <? cur + d)%float eqn:Hx.
  - apply raises_only_raise. intros pos max_pos E. injection E as <- <-. now split.
  - eapply raises_only_weaken; [apply no_range_error_above|].
    apply raises_only_bind; [apply raises_no_range_is_ready|intros ready].
    destruct (negb ready).
    + apply raises_only_bind; [apply raises_no_range_state|intros st].
      now apply raises_only_raise.
    + apply raises_only_bind; [apply raises_only_invoke|intros [res err_str]].
      destruct (faulty res err_str); [now apply raises_only_raise | apply raises_only_ret].
Qed.

Lemma raises_range_move_relative_sync fuel d timeout :
  raises_only range_error_above_MAX_RUN (move_relative_sync driver fuel d timeout).
Proof.
  unfold move_relative_sync.
  apply raises_only_bind; [apply raises_range_move_relative_async|intros _].
  eapply raises_only_weaken; [apply no_range_error_above|].
  apply raises_no_range_polling.
Qed.

(** A relative move whose position query succeeded with a sum within
    [MAX_RUN] raises no range error. *)
Lemma move_relative_async_no_range_error (s s' : St W) d mm w0 e :
  TP driver DEV (world s) = ((0, mm, ""), w0) ->
  (MAX_RUN <? mm * 1e3 + d)%float = false ->
  move_relative_async driver d s = (Raise e, s') ->
  is_RangeExceededError e = false.
Proof.
  intros Htp Hr. unfold move_relative_async.
  rewrite (bind_Return _ _ _ _ _ (cur_pos_ok driver s mm w0 Htp)), Hr.
  apply (raises_only_bind (fun e => is_RangeExceededError e = false));
    [apply raises_no_range_is_ready|intros ready].
  destruct (negb ready).
  - apply raises_only_bind; [apply raises_no_range_state|intros st].
    now apply raises_only_raise.
  - apply raises_only_bind; [apply raises_only_invoke|intros [res err_str]].
    destruct (faulty res err_str); [now apply raises_only_raise | apply raises_only_ret].
Qed.

Lemma move_relative_sync_no_range_error (s : St W) d mm w0 fuel timeout e :
  TP driver DEV (world s) = ((0, mm, ""), w0) ->
  (MAX_RUN <? mm * 1e3 + d)%float = false ->
  fst (move_relative_sync driver fuel d timeout s) = Raise e ->
  is_RangeExceededError e = false.
Proof.
  intros Htp Hr. unfold move_relative_sync. unfold bind at 1.
  destruct (move_relative_async driver d s) as [[[]|e0|] s1] eqn:Ea.
  - apply (raises_only_fst _ _ (raises_no_range_polling timeout fuel)).
  - cbn [fst]. intros E. injection E as <-.
    exact (move_relative_async_no_range_error s s1 d mm w0 e0 Htp Hr Ea).
  - discriminate.
Qed.

End RangeErrors.

(** ** Units *)

(** C8, as stated, fails at two public accessors.  With the controller at
    1.5 mm, [cur_pos] returns 1500 (micrometers) but the public property
    [cur_pos_mm] returns 1.5, the controller's millimeters; and [get_limits]
    returns the limits 0 and 25 exactly as the controller answers them,
    without the conversion by 1000. *)
Lemma positions_in_micrometers_counterexample :
  TP (fixed_driver "32" 1.5) DEV tt = ((0, 1.5%float, ""), tt)
  /\ cur_pos (fixed_driver "32" 1.5) (start tt) =
       (Return 1500%float, logged (Call_TP DEV) tt (start tt))
  /\ cur_pos_mm (fixed_driver "32" 1.5) (start tt) =
       (Return 1.5%float, logged (Call_TP DEV) tt (start tt))
  /\ SL_Get (fixed_driver "32" 1.5) DEV tt = ((0, 0%float, ""), tt)
  /\ SR_Get (fixed_driver "32" 1.5) DEV tt = ((0, 25%float, ""), tt)
  /\ fst (get_limits (fixed_driver "32" 1.5) (start tt)) = Return (0%float, 25%float).
Proof. repeat split. Qed.

(** C8, amended.  Positions are in micrometers at [cur_pos] and at the
    arguments of the four move methods, while [cur_pos_mm] and [get_limits]
    return what the controller answers, unconverted.  A position query
    answered with [mm] makes [cur_pos] return [mm * 1000] and [cur_pos_mm]
    return [mm]; [get_limits] returns the two limits as answered.  Whatever
    the transport does, every move command that the relative moves send is
    [PR_Set] of [1e-3 * distance_um] and every move command that the
    absolute moves send is [PA_Set] of [1e-3 * new_pos].  And when the
    checks pass and the transport accepts the command, that command is sent:
    by the asynchronous move, which returns, and by the synchronous move,
    whose calls start with those of the asynchronous one, whatever happens
    while it waits. *)
Theorem positions_in_micrometers :
  forall {W} (driver : Driver W),
    (forall s mm w',
        TP driver DEV (world s) = ((0, mm, ""), w') ->
        cur_pos driver s = (Return (mm * 1000)%float, logged (Call_TP DEV) w' s) /\
        cur_pos_mm driver s = (Return mm, logged (Call_TP DEV) w' s))
    /\
    (forall s lo hi w1 w2,
        SL_Get driver DEV (world s) = ((0, lo, ""), w1) ->
        SR_Get driver DEV w1 = ((0, hi, ""), w2) ->
        fst (get_limits driver s) = Return (lo, hi))
    /\
    (forall d,
        let P c := is_move c = true -> c = Call_PR_Set DEV (1e-3 * d)%float in
        only_emits P (move_relative_async driver d) /\
        (forall fuel timeout, only_emits P (move_relative_sync driver fuel d timeout)))
    /\
    (forall x,
        let P c := is_move c = true -> c = Call_PA_Set DEV (1e-3 * x)%float in
        only_emits P (move_absolute_async driver x) /\
        (forall fuel timeout n_retry,
            only_emits P (move_absolute_sync driver fuel x timeout n_retry)))
    /\
    (forall s d mm w0 st w1 w2,
        TP driver DEV (world s) = ((0, mm, ""), w0) ->
        (MAX_RUN <? mm * 1e3 + d)%float = false ->
        reports driver st w0 w1 ->
        in_READY_STATES st = true ->
        PR_Set driver DEV (1e-3 * d)%float w1 = ((0, ""), w2) ->
        move_relative_async driver d s =
          (Return tt,
           logged (Call_PR_Set DEV (1e-3 * d)%float) w2
             (logged (Call_TS DEV) w1 (logged (Call_TP DEV) w0 s))) /\
        (forall fuel timeout,
            exists evs,
              emitted s (snd (move_relative_sync driver fuel d timeout s)) =
                [Call_TP DEV; Call_TS DEV; Call_PR_Set DEV (1e-3 * d)%float] ++ evs /\
              Forall (fun c => c = Call_TS DEV) evs))
    /\
    (forall s x st w1 w2,
        (MAX_RUN <? x)%float = false ->
        reports driver st (world s) w1 ->
        in_READY_STATES st = true ->
        PA_Set driver DEV (1e-3 * x)%float w1 = ((0, ""), w2) ->
        move_absolute_async driver x s =
          (Return tt,
           logged (Call_PA_Set DEV (1e-3 * x)%float) w2 (logged (Call_TS DEV) w1 s)) /\
        (forall fuel timeout n_retry,
            exists evs,
              emitted s (snd (move_absolute_sync driver (S fuel) x timeout n_retry s)) =
                [Call_TS DEV; Call_PA_Set DEV (1e-3 * x)%float] ++ evs /\
              Forall (fun c => is_move c = true -> c = Call_PA_Set DEV (1e-3 * x)%float)
                evs)).
Proof.
  intros W driver. split; [|split; [|split; [|split; [|split]]]].
  - intros s mm w' H. split.
    + exact (cur_pos_ok driver s mm w' H).
    + exact (cur_pos_mm_ok driver s mm w' H).
  - intros s lo hi w1 w2 Hl Hh. now rewrite (get_limits_caches driver s lo hi w1 w2 Hl Hh).
  - intros d P.
    assert (Hother : forall c, is_move c = false -> P c).
    { intros c Hc Hm. congruence. }
    assert (Hp : P (Call_PR_Set DEV (1e-3 * d)%float)) by (intros _; reflexivity).
    split.
    + now apply only_emits_move_relative_async.
    + intros. now apply only_emits_move_relative_sync.
  - intros x P.
    assert (Hother : forall c, is_move c = false -> P c).
    { intros c Hc Hm. congruence. }
    assert (Hp : P (Call_PA_Set DEV (1e-3 * x)%float)) by (intros _; reflexivity).
    split.
    + now apply only_emits_move_absolute_async.
    + intros. now apply only_emits_move_absolute_sync.
  - intros s d mm w0 st w1 w2 Htp Hr Hts Hready Hpr. split.
    + now rewrite (move_relative_async_issued driver s d mm w0 st w1 0 "" w2).
    + intros fuel timeout.
      exact (move_relative_sync_transmits driver s d mm w0 st w1 w2 fuel timeout
               Htp Hr Hts Hready Hpr).
  - intros s x st w1 w2 Hr Hts Hready Hpa. split.
    + now rewrite (move_absolute_async_issued driver s x st w1 0 "" w2).
    + intros fuel timeout n_retry.
      exact (move_absolute_sync_transmits driver s x st w1 w2 fuel timeout n_retry
               Hr Hts Hready Hpa).
Qed.

(** At 1.5 mm the position is 1500 um; a move by 250 um sends 0.25 mm and a
    move to 500 um sends 0.5 mm, and so do the synchronous moves, here with
    a timeout of 30 s. *)
Lemma positions_in_micrometers_witness :
  cur_pos (fixed_driver "32" 1.5) (start tt) =
    (Return 1500%float, logged (Call_TP DEV) tt (start tt))
  /\ emitted (start tt) (snd (move_relative_async (fixed_driver "32" 1.5) 250 (start tt))) =
    [Call_TP DEV; Call_TS DEV; Call_PR_Set DEV 0.25]
  /\ emitted (start tt) (snd (move_absolute_async (fixed_driver "32" 1.5) 500 (start tt))) =
    [Call_TS DEV; Call_PA_Set DEV 0.5]
  /\ (exists evs,
        emitted (start tt)
          (snd (move_relative_sync (fixed_driver "32" 1.5) 3 250 30 (start tt))) =
        [Call_TP DEV; Call_TS DEV; Call_PR_Set DEV 0.25] ++ evs)
  /\ (exists evs,
        emitted (start tt)
          (snd (move_absolute_sync (fixed_driver "32" 1.5) 3 500 30 3 (start tt))) =
        [Call_TS DEV; Call_PA_Set DEV 0.5] ++ evs).
Proof.
  destruct (positions_in_micrometers (fixed_driver "32" 1.5))
    as (Hq & _ & _ & _ & Hr & Ha).
  assert (R : reports (fixed_driver "32" 1.5) "32" tt tt) by (exists 0, ""; reflexivity).
  destruct (Hr (start tt) 250%float 1.5%float tt "32" tt tt eq_refl eq_refl R eq_refl eq_refl)
    as [Er Sr].
  destruct (Ha (start tt) 500%float "32" tt tt eq_refl R eq_refl eq_refl) as [Ea Sa].
  split; [|split; [|split; [|split]]].
  - exact (proj1 (Hq (start tt) 1.5%float tt eq_refl)).
  - rewrite Er. reflexivity.
  - rewrite Ea. reflexivity.
  - destruct (Sr 3%nat 30) as (evs & E & _). exists evs. exact E.
  - destruct (Sa 2%nat 30 3) as (evs & E & _). exists evs. exact E.
Defined.

(** ** No lower bound *)

(** C10, as stated, fails where it says that the move is issued.  A move to
    -5 um, within [MAX_RUN], by a controller in state "28" (MOVING) raises
    [CCMotorStateError] and sends no move command. *)
Lemma no_lower_bound_counterexample :
  (-5 <=? MAX_RUN)%float = true
  /\ in_READY_STATES "28" = false
  /\ move_absolute_async (fixed_driver "28" 1) (-5) (start tt) =
       (Raise (CCMotorStateError "Stage not ready. Current state is : 28"),
        logged (Call_TS DEV) tt (logged (Call_TS DEV) tt (start tt)))
  /\ count is_move
       (trace (snd (move_absolute_async (fixed_driver "28" 1) (-5) (start tt)))) = 0%nat.
Proof. repeat split. Qed.

(** C10, amended.  No move enforces a lower bound: the only range error
    that any of the four move methods raises, whatever the transport does, is
    the one of a target above [MAX_RUN] (for the absolute moves it carries
    [new_pos] and [MAX_RUN] with [new_pos > MAX_RUN]; for the relative moves
    a position above [MAX_RUN], and none when the position query succeeded
    with a sum within [MAX_RUN]).  So for a target [new_pos <= MAX_RUN],
    negative or not, the absolute moves raise no range error; and when the
    controller reports a ready state and the transport accepts the command,
    the move is issued, by the asynchronous methods, which return, and by
    the synchronous ones, whose calls start with it.  [get_limits] stores the
    two limits that the controller answers, and the four move methods are
    blind to them: changing [min_limit] and [max_limit] before the call
    changes neither outcome nor calls. *)
Theorem no_lower_bound_and_cached_limits_unused :
  forall {W} (driver : Driver W),
    (forall x,
        raises_only (range_error_of x) (move_absolute_async driver x) /\
        (forall fuel timeout n_retry,
            raises_only (range_error_of x)
              (move_absolute_sync driver fuel x timeout n_retry)))
    /\
    (forall d,
        raises_only range_error_above_MAX_RUN (move_relative_async driver d) /\
        (forall fuel timeout,
            raises_only range_error_above_MAX_RUN
              (move_relative_sync driver fuel d timeout)))
    /\
    (forall s new_pos,
        (new_pos <=? MAX_RUN)%float = true ->
        (forall e, fst (move_absolute_async driver new_pos s) = Raise e ->
                   is_RangeExceededError e = false) /\
        (forall fuel timeout n_retry e,
            fst (move_absolute_sync driver fuel new_pos timeout n_retry s) = Raise e ->
            is_RangeExceededError e = false) /\
        (forall st w1 w2,
            reports driver st (world s) w1 ->
            in_READY_STATES st = true ->
            PA_Set driver DEV (1e-3 * new_pos)%float w1 = ((0, ""), w2) ->
            move_absolute_async driver new_pos s =
              (Return tt,
               logged (Call_PA_Set DEV (1e-3 * new_pos)%float) w2
                 (logged (Call_TS DEV) w1 s)) /\
            (forall fuel timeout n_retry,
                exists evs,
                  emitted s
                    (snd (move_absolute_sync driver (S fuel) new_pos timeout n_retry s)) =
                  [Call_TS DEV; Call_PA_Set DEV (1e-3 * new_pos)%float] ++ evs)))
    /\
    (forall s d mm w0,
        TP driver DEV (world s) = ((0, mm, ""), w0) ->
        (mm * 1e3 + d <=? MAX_RUN)%float = true ->
        (forall e, fst (move_relative_async driver d s) = Raise e ->
                   is_RangeExceededError e = false) /\
        (forall fuel timeout e,
            fst (move_relative_sync driver fuel d timeout s) = Raise e ->
            is_RangeExceededError e = false) /\
        (forall st w1 w2,
            reports driver st w0 w1 ->
            in_READY_STATES st = true ->
            PR_Set driver DEV (1e-3 * d)%float w1 = ((0, ""), w2) ->
            move_relative_async driver d s =
              (Return tt,
               logged (Call_PR_Set DEV (1e-3 * d)%float) w2
                 (logged (Call_TS DEV) w1 (logged (Call_TP DEV) w0 s))) /\
            (forall fuel timeout,
                exists evs,
                  emitted s (snd (move_relative_sync driver fuel d timeout s)) =
                  [Call_TP DEV; Call_TS DEV; Call_PR_Set DEV (1e-3 * d)%float] ++ evs)))
    /\
    (forall s lo hi w1 w2,
        SL_Get driver DEV (world s) = ((0, lo, ""), w1) ->
        SR_Get driver DEV w1 = ((0, hi, ""), w2) ->
        fst (get_limits driver s) = Return (lo, hi) /\
        min_limit (snd (get_limits driver s)) = Some lo /\
        max_limit (snd (get_limits driver s)) = Some hi)
    /\
    (forall x, limits_blind (move_absolute_async driver x)) /\
    (forall d, limits_blind (move_relative_async driver d)) /\
    (forall fuel x timeout n_retry,
        limits_blind (move_absolute_sync driver fuel x timeout n_retry)) /\
    (forall fuel d timeout, limits_blind (move_relative_sync driver fuel d timeout)).
Proof.
  intros W driver.
  split; [|split; [|split; [|split; [|split; [|repeat split]]]]].
  - intros x. split.
    + apply raises_range_move_absolute_async.
    + intros fuel timeout n_retry. apply raises_range_move_absolute_sync.
  - intros d. split.
    + apply raises_range_move_relative_async.
    + intros fuel timeout. apply raises_range_move_relative_sync.
  - intros s new_pos Hle. pose proof (leb_not_ltb _ _ Hle) as Hr.
    split; [|split].
    + intros e He. apply (range_error_of_within new_pos e Hle).
      exact (raises_only_fst _ _ (raises_range_move_absolute_async driver new_pos) s e He).
    + intros fuel timeout n_retry e He. apply (range_error_of_within new_pos e Hle).
      exact (raises_only_fst _ _
               (raises_range_move_absolute_sync driver fuel new_pos timeout n_retry) s e He).
    + intros st w1 w2 Hts Hready Hpa. split.
      * now rewrite (move_absolute_async_issued driver s new_pos st w1 0 "" w2).
      * intros fuel timeout n_retry.
        destruct (move_absolute_sync_transmits driver s new_pos st w1 w2 fuel timeout n_retry
                    Hr Hts Hready Hpa) as (evs & E & _).
        now exists evs.
  - intros s d mm w0 Htp Hle. pose proof (leb_not_ltb _ _ Hle) as Hr.
    split; [|split].
    + intros e He.
      destruct (move_relative_async driver d s) as [o s'] eqn:Ea. cbn [fst] in He. subst o.
      exact (move_relative_async_no_range_error driver s s' d mm w0 e Htp Hr Ea).
    + intros fuel timeout e He.
      exact (move_relative_sync_no_range_error driver s d mm w0 fuel timeout e Htp Hr He).
    + intros st w1 w2 Hts Hready Hpr. split.
      * now rewrite (move_relative_async_issued driver s d mm w0 st w1 0 "" w2).
      * intros fuel timeout.
        destruct (move_relative_sync_transmits driver s d mm w0 st w1 w2 fuel timeout
                    Htp Hr Hts Hready Hpr) as (evs & E & _).
        now exists evs.
  - intros s lo hi w1 w2 Hl Hh.
    rewrite (get_limits_caches driver s lo hi w1 w2 Hl Hh). repeat split.
  - intros x. apply limits_blind_move_absolute_async.
  - intros d. apply limits_blind_move_relative_async.
  - intros fuel x timeout n_retry. apply limits_blind_move_absolute_sync.
  - intros fuel d timeout. apply limits_blind_move_relative_sync.
Qed.

(** A move to -5 um by a ready controller whose cached limits are 0 and 25:
    the move is issued, as it is without cached limits; and a synchronous
    move to -5 um sends the same command. *)
Lemma no_lower_bound_witness :
  move_absolute_async (fixed_driver "32" 1) (-5)
    (with_limits (Some 0%float) (Some 25%float) (start tt)) =
    (Return tt,
     with_limits (Some 0%float) (Some 25%float)
       (logged (Call_PA_Set DEV (1e-3 * -5)%float) tt (logged (Call_TS DEV) tt (start tt))))
  /\ (exists evs,
        emitted (start tt)
          (snd (move_absolute_sync (fixed_driver "32" 1) 3 (-5) 30 3 (start tt))) =
        [Call_TS DEV; Call_PA_Set DEV (1e-3 * -5)%float] ++ evs).
Proof.
  destruct (no_lower_bound_and_cached_limits_unused (fixed_driver "32" 1))
    as (_ & _ & Hmove & _ & _ & Hblind & _).
  assert (R : reports (fixed_driver "32" 1) "32" tt tt) by (exists 0, ""; reflexivity).
  destruct (Hmove (start tt) (-5)%float eq_refl) as (_ & _ & Hissue).
  destruct (Hissue "32" tt tt R eq_refl eq_refl) as [Ea Es].
  split.
  - rewrite (Hblind (-5)%float (start tt) (Some 0%float) (Some 25%float)).
    rewrite Ea. reflexivity.
  - exact (Es 2%nat 30 3).
Defined.
